(** * Gesture pipeline of the boxing game: smoothing, fist test, punch
      detection with cooldown, block/dodge pose state.

    Shallow embedding of [cv/punch_detector.py], and of the fighters of
    [game/player.py] and [game/opponent.py] with the part of the loop of
    [main.py] that drives them.

    Numbers.  Python floats are modelled as exact real numbers ([R]): every
    arithmetic operation is the exact one and comparisons are the order of
    the reals.  Rounding, infinities and NaN are outside the model; the
    statements go through the expressions and comparisons of the code, and
    where a limit is stated it is stated up to [rounding_tolerance].

    Exceptions.  Code that can raise returns a [result]; the exception names
    are the Python ones.

    Dictionaries are finite maps ([gmap]) keyed by strings, the [seen] set is
    a [gset], a [collections.deque] with [maxlen] is a list that drops from
    the left when it is full. *)

From Stdlib Require Import Reals Lra Sorted Ascii.
From stdpp Require Import gmap strings list fin_maps.

#[local] Set Warnings "-clear-no-such-hyp".

Local Open Scope R_scope.

(** ** Python runtime pieces *)

Inductive exn : Type :=
| IndexError
| KeyError
| ValueError
| ZeroDivisionError.

Inductive result (A : Type) : Type :=
| Ok (a : A)
| Raise (e : exn).

Arguments Ok {A} a.
Arguments Raise {A} e.

#[global] Instance result_ret : MRet result := fun A a => Ok a.
#[global] Instance result_bind : MBind result := fun A B k r =>
  match r with
  | Ok a => k a
  | Raise e => Raise e
  end.

#[global] Instance Rlt_decision (x y : R) : Decision (x < y) := Rlt_dec x y.
#[global] Instance Rle_decision (x y : R) : Decision (x <= y) := Rle_dec x y.
#[global] Instance Req_decision : EqDecision R := Req_dec_T.

(** [l[i]] for a non-negative constant index. *)
Definition getitem {A : Type} (l : list A) (i : nat) : result A :=
  match l !! i with
  | Some a => Ok a
  | None => Raise IndexError
  end.

(** [str.lower()] on ASCII text: [A]..[Z] go to [a]..[z], every other
    character stays. *)
Definition lower_ascii (c : ascii) : ascii :=
  let n := nat_of_ascii c in
  if ((65 <=? n) && (n <=? 90))%nat then ascii_of_nat (n + 32) else c.

Fixpoint lower (s : string) : string :=
  match s with
  | EmptyString => EmptyString
  | String c s' => String (lower_ascii c) (lower s')
  end.

(** [max(xs)] and [min(xs)]: [ValueError] on an empty sequence. *)
Definition py_max (xs : list R) : result R :=
  match xs with
  | [] => Raise ValueError
  | x :: rest => Ok (fold_left Rmax rest x)
  end.

Definition py_min (xs : list R) : result R :=
  match xs with
  | [] => Raise ValueError
  | x :: rest => Ok (fold_left Rmin rest x)
  end.

(** [sum(xs)], starting from 0. *)
Definition py_sum (xs : list R) : R := fold_left Rplus xs 0.

(** [a / b] on floats: [ZeroDivisionError] when [b] is zero. *)
Definition py_div (a b : R) : result R :=
  if decide (b = 0) then Raise ZeroDivisionError else Ok (a / b).

(** The two-argument [min(a, b)]: [b] when [b < a], else [a]. *)
Definition py_min2 (a b : R) : R := if decide (b < a) then b else a.

(** ** Data model *)

(** A landmark is the tuple [(x, y, z)]. *)
Definition landmark : Type := R * R * R.

Definition lm0 (lm : landmark) : R := lm.1.1.
Definition lm1 (lm : landmark) : R := lm.1.2.
Definition lm2 (lm : landmark) : R := lm.2.

(** One entry of [hands_data]: the dict with keys ["landmarks"] and
    ["handedness"]. *)
Record hand : Type := mk_hand {
  landmarks : list landmark;
  handedness : string
}.

(** Landmark indices (MediaPipe Hands). *)
Definition WRIST : nat := 0.
Definition MIDDLE_FINGER_MCP : nat := 9.
Definition INDEX_TIP : nat := 8.
Definition INDEX_PIP : nat := 6.
Definition MIDDLE_TIP : nat := 12.
Definition MIDDLE_PIP : nat := 10.
Definition RING_TIP : nat := 16.
Definition RING_PIP : nat := 14.
Definition PINKY_TIP : nat := 20.
Definition PINKY_PIP : nat := 18.
Definition THUMB_TIP : nat := 4.
Definition THUMB_IP : nat := 3.
Definition THUMB_MCP : nat := 2.

(** ** Landmark smoother *)

Definition LANDMARK_SMOOTH_ALPHA : R := 0.35.

(** Body of the inner loop of [_smooth_landmarks] for landmark [i]:
    [if prev and i < len(prev)] holds exactly when [prev] is a list with an
    entry at [i]. *)
Definition smooth_point (prev : option (list landmark)) (i : nat)
    (lm : landmark) : landmark :=
  let x := lm0 lm in
  let y := lm1 lm in
  let z := lm2 lm in
  match prev with
  | Some p =>
      match p !! i with
      | Some (px, py, pz) =>
          (LANDMARK_SMOOTH_ALPHA * x + (1 - LANDMARK_SMOOTH_ALPHA) * px,
           LANDMARK_SMOOTH_ALPHA * y + (1 - LANDMARK_SMOOTH_ALPHA) * py,
           LANDMARK_SMOOTH_ALPHA * z + (1 - LANDMARK_SMOOTH_ALPHA) * pz)
      | None => (x, y, z)
      end
  | None => (x, y, z)
  end.

(** The loop state of [_smooth_landmarks]: [result], [new_prev], [seen]. *)
Record smooth_acc : Type := mk_acc {
  acc_result : list hand;
  acc_new_prev : gmap string (list landmark);
  acc_seen : gset string
}.

(** One iteration of [for hd in hands_data]. *)
Definition smooth_hand (prev_smoothed : gmap string (list landmark))
    (acc : smooth_acc) (hd : hand) : smooth_acc :=
  let hid := lower (handedness hd) in
  let prev := prev_smoothed !! hid in
  let smoothed := imap (smooth_point prev) (landmarks hd) in
  {| acc_result := acc_result acc ++ [mk_hand smoothed (handedness hd)];
     acc_new_prev := <[hid := smoothed]> (acc_new_prev acc);
     acc_seen := {[hid]} ∪ acc_seen acc |}.

Definition _smooth_landmarks (hands_data : list hand)
    (prev_smoothed : gmap string (list landmark))
    : list hand * gmap string (list landmark) :=
  let acc := fold_left (smooth_hand prev_smoothed) hands_data
               (mk_acc [] ∅ ∅) in
  (acc_result acc,
   filter (fun kv => kv.1 ∈ acc_seen acc) (acc_new_prev acc)).

(** ** Pose classifier *)

(** The local function [tip_closer_than_pip] of [_is_fist]; [wrist] is the
    variable it closes over. *)
Definition tip_closer_than_pip (wrist tip pip : landmark) : bool :=
  let d_tip := (lm0 tip - lm0 wrist) ^ 2 + (lm1 tip - lm1 wrist) ^ 2 in
  let d_pip := (lm0 pip - lm0 wrist) ^ 2 + (lm1 pip - lm1 wrist) ^ 2 in
  bool_decide (d_tip <= d_pip * 1.3).

(** The [try] block of [_is_fist]. *)
Definition is_fist_try (landmarks : list landmark) : result bool :=
  thumb_tip ← getitem landmarks THUMB_TIP;
  thumb_mcp ← getitem landmarks THUMB_MCP;
  index_tip ← getitem landmarks INDEX_TIP;
  index_pip ← getitem landmarks INDEX_PIP;
  middle_tip ← getitem landmarks MIDDLE_TIP;
  middle_pip ← getitem landmarks MIDDLE_PIP;
  ring_tip ← getitem landmarks RING_TIP;
  ring_pip ← getitem landmarks RING_PIP;
  pinky_tip ← getitem landmarks PINKY_TIP;
  pinky_pip ← getitem landmarks PINKY_PIP;
  wrist ← getitem landmarks WRIST;
  let hand_span :=
    sqrt ((lm0 thumb_tip - lm0 pinky_tip) ^ 2
          + (lm1 thumb_tip - lm1 pinky_tip) ^ 2) in
  if decide (hand_span < 0.05) then Ok false
  else
    let fingers_curled :=
      tip_closer_than_pip wrist index_tip index_pip
      && tip_closer_than_pip wrist middle_tip middle_pip
      && tip_closer_than_pip wrist ring_tip ring_pip
      && tip_closer_than_pip wrist pinky_tip pinky_pip in
    Ok fingers_curled.

(** [_is_fist]: the [try] block with [except (IndexError, KeyError): return
    False]; any other exception would propagate. *)
Definition _is_fist (landmarks : list landmark) : result bool :=
  match is_fist_try landmarks with
  | Raise IndexError | Raise KeyError => Ok false
  | r => r
  end.

Definition _hand_size (landmarks : list landmark) : result R :=
  let xs := map lm0 landmarks in
  let ys := map lm1 landmarks in
  max_x ← py_max xs;
  min_x ← py_min xs;
  max_y ← py_max ys;
  min_y ← py_min ys;
  Ok (sqrt ((max_x - min_x) ^ 2 + (max_y - min_y) ^ 2)).

Definition _avg_z (landmarks : list landmark) : result R :=
  py_div (py_sum (map lm2 landmarks)) (INR (length landmarks)).

(** ** Punch detector *)

(** The attributes [__init__] stores from its arguments. *)
Record config : Type := mk_config {
  velocity_threshold : R;
  cooldown_sec : R;
  history_frames : nat
}.

(** [PunchDetector(event_queue, velocity_threshold, cooldown_ms,
    history_frames)]: the cooldown is kept in seconds. *)
Definition PunchDetector (velocity_threshold cooldown_ms : R)
    (history_frames : nat) : config :=
  mk_config velocity_threshold (cooldown_ms / 1000.0) history_frames.

(** A history sample [(t, size, z)]. *)
Definition sample : Type := R * R * R.

(** The dict [{"type": "punch", "hand": hid, "strength": strength}]. *)
Inductive event : Type :=
| punch (hand_label : string) (strength : R).

(** The mutable attributes [_history] and [_last_punch]. *)
Record detector : Type := mk_detector {
  _history : gmap string (list sample);
  _last_punch : gmap string R
}.

(** The detector right after [__init__]. *)
Definition detector_init : detector := mk_detector ∅ ∅.

(** Methods of the detector: they read and write the two dicts, put events
    on the queue and may raise.  What was written and put before an
    exception stays. *)
Definition M (A : Type) : Type :=
  detector -> result A * detector * list event.

#[global] Instance M_ret : MRet M := fun A a st => (Ok a, st, []).
#[global] Instance M_bind : MBind M := fun A B k m st =>
  match m st with
  | (Ok a, st1, ev1) =>
      match k a st1 with
      | (r, st2, ev2) => (r, st2, ev1 ++ ev2)
      end
  | (Raise e, st1, ev1) => (Raise e, st1, ev1)
  end.

Definition lift {A : Type} (r : result A) : M A := fun st => (r, st, []).

Definition gets {A : Type} (f : detector -> A) : M A :=
  fun st => (Ok (f st), st, []).

Definition set_history (hid : string) (h : list sample) : M unit :=
  fun st => (Ok tt, mk_detector (<[hid := h]> (_history st)) (_last_punch st), []).

Definition set_last_punch (hid : string) (t : R) : M unit :=
  fun st => (Ok tt, mk_detector (_history st) (<[hid := t]> (_last_punch st)), []).

(** [self.event_queue.put(e)] *)
Definition queue_put (e : event) : M unit := fun st => (Ok tt, st, [e]).

(** [deque.append] on a deque created with [maxlen]: the item goes to the
    right end, and the left end is dropped when the length exceeds
    [maxlen]. *)
Definition deque_append {A : Type} (maxlen : nat) (d : list A) (x : A)
    : list A :=
  let d' := d ++ [x] in
  if decide (maxlen < length d')%nat then tail d' else d'.

(** [h[-1]] *)
Definition getitem_last {A : Type} (l : list A) : result A :=
  match last l with
  | Some a => Ok a
  | None => Raise IndexError
  end.

Definition _hand_id (handedness : string) : string := lower handedness.

Definition _update_and_detect (self : config) (handedness : string)
    (landmarks : list landmark) (t : R) : M unit :=
  let hid := _hand_id handedness in
  hist ← gets _history;
  (if decide (is_Some (hist !! hid)) then mret tt else set_history hid []);;
  h ← gets (fun st => default [] (_history st !! hid));
  size ← lift (_hand_size landmarks);
  z ← lift (_avg_z landmarks);
  let h := deque_append (history_frames self) h (t, size, z) in
  set_history hid h;;
  fist ← lift (_is_fist landmarks);
  if negb fist then mret tt else
  last_punch ← gets _last_punch;
  if decide (t - default (-10) (last_punch !! hid) < cooldown_sec self)
  then mret tt else
  if decide (length h < 2)%nat then mret tt else
  '(t0, s0, z0) ← lift (getitem h 0);
  '(t1, s1, z1) ← lift (getitem_last h);
  let dt := t1 - t0 in
  if decide (dt <= 0) then mret tt else
  let size_velocity := (s1 - s0) / dt in
  let z_velocity := (z1 - z0) / dt in
  let toward_camera :=
    bool_decide (size_velocity > velocity_threshold self)
    || bool_decide (z_velocity < -0.35) in
  if toward_camera then
    q ← lift (py_div (Rabs size_velocity) (velocity_threshold self * 2));
    let strength := py_min2 1.0 q in
    set_last_punch hid t;;
    queue_put (punch hid strength)
  else mret tt.

Fixpoint process_hands (self : config) (hands_data : list hand)
    (timestamp : R) : M unit :=
  match hands_data with
  | [] => mret tt
  | h :: rest =>
      _update_and_detect self (handedness h) (landmarks h) timestamp;;
      process_hands self rest timestamp
  end.

(** The detector over a sequence of processed frames, as the loop of
    [run_cv_thread] drives it: one [process_hands] call per frame, and an
    exception ends the loop.  Each event put on the queue is listed with the
    timestamp of the frame that put it. *)
Fixpoint run_frames (self : config) (frames : list (list hand * R))
    (st : detector) : list (R * event) :=
  match frames with
  | [] => []
  | (hands_data, now) :: rest =>
      match process_hands self hands_data now st with
      | (Ok _, st', evs) => map (pair now) evs ++ run_frames self rest st'
      | (Raise _, _, evs) => map (pair now) evs
      end
  end.

(** ** Guard and dodge state *)

Definition BLOCK_Y_THRESHOLD : R := 0.50.
Definition BLOCK_MAX_WRIST_DISTANCE : R := 0.4.

(** The [state] dict of [_compute_hand_state]. *)
Record pose_state : Type := mk_pose {
  left_wrist : option (R * R);
  right_wrist : option (R * R);
  blocking : bool;
  dodging : option string
}.

(** One iteration of the loop that records the wrists; the pair is
    [(state["left_wrist"], state["right_wrist"])]. *)
Definition record_wrist (wrists : option (R * R) * option (R * R))
    (h : hand) : result (option (R * R) * option (R * R)) :=
  wrist ← getitem (landmarks h) WRIST;
  let handedness := lower (handedness h) in
  if decide (handedness = "left")
  then Ok (Some (lm0 wrist, lm1 wrist), wrists.2)
  else Ok (wrists.1, Some (lm0 wrist, lm1 wrist)).

Fixpoint record_wrists (wrists : option (R * R) * option (R * R))
    (hands_data : list hand) : result (option (R * R) * option (R * R)) :=
  match hands_data with
  | [] => Ok wrists
  | h :: rest => wrists' ← record_wrist wrists h; record_wrists wrists' rest
  end.

Definition _compute_hand_state (hands_data : list hand) : result pose_state :=
  wrists ← record_wrists (None, None) hands_data;
  match wrists with
  | (Some left_, Some right_) =>
      let both_high :=
        bool_decide (left_.2 < BLOCK_Y_THRESHOLD)
        && bool_decide (right_.2 < BLOCK_Y_THRESHOLD) in
      let wrist_dist := Rabs (left_.1 - right_.1) in
      let guard_pose := bool_decide (wrist_dist < BLOCK_MAX_WRIST_DISTANCE) in
      let avg_x := (left_.1 + right_.1) / 2 in
      Ok (mk_pose (Some left_) (Some right_) (both_high && guard_pose)
            (if decide (avg_x < 0.35) then Some "left"
             else if decide (avg_x > 0.65) then Some "right"
             else None))
  | (Some left_, None) =>
      Ok (mk_pose (Some left_) None false
            (if decide (left_.1 < 0.35) then Some "left"
             else if decide (left_.1 > 0.65) then Some "right" else None))
  | (None, Some right_) =>
      Ok (mk_pose None (Some right_) false
            (if decide (right_.1 < 0.35) then Some "left"
             else if decide (right_.1 > 0.65) then Some "right" else None))
  | (None, None) => Ok (mk_pose None None false None)
  end.

(** ** The frame loop *)

(** One processed frame of the loop of [run_cv_thread]: smoothing, punch
    detection, then the shared hand state. *)
Definition process_frame (self : config) (hands_data : list hand) (now : R)
    (prev_smoothed : gmap string (list landmark))
    : M (gmap string (list landmark) * pose_state) :=
  let smoothed := _smooth_landmarks hands_data prev_smoothed in
  process_hands self smoothed.1 now;;
  state ← lift (_compute_hand_state smoothed.1);
  mret (smoothed.2, state).

(** * The game objects the events and the pose state drive

    Shallow embedding of [game/constants.py], [game/player.py] and
    [game/opponent.py].  Times and hit points are reals as before. *)

(** The two-argument [max(a, b)]: [b] when [b > a], else [a]. *)
Definition py_max2 (a b : R) : R := if decide (b > a) then b else a.

(** ** [game/constants.py] *)

Definition PUNCH_LEFT : string := "left".
Definition PUNCH_RIGHT : string := "right".
Definition TELEGRAPH_DURATION : R := 0.4.
Definition VULNERABLE_DURATION : R := 1.0.
Definition BLOCK_COOLDOWN_AFTER_HIT : R := 0.7.
Definition PLAYER_MAX_HP : R := 12.
Definition OPPONENT_MAX_HP : R := 6.

(** ** [game/player.py] *)

Module Player.

(** The attributes of a [Player]. *)
Record t : Type := mk {
  hp : R;
  max_hp : R;
  dodging : option string;
  blocking : bool;
  invincibility_timer : R;
  invincibility_duration : R;
  block_cooldown_timer : R
}.

(** [Player()] *)
Definition init : t := mk PLAYER_MAX_HP PLAYER_MAX_HP None false 0.0 0.5 0.0.

Definition reset (self : t) : t :=
  mk (max_hp self) (max_hp self) None false 0.0
     (invincibility_duration self) 0.0.

(** [take_damage]: the returned flag and the player afterwards. *)
Definition take_damage (self : t) (amount : R) : bool * t :=
  if decide (invincibility_timer self > 0) then (false, self)
  else
    (true,
     mk (py_max2 0 (hp self - amount)) (max_hp self) (dodging self)
        (blocking self) (invincibility_duration self)
        (invincibility_duration self) (block_cooldown_timer self)).

Definition update (self : t) (dt : R) : t :=
  mk (hp self) (max_hp self) (dodging self) (blocking self)
     (py_max2 0 (invincibility_timer self - dt))
     (invincibility_duration self)
     (py_max2 0 (block_cooldown_timer self - dt)).

Definition is_alive (self : t) : bool := bool_decide (hp self > 0).

End Player.

(** ** [game/opponent.py] *)

Module Opponent.

(** The five values of [self.state]. *)
Inductive state_name : Type :=
| idle
| telegraph
| attacking
| vulnerable
| blocking.

#[global] Instance state_name_eq_dec : EqDecision state_name.
Proof. solve_decision. Defined.

(** The attributes of an [Opponent]. *)
Record t : Type := mk {
  hp : R;
  max_hp : R;
  state : state_name;
  state_timer : R;
  attack_side : option string;
  combo_index : nat;
  round : Z;
  hit_timer : R;
  invuln_timer : R;
  hit_anim_duration : R
}.

(** [_load_hit_anim_duration], on what reading the GIF gave: [None] when
    anything raised, else the frames' [duration] entries in milliseconds
    (100 where a frame has none). *)
Definition _load_hit_anim_duration (gif : option (list R)) : R :=
  match gif with
  | Some durations => py_max2 0.1 (fold_left Rplus durations 0 / 1000.0)
  | None => 0.6
  end.

(** [Opponent()] *)
Definition init (gif : option (list R)) : t :=
  mk OPPONENT_MAX_HP OPPONENT_MAX_HP idle 0.0 None 0 1 0.0 0.0
     (_load_hit_anim_duration gif).

Definition reset (self : t) (round_num : Z) (gif : option (list R)) : t :=
  mk (max_hp self) (max_hp self) idle 0.0 None 0 round_num 0.0 0.0
     (_load_hit_anim_duration gif).

Definition _telegraph_duration (self : t) : R :=
  py_max2 0.2 (TELEGRAPH_DURATION - IZR (round self - 1) * 0.05).

(** What the random generator returns during one [update]:
    [random.random()], the index [random.choice] picks in
    [[PUNCH_LEFT, PUNCH_RIGHT]], and the two [random.uniform] values. *)
Record draws : Type := mk_draws {
  random : R;
  choice_right : bool;
  uniform_block : R;
  uniform_idle : R
}.

Definition choice (d : draws) : string :=
  if choice_right d then PUNCH_RIGHT else PUNCH_LEFT.

Definition _choose_next_attack (self : t) (d : draws) : string :=
  let r := random d in
  if decide (r < 0.15) then "block"
  else if decide (combo_index self = 0%nat \/ combo_index self = 1%nat)
  then choice d
  else choice d.

(** The dict [{"side": ..., "damage": 1}]. *)
Record attack : Type := mk_attack {
  side : option string;
  damage : R
}.

Definition set_state (self : t) (s : state_name) (timer : R) : t :=
  mk (hp self) (max_hp self) s timer (attack_side self) (combo_index self)
     (round self) (hit_timer self) (invuln_timer self)
     (hit_anim_duration self).

(** [update]: the returned attack and the opponent afterwards. *)
Definition update (self : t) (dt : R) (d : draws) : option attack * t :=
  let self :=
    mk (hp self) (max_hp self) (state self) (state_timer self - dt)
       (attack_side self) (combo_index self) (round self)
       (py_max2 0 (hit_timer self - dt)) (py_max2 0 (invuln_timer self - dt))
       (hit_anim_duration self) in
  if decide (hit_timer self > 0) then (None, self)
  else
    match state self with
    | idle =>
        if decide (state_timer self <= 0) then
          let action := _choose_next_attack self d in
          if decide (action = "block")
          then (None, set_state self blocking (uniform_block d))
          else
            (None,
             mk (hp self) (max_hp self) telegraph (_telegraph_duration self)
                (Some action) (combo_index self) (round self)
                (hit_timer self) (invuln_timer self)
                (hit_anim_duration self))
        else (None, self)
    | telegraph =>
        if decide (state_timer self <= 0)
        then (Some (mk_attack (attack_side self) 1),
              set_state self attacking 0.15)
        else (None, self)
    | attacking =>
        if decide (state_timer self <= 0)
        then
          (None,
           mk (hp self) (max_hp self) vulnerable VULNERABLE_DURATION
              (attack_side self) ((combo_index self + 1) mod 3)
              (round self) (hit_timer self) (invuln_timer self)
              (hit_anim_duration self))
        else (None, self)
    | vulnerable =>
        if decide (state_timer self <= 0)
        then (None, set_state self idle (uniform_idle d))
        else (None, self)
    | blocking =>
        if decide (state_timer self <= 0)
        then (None, set_state self idle (uniform_idle d))
        else (None, self)
    end.

(** [take_damage]: the returned flag and the opponent afterwards. *)
Definition take_damage (self : t) (amount : R) : bool * t :=
  if decide (state self <> vulnerable \/ invuln_timer self > 0)
  then (false, self)
  else
    (true,
     mk (py_max2 0 (hp self - amount)) (max_hp self) (state self)
        (state_timer self) (attack_side self) (combo_index self)
        (round self) (hit_anim_duration self) (hit_anim_duration self)
        (hit_anim_duration self)).

Definition is_vulnerable (self : t) : bool :=
  bool_decide (state self = vulnerable).

Definition is_alive (self : t) : bool := bool_decide (hp self > 0).

End Opponent.

(** ** [main.py]: what the game loop does with the queue *)

Module Game.

Definition PUNCH_DAMAGE_BASE : R := 1.
Definition PUNCH_DAMAGE_STRENGTH_MULT : R := 0.0.

(** What the worker puts on the queue: the punch events of the detector,
    and [{"type": "error", "message": ...}] when the camera cannot be
    opened. *)
Inductive queue_item : Type :=
| item_punch (e : event)
| item_error (message : string).

(** The body of the loop that drains the queue, for one item; [fighting]
    is [game_state == FIGHTING], the pair is [(cv_error, opponent)]. *)
Definition on_item (fighting : bool)
    (acc : option string * Opponent.t) (ev : queue_item)
    : option string * Opponent.t :=
  let '(cv_error, opponent) := acc in
  match ev with
  | item_error message => (Some message, opponent)
  | item_punch (punch hand strength) =>
      if fighting then
        if Opponent.is_vulnerable opponent then
          let damage :=
            PUNCH_DAMAGE_BASE + strength * PUNCH_DAMAGE_STRENGTH_MULT * 10 in
          (cv_error, (Opponent.take_damage opponent damage).2)
        else (cv_error, opponent)
      else (cv_error, opponent)
  end.

(** The loop over everything that is on the queue at that moment. *)
Definition drain (fighting : bool) (items : list queue_item)
    (cv_error : option string) (opponent : Opponent.t)
    : option string * Opponent.t :=
  fold_left (on_item fighting) items (cv_error, opponent).


(** [dodged]: the player leans away from the side the punch comes from. *)
Definition dodged (side dodging : option string) : bool :=
  (bool_decide (side = Some PUNCH_LEFT)
   && bool_decide (dodging = Some "right"))
  || (bool_decide (side = Some PUNCH_RIGHT)
      && bool_decide (dodging = Some "left")).

(** What the loop does with the attack [opponent.update] returned. *)
Definition resolve_attack (player : Player.t)
    (attack : option Opponent.attack) : Player.t :=
  match attack with
  | Some a =>
      let side := Opponent.side a in
      let damage := Opponent.damage a in
      let dodged := dodged side (Player.dodging player) in
      let blocked := Player.blocking player in
      if negb dodged && negb blocked
      then (Player.take_damage player damage).2
      else if blocked
      then
        Player.mk (Player.hp player) (Player.max_hp player)
          (Player.dodging player) (Player.blocking player)
          (Player.invincibility_timer player)
          (Player.invincibility_duration player) BLOCK_COOLDOWN_AFTER_HIT
      else player
  | None => player
  end.

(** The branch [game_state == FIGHTING] up to the attack: both fighters
    updated, the attack resolved. *)
Definition fight_step (player : Player.t) (opponent : Opponent.t) (dt : R)
    (d : Opponent.draws) : Player.t * Opponent.t :=
  let player := Player.update player dt in
  let '(attack, opponent) := Opponent.update opponent dt d in
  (resolve_attack player attack, opponent).




End Game.

(** * Vocabulary of the statements *)

(** ** Guard and dodge state *)

(** The wrist [(x, y)] an observation contributes, when it has a wrist
    landmark. *)
Definition wrist_xy (h : hand) : option (R * R) :=
  (fun lm => (lm0 lm, lm1 lm)) <$> landmarks h !! WRIST.

Definition is_left (h : hand) : Prop := lower (handedness h) = "left".

(** The dodge direction for a horizontal position, in the words of the
    specification: below 0.35 is left, above 0.65 is right, else none. *)
Definition dodge_for (x : R) (d : option string) : Prop :=
  (x < 0.35 -> d = Some "left")
  /\ (x > 0.65 -> d = Some "right")
  /\ (0.35 <= x <= 0.65 -> d = None).

(** Left and right exchanged. *)
Definition mirror (d : option string) : option string :=
  match d with
  | Some s =>
      if decide (s = "left") then Some "right"
      else if decide (s = "right") then Some "left" else Some s
  | None => None
  end.

(** A frame with one observation labelled left and one labelled right. *)
Definition two_hands (lms_left lms_right : list landmark) : list hand :=
  [ mk_hand lms_left "Left"; mk_hand lms_right "Right" ].

(** ** Fist predicate *)

(** Squared planar distance between two landmarks. *)
Definition dist2 (a b : landmark) : R :=
  (lm0 a - lm0 b) ^ 2 + (lm1 a - lm1 b) ^ 2.

(** The landmark at an index of a list known to be long enough. *)
Definition at_index (landmarks : list landmark) (i : nat) : landmark :=
  nth i landmarks (0, 0, 0).

(** A finger is curled: tip no farther from the wrist than 1.3 times the
    PIP joint, in squared planar distance. *)
Definition curled (landmarks : list landmark) (tip pip : nat) : Prop :=
  dist2 (at_index landmarks tip) (at_index landmarks WRIST)
  <= 1.3 * dist2 (at_index landmarks pip) (at_index landmarks WRIST).

(** ** Landmark smoother *)

(** What the loop body of [_smooth_landmarks] appends to [result] for one
    observation. *)
Definition smooth_one (prev_smoothed : gmap string (list landmark))
    (hd : hand) : hand :=
  mk_hand
    (imap (smooth_point (prev_smoothed !! lower (handedness hd)))
       (landmarks hd))
    (handedness hd).

(** The lower-cased labels of a frame. *)
Definition labels (hands_data : list hand) : gset string :=
  list_to_set (map (fun hd => lower (handedness hd)) hands_data).

(** The smoothing state after [n] frames that all carry [hands_data],
    starting from [prev_smoothed], as the loop of [run_cv_thread] threads
    it. *)
Fixpoint state_after (n : nat) (hands_data : list hand)
    (prev_smoothed : gmap string (list landmark))
    : gmap string (list landmark) :=
  match n with
  | O => prev_smoothed
  | S n' =>
      (_smooth_landmarks hands_data
         (state_after n' hands_data prev_smoothed)).2
  end.

(** The smoothed observations of frame [n + 1]. *)
Definition output_at (n : nat) (hands_data : list hand)
    (prev_smoothed : gmap string (list landmark)) : list hand :=
  (_smooth_landmarks hands_data (state_after n hands_data prev_smoothed)).1.

(** Smoothed landmark [i] of observation [k] of frame [n + 1]. *)
Definition smoothed_in (n : nat) (hands_data : list hand)
    (prev_smoothed : gmap string (list landmark)) (k i : nat)
    : option landmark :=
  output_at n hands_data prev_smoothed !! k ≫= fun o => landmarks o !! i.

(** No two observations of the frame have the same lower-cased label. *)
Definition distinct_labels (hands_data : list hand) : Prop :=
  NoDup (map (fun hd => lower (handedness hd)) hands_data).

(** The room the statements on repeated smoothing leave for the rounding
    of the floating-point operations: relative to the magnitude of the
    values, and absolute below magnitude 1. *)
Definition rounding_tolerance : R := 1 / 10 ^ 12.

(** After [n] more frames the smoothed value [s] is as close to the raw
    value [raw] as [0.65 ^ n] times the gap of the first smoothed value
    [s0], up to the rounding tolerance. *)
Definition gap_shrunk (n : nat) (raw s0 s : R) : Prop :=
  Rabs (s - raw)
  <= 0.65 ^ n * Rabs (s0 - raw)
     + rounding_tolerance * Rmax 1 (Rmax (Rabs raw) (Rabs s0)).

(** The smoothed landmark list of frame [n + 1], written out. *)
Fixpoint smoothed_seq (n : nat) (hd : hand)
    (prev_smoothed : gmap string (list landmark)) : list landmark :=
  match n with
  | O =>
      imap (smooth_point (prev_smoothed !! lower (handedness hd)))
        (landmarks hd)
  | S n' =>
      imap (smooth_point (Some (smoothed_seq n' hd prev_smoothed)))
        (landmarks hd)
  end.

(** ** Punch detector *)

(** The detector with a new window for [hid]. *)
Definition with_window (st : detector) (hid : string) (h : list sample)
    : detector :=
  mk_detector (<[hid := h]> (_history st)) (_last_punch st).

(** The detector with a new window and a new last-punch time for [hid]. *)
Definition with_punch (st : detector) (hid : string) (h : list sample)
    (t : R) : detector :=
  mk_detector (<[hid := h]> (_history st)) (<[hid := t]> (_last_punch st)).

(** The window of [hid] before the frame: empty when the hand is new. *)
Definition window_of (st : detector) (hid : string) : list sample :=
  default [] (_history st !! hid).

(** The time of the last punch of [hid], -10 when there was none. *)
Definition last_punch_of (st : detector) (hid : string) : R :=
  default (-10) (_last_punch st !! hid).

(** The detector after the first statements of [_update_and_detect]: a new
    hand got an empty window. *)
Definition with_new_hand (st : detector) (hid : string) : detector :=
  if decide (is_Some (_history st !! hid)) then st
  else mk_detector (<[hid := []]> (_history st)) (_last_punch st).

(** In a list of time-stamped events, a later punch of a hand comes at
    least [cd] after every earlier punch of the same hand. *)
Definition separated (cd : R) (tr : list (R * event)) : Prop :=
  forall (i j : nat) (ti tj : R) (h : string) (si sj : R),
    (i < j)%nat ->
    tr !! i = Some (ti, punch h si) ->
    tr !! j = Some (tj, punch h sj) ->
    cd <= tj - ti.

(** What holds between the events put so far and the detector, at a time
    [now] no earlier than any frame processed: every punch put is no later
    than the last-punch entry of its hand, no entry is in the future, and
    the events are separated. *)
Record trace_inv (cd now : R) (st : detector) (tr : list (R * event))
    : Prop := mk_trace_inv {
  inv_logged : forall (ti : R) (h : string) (s : R),
    (ti, punch h s) ∈ tr ->
    exists L, _last_punch st !! h = Some L /\ ti <= L;
  inv_past : forall (h : string) (L : R),
    _last_punch st !! h = Some L -> L <= now;
  inv_separated : separated cd tr
}.

(** A hand moved by [(a, b, c)]. *)
Definition shift (a b c : R) (lm : landmark) : landmark :=
  (lm0 lm + a, lm1 lm + b, lm2 lm + c).

(** One of the three coordinates of a landmark. *)
Definition is_axis (ax : landmark -> R) : Prop :=
  ax = lm0 \/ ax = lm1 \/ ax = lm2.

(** Every landmark of the list has its [ax] coordinate between 0 and 1. *)
Definition unit_on (ax : landmark -> R) (lms : list landmark) : Prop :=
  forall lm, lm ∈ lms -> 0 <= ax lm <= 1.

(** Every window of the history holds at most [n] samples. *)
Definition windows_bounded (n : nat) (st : detector) : Prop :=
  forall (hid : string) (w : list sample),
    _history st !! hid = Some w -> (length w <= n)%nat.

(** The detector states a detector can be in: the fresh one, and the state
    any [process_hands] call leaves, whether it returned or raised. *)
Inductive reachable (self : config) : detector -> Prop :=
| reach_init : reachable self detector_init
| reach_frame (st st' : detector) (hands_data : list hand) (now : R)
    (r : result unit) (evs : list event) :
    reachable self st ->
    process_hands self hands_data now st = (r, st', evs) ->
    reachable self st'.

(** An event of the hand [hid] with a strength between 0 and 1. *)
Definition good_event (hid : string) (e : event) : Prop :=
  match e with
  | punch h s => h = hid /\ 0 <= s <= 1
  end.

(** The landmarks [_is_fist] reads: wrist, thumb tip, and PIP joint and tip
    of the four fingers. *)
Definition fist_indices : list nat :=
  [WRIST; THUMB_TIP; INDEX_PIP; INDEX_TIP; MIDDLE_PIP; MIDDLE_TIP;
   RING_PIP; RING_TIP; PINKY_PIP; PINKY_TIP].

(** What the game does to its player between two moments: the methods of
    the class, with a non-negative damage and a non-negative elapsed time,
    and the main loop's writes to [dodging], [blocking] and
    [block_cooldown_timer]. *)
Inductive player_step : Player.t -> Player.t -> Prop :=
| player_reset (p : Player.t) : player_step p (Player.reset p)
| player_damage (p : Player.t) (amount : R) :
    0 <= amount -> player_step p (Player.take_damage p amount).2
| player_update (p : Player.t) (dt : R) :
    0 <= dt -> player_step p (Player.update p dt)
| player_write (p : Player.t) (d : option string) (b : bool) (c : R) :
    player_step p
      (Player.mk (Player.hp p) (Player.max_hp p) d b
         (Player.invincibility_timer p) (Player.invincibility_duration p) c).

(** The players reachable from [Player()]. *)
Definition player_reachable : Player.t -> Prop := rtc player_step Player.init.

(** [update] called for each elapsed time in turn. *)
Definition player_updates (p : Player.t) (dts : list R) : Player.t :=
  fold_left Player.update dts p.

(** What the game does to its opponent between two moments: [update] with
    a non-negative elapsed time and any random draws, [take_damage] with a
    non-negative amount, [reset]. *)
Inductive opponent_step : Opponent.t -> Opponent.t -> Prop :=
| opponent_update (o : Opponent.t) (dt : R) (d : Opponent.draws) :
    0 <= dt -> opponent_step o (Opponent.update o dt d).2
| opponent_damage (o : Opponent.t) (amount : R) :
    0 <= amount -> opponent_step o (Opponent.take_damage o amount).2
| opponent_reset (o : Opponent.t) (round_num : Z) (gif : option (list R)) :
    opponent_step o (Opponent.reset o round_num gif).

(** The opponents reachable from [Opponent()]. *)
Definition opponent_reachable (o : Opponent.t) : Prop :=
  exists gif, rtc opponent_step (Opponent.init gif) o.

(** An attack side that is one of the two punches. *)
Definition side_ok (s : option string) : Prop :=
  s = Some PUNCH_LEFT \/ s = Some PUNCH_RIGHT.

(** What [opponent_reachable] opponents satisfy. *)
Record opponent_inv (o : Opponent.t) : Prop := mk_opponent_inv {
  inv_hp : 0 <= Opponent.hp o <= Opponent.max_hp o;
  inv_max_hp : Opponent.max_hp o = 6;
  inv_combo : (Opponent.combo_index o < 3)%nat;
  inv_timers : Opponent.invuln_timer o = Opponent.hit_timer o;
  inv_hit_timer : 0 <= Opponent.hit_timer o;
  inv_anim : 0.1 <= Opponent.hit_anim_duration o;
  inv_side :
    Opponent.state o = Opponent.telegraph
    \/ Opponent.state o = Opponent.attacking ->
    side_ok (Opponent.attack_side o)
}.

(** The order of the states: where [update] may go from a state. *)
Definition may_follow (s s' : Opponent.state_name) : Prop :=
  match s with
  | Opponent.idle => s' = Opponent.telegraph \/ s' = Opponent.blocking
  | Opponent.telegraph => s' = Opponent.attacking
  | Opponent.attacking => s' = Opponent.vulnerable
  | Opponent.vulnerable => s' = Opponent.idle
  | Opponent.blocking => s' = Opponent.idle
  end.


(** Whether a punch event is among the items. *)
Definition has_punch (items : list Game.queue_item) : bool :=
  existsb (fun i => match i with
                    | Game.item_punch _ => true
                    | Game.item_error _ => false
                    end) items.

(** The messages of the error items, in their order. *)
Definition errors (items : list Game.queue_item) : list string :=
  omap (fun i => match i with
                 | Game.item_punch _ => None
                 | Game.item_error message => Some message
                 end) items.

(** * Inputs to compute with *)

Definition demo_frame : list hand :=
  [ mk_hand [(0.10, 0.20, 0)] "Left";
    mk_hand [(0.30, 0.40, 0)] "Thumb";
    mk_hand [(0.50, 0.60, 0)] "LEFT";
    mk_hand [(0.70, 0.80, 0)] "Right" ].

(** A frame with two observations labelled left: a hand at the origin and
    a hand at [(1, 1, 1)]. *)
Definition twice_left : list hand :=
  [ mk_hand [(0, 0, 0)] "Left"; mk_hand [(1, 1, 1)] "Left" ].

(** 21 landmarks at the origin, the thumb tip moved to [(k, 0, 0)]: every
    finger tip is on the wrist, the hand spans [k]. *)
Definition fist_pose (k : R) : list landmark :=
  <[THUMB_TIP := (k, 0, 0)]> (replicate 21 (0, 0, 0)).

(** The detector of [run_cv_thread]. *)
Definition game_detector : config := PunchDetector 0.07 200 5.

(** The same detector built with [velocity_threshold=0]. *)
Definition zero_threshold_detector : config := PunchDetector 0 200 5.

Definition sample_A : sample := (1.0, 0.10, 0).
Definition sample_B : sample := (1.1, 0.25, 0).
Definition sample_C : sample := (1.15, 0.40, 0).
Definition sample_D : sample := (1.35, 0.55, 0).

(** The detector state after a smaller left fist was seen at time 1.0. *)
Definition seen_once : detector :=
  mk_detector {["left" := [(1.0, 0.10, 0)]]} ∅.

Definition punched_once : detector :=
  with_punch seen_once "left" [sample_A; sample_B] 1.1.

Definition cooling : detector :=
  with_window punched_once "left" [sample_A; sample_B; sample_C].

Definition punched_twice : detector :=
  with_punch cooling "left" [sample_A; sample_B; sample_C; sample_D] 1.35.

Definition demo_frames : list (list hand * R) :=
  [ ([mk_hand (fist_pose 0.10) "Left"], 1.0);
    ([mk_hand (fist_pose 0.25) "Left"], 1.1);
    ([mk_hand (fist_pose 0.40) "Left"], 1.15);
    ([mk_hand (fist_pose 0.55) "Left"], 1.35) ].

(** Draws that pick a right punch. *)
Definition right_punch_draws : Opponent.draws :=
  Opponent.mk_draws 0.5 true 0.7 0.3.

(** The opponent after its first 0.1 s: telegraphing a right punch. *)
Definition telegraphing_opponent : Opponent.t :=
  Opponent.mk 6 6 Opponent.telegraph 0.4 (Some "right") 0 1 0 0 0.6.

(** An opponent that can be hit. *)
Definition open_opponent : Opponent.t :=
  Opponent.mk 6 6 Opponent.vulnerable 1.0 (Some "right") 1 1 0 0 0.6.

(** The opponent while its right punch is out. *)
Definition attacking_opponent : Opponent.t :=
  Opponent.mk 6 6 Opponent.attacking 0.15 (Some "right") 0 1 0 0 0.6.



(** * Tactics *)

Arguments smooth_point : simpl never.

(** Case analysis on the comparisons of a goal, closing what linear
    arithmetic closes. *)
Ltac cases_R :=
  repeat first [ case_decide | case_bool_decide ];
  simpl in *; try reflexivity; try congruence; try lra.

Ltac unfold_M :=
  unfold _update_and_detect, _hand_id, lift, gets, set_history,
    set_last_punch, queue_put, mbind, mret, M_bind, M_ret;
  cbv beta iota.

Ltac game_constants :=
  change (lower "Left") with "left";
  change (velocity_threshold game_detector) with 0.07;
  change (cooldown_sec game_detector) with (200 / 1000.0);
  change (history_frames game_detector) with 5%nat.

Ltac opponent_fields :=
  cbv zeta;
  cbn [Opponent.hit_timer Opponent.invuln_timer Opponent.state
       Opponent.state_timer Opponent.hp Opponent.max_hp
       Opponent.attack_side Opponent.combo_index Opponent.round
       Opponent.hit_anim_duration].

(** * Proofs *)

(** ** Guard and dodge state *)

Lemma record_wrist_ok (wrists : option (R * R) * option (R * R)) (h : hand)
    (w : R * R) :
  wrist_xy h = Some w ->
  record_wrist wrists h =
    Ok (if decide (is_left h) then (Some w, wrists.2) else (wrists.1, Some w)).
Proof.
  unfold wrist_xy, record_wrist, getitem, is_left. intros Hw.
  destruct (landmarks h !! WRIST) as [lm|]; simpl in *; [|discriminate].
  injection Hw as <-. by destruct (decide _).
Qed.

Lemma record_wrists_app (wrists : option (R * R) * option (R * R))
    (l1 l2 : list hand) :
  record_wrists wrists (l1 ++ l2) =
    (record_wrists wrists l1 ≫= fun w => record_wrists w l2).
Proof.
  revert wrists. induction l1 as [|h l1 IH]; intros wrists; simpl; [done|].
  destruct (record_wrist wrists h) as [w|e]; simpl; [apply IH|done].
Qed.

Lemma record_wrists_total (hands_data : list hand)
    (wrists : option (R * R) * option (R * R)) :
  Forall (fun h => landmarks h <> []) hands_data ->
  exists w, record_wrists wrists hands_data = Ok w.
Proof.
  intros Hall. revert wrists.
  induction Hall as [|h rest Hh _ IH]; intros wrists; simpl; [by eexists|].
  destruct (landmarks h) as [|lm lms] eqn:Hl; [done|].
  rewrite (record_wrist_ok wrists h (lm0 lm, lm1 lm)).
  - simpl. apply IH.
  - unfold wrist_xy. by rewrite Hl.
Qed.

Lemma record_wrists_raises (hands_data : list hand) (h : hand)
    (rest : list hand) (wrists : option (R * R) * option (R * R)) :
  landmarks h = [] ->
  Forall (fun h => landmarks h <> []) hands_data ->
  record_wrists wrists (hands_data ++ h :: rest) = Raise IndexError.
Proof.
  intros Hh Hall. rewrite record_wrists_app.
  destruct (record_wrists_total hands_data wrists Hall) as [w ->]. simpl.
  unfold record_wrist, getitem. by rewrite Hh.
Qed.

(** What the loop leaves in the two slots: the wrist of the last
    observation labelled left, and of the last observation labelled
    otherwise, on top of what was there. *)
Lemma record_wrists_last (hands_data : list hand)
    (wrists w : option (R * R) * option (R * R)) :
  record_wrists wrists hands_data = Ok w ->
  w.1 = match last (filter is_left hands_data) with
        | Some h => wrist_xy h
        | None => wrists.1
        end
  /\ w.2 = match last (filter (fun h => ~ is_left h) hands_data) with
           | Some h => wrist_xy h
           | None => wrists.2
           end.
Proof.
  revert wrists w. induction hands_data as [|h rest IH] using rev_ind.
  - simpl. intros wrists w [= <-]. done.
  - intros wrists w. rewrite record_wrists_app, !filter_app.
    destruct (record_wrists wrists rest) as [w1|e] eqn:Hrest; simpl; [|done].
    destruct (IH _ _ Hrest) as [IH1 IH2].
    unfold record_wrist, getitem.
    destruct (landmarks h !! WRIST) as [lm|] eqn:Hlm; simpl; [|done].
    rewrite !filter_cons, !filter_nil.
    fold (is_left h).
    destruct (decide (is_left h)) as [Hl|Hl]; intros [= <-]; simpl.
    + rewrite decide_False by tauto. rewrite last_snoc, app_nil_r.
      unfold wrist_xy. rewrite Hlm. done.
    + rewrite decide_True by done. rewrite last_snoc, app_nil_r.
      unfold wrist_xy. rewrite Hlm. done.
Qed.

(** C10: in [_compute_hand_state], on a frame whose observations all have
    a wrist landmark, the left slot holds the wrist of the last observation
    whose lower-cased label is exactly ["left"] (none if there is no such
    observation), and the right slot holds the wrist of the last observation
    with any other label: every label other than ["left"] goes to the right
    wrist, and a later observation overwrites an earlier one of the same
    slot. *)
Theorem compute_hand_state_slots (hands_data : list hand) :
  Forall (fun h => landmarks h <> []) hands_data ->
  exists st,
    _compute_hand_state hands_data = Ok st
    /\ left_wrist st = last (filter is_left hands_data) ≫= wrist_xy
    /\ right_wrist st =
         last (filter (fun h => ~ is_left h) hands_data) ≫= wrist_xy.
Proof.
  intros Hall. unfold _compute_hand_state.
  destruct (record_wrists_total hands_data (None, None) Hall) as [w Hw].
  rewrite Hw. simpl.
  destruct (record_wrists_last _ _ _ Hw) as [H1 H2]. simpl in H1, H2.
  assert (Hl : w.1 = last (filter is_left hands_data) ≫= wrist_xy)
    by (rewrite H1; by destruct (last _)).
  assert (Hr : w.2 =
    last (filter (fun h => ~ is_left h) hands_data) ≫= wrist_xy)
    by (rewrite H2; by destruct (last _)).
  rewrite <- Hl, <- Hr.
  destruct w as [[l|] [r|]]; eexists; (split; [reflexivity|done]).
Qed.

(** The slots of a frame labelled Left, Thumb, LEFT, Right. *)
Lemma compute_hand_state_slots_witness :
  exists st,
    _compute_hand_state demo_frame = Ok st
    /\ left_wrist st = last (filter is_left demo_frame) ≫= wrist_xy
    /\ right_wrist st =
         last (filter (fun h => ~ is_left h) demo_frame) ≫= wrist_xy.
Proof.
  apply (compute_hand_state_slots demo_frame).
  unfold demo_frame. repeat constructor; simpl; discriminate.
Defined.

(** The same frame evaluated: the unexpected label ["Thumb"] went to the
    right slot and was then overwritten by ["Right"]; ["LEFT"] overwrote
    ["Left"]. *)
Example compute_hand_state_demo :
  _compute_hand_state demo_frame =
    Ok (mk_pose (Some (0.50, 0.60)) (Some (0.70, 0.80)) false None).
Proof.
  unfold _compute_hand_state, demo_frame. simpl.
  unfold BLOCK_Y_THRESHOLD, BLOCK_MAX_WRIST_DISTANCE, lm0, lm1. simpl.
  do 2 f_equal; cases_R.
Qed.

(** C6: on a frame whose observations all have a wrist landmark,
    [_compute_hand_state] returns a state whose left wrist is the wrist of
    the frame's last observation labelled left and whose right wrist is
    the wrist of its last observation labelled otherwise, and such that:
    with both wrists recorded, [blocking] holds iff both wrist y are below
    0.50 and the x differ by less than 0.4 in absolute value, and
    [dodging] is the direction of the average of the two x; with exactly
    one wrist recorded, [blocking] is false and [dodging] is the direction
    of that wrist's x; with none, [blocking] is false and [dodging] is
    none. *)
Theorem compute_hand_state_spec (hands_data : list hand) :
  Forall (fun h => landmarks h <> []) hands_data ->
  let left_ := last (filter is_left hands_data) ≫= wrist_xy in
  let right_ := last (filter (fun h => ~ is_left h) hands_data) ≫= wrist_xy in
  exists st,
    _compute_hand_state hands_data = Ok st
    /\ left_wrist st = left_
    /\ right_wrist st = right_
    /\ match left_, right_ with
       | Some (xl, yl), Some (xr, yr) =>
           (blocking st = true <->
              yl < 0.50 /\ yr < 0.50 /\ Rabs (xl - xr) < 0.4)
           /\ dodge_for ((xl + xr) / 2) (dodging st)
       | Some (x, _), None | None, Some (x, _) =>
           blocking st = false /\ dodge_for x (dodging st)
       | None, None => blocking st = false /\ dodging st = None
       end.
Proof.
  intros Hall. cbv zeta. unfold _compute_hand_state.
  destruct (record_wrists_total hands_data (None, None) Hall) as [w Hw].
  rewrite Hw.
  destruct (record_wrists_last _ _ _ Hw) as [H1 H2]. cbn [fst snd] in H1, H2.
  assert (Hl : last (filter is_left hands_data) ≫= wrist_xy = w.1)
    by (rewrite H1; by destruct (last _)).
  assert (Hr : last (filter (fun h => ~ is_left h) hands_data) ≫= wrist_xy
               = w.2)
    by (rewrite H2; by destruct (last _)).
  rewrite Hl, Hr. clear Hw H1 H2 Hl Hr.
  simpl. unfold dodge_for, BLOCK_Y_THRESHOLD, BLOCK_MAX_WRIST_DISTANCE.
  destruct w as [[[xl yl]|] [[xr yr]|]]; eexists; (split; [reflexivity|]);
    simpl; (split; [reflexivity|]); (split; [reflexivity|]).
  - split.
    + rewrite !andb_true_iff, !bool_decide_eq_true. tauto.
    + repeat split; intros; cases_R.
  - split; [done|]. repeat split; intros; cases_R.
  - split; [done|]. repeat split; intros; cases_R.
  - done.
Qed.

(** The guard pose: the left wrist at (0.45, 0.3), the right wrist at
    (0.5, 0.3). *)
Lemma compute_hand_state_spec_witness :
  exists st,
    _compute_hand_state (two_hands [(0.45, 0.3, 0)] [(0.5, 0.3, 0)]) = Ok st
    /\ left_wrist st
       = last (filter is_left (two_hands [(0.45, 0.3, 0)] [(0.5, 0.3, 0)]))
           ≫= wrist_xy
    /\ right_wrist st
       = last (filter (fun h => ~ is_left h)
                 (two_hands [(0.45, 0.3, 0)] [(0.5, 0.3, 0)]))
           ≫= wrist_xy
    /\ match
         last (filter is_left (two_hands [(0.45, 0.3, 0)] [(0.5, 0.3, 0)]))
           ≫= wrist_xy,
         last (filter (fun h => ~ is_left h)
                 (two_hands [(0.45, 0.3, 0)] [(0.5, 0.3, 0)]))
           ≫= wrist_xy
       with
       | Some (xl, yl), Some (xr, yr) =>
           (blocking st = true <->
              yl < 0.50 /\ yr < 0.50 /\ Rabs (xl - xr) < 0.4)
           /\ dodge_for ((xl + xr) / 2) (dodging st)
       | Some (x, _), None | None, Some (x, _) =>
           blocking st = false /\ dodge_for x (dodging st)
       | None, None => blocking st = false /\ dodging st = None
       end.
Proof.
  apply (compute_hand_state_spec (two_hands [(0.45, 0.3, 0)] [(0.5, 0.3, 0)])).
  unfold two_hands. repeat constructor; simpl; discriminate.
Defined.

(** Both wrists are recorded exactly when the frame has an observation
    labelled left and one labelled otherwise. *)
Lemma both_recorded (hands_data : list hand) (st : pose_state) :
  _compute_hand_state hands_data = Ok st ->
  (is_Some (left_wrist st) <-> Exists is_left hands_data)
  /\ (is_Some (right_wrist st) <-> Exists (fun h => ~ is_left h) hands_data).
Proof.
  unfold _compute_hand_state.
  destruct (record_wrists (None, None) hands_data) as [w|e] eqn:Hw;
    simpl; [|done].
  intros Hst.
  assert (left_wrist st = w.1 /\ right_wrist st = w.2) as [-> ->].
  { destruct w as [[l|] [r|]]; injection Hst as <-; done. }
  clear Hst. revert w Hw.
  induction hands_data as [|h rest IH] using rev_ind; intros w.
  - simpl. intros [= <-]. simpl. rewrite !Exists_nil.
    split; (split; [by intros []|done]).
  - rewrite record_wrists_app.
    destruct (record_wrists (None, None) rest) as [w1|e] eqn:Hrest;
      simpl; [|done].
    destruct (IH _ eq_refl) as [IH1 IH2].
    unfold record_wrist, getitem.
    destruct (landmarks h !! WRIST) as [lm|]; simpl; [|done].
    fold (is_left h). rewrite !Exists_app, !Exists_cons, !Exists_nil.
    destruct (decide (is_left h)); intros [= <-]; simpl;
      rewrite ?IH1, ?IH2; split; split; eauto; tauto.
Qed.

Lemma two_hands_state (wl wr : landmark) (rl rr : list landmark) :
  _compute_hand_state (two_hands (wl :: rl) (wr :: rr)) =
    Ok (mk_pose (Some (lm0 wl, lm1 wl)) (Some (lm0 wr, lm1 wr))
          (bool_decide (lm1 wl < BLOCK_Y_THRESHOLD)
           && bool_decide (lm1 wr < BLOCK_Y_THRESHOLD)
           && bool_decide (Rabs (lm0 wl - lm0 wr) < BLOCK_MAX_WRIST_DISTANCE))
          (if decide ((lm0 wl + lm0 wr) / 2 < 0.35) then Some "left"
           else if decide ((lm0 wl + lm0 wr) / 2 > 0.65) then Some "right"
           else None)).
Proof. reflexivity. Qed.

(** C7, counterexample: the left wrist at x = 0.1 and the right wrist at
    x = 0.2 give the dodge direction ["left"]; with the coordinates exchanged
    between the two labels the direction is ["left"] again, not the mirrored
    ["right"], and so it is when the two observations are merely listed in
    the other order. *)
Lemma swap_does_not_mirror :
  exists st st' st'',
    _compute_hand_state (two_hands [(0.1, 0.3, 0)] [(0.2, 0.3, 0)]) = Ok st
    /\ _compute_hand_state (two_hands [(0.2, 0.3, 0)] [(0.1, 0.3, 0)]) = Ok st'
    /\ _compute_hand_state
         (reverse (two_hands [(0.1, 0.3, 0)] [(0.2, 0.3, 0)])) = Ok st''
    /\ dodging st = Some "left"
    /\ dodging st' = Some "left"
    /\ dodging st'' = Some "left"
    /\ dodging st' <> mirror (dodging st)
    /\ dodging st'' <> mirror (dodging st).
Proof.
  do 3 eexists. rewrite !two_hands_state.
  do 3 (split; [reflexivity|]).
  unfold lm0, lm1. simpl.
  assert (H1 : (0.1 + 0.2) / 2 < 0.35) by lra.
  assert (H2 : (0.2 + 0.1) / 2 < 0.35) by lra.
  rewrite (decide_True _ _ H1), (decide_True _ _ H2). simpl.
  repeat split; try done.
Qed.

(** C7, as amended: exchanging the wrist landmarks between the observation
    labelled left and the one labelled right exchanges the two recorded
    wrists and leaves both the dodge direction and the blocking flag
    unchanged. *)
Theorem swap_keeps_state (lms_left lms_right : list landmark) :
  lms_left <> [] -> lms_right <> [] ->
  exists st st',
    _compute_hand_state (two_hands lms_left lms_right) = Ok st
    /\ _compute_hand_state (two_hands lms_right lms_left) = Ok st'
    /\ left_wrist st' = right_wrist st
    /\ right_wrist st' = left_wrist st
    /\ dodging st' = dodging st
    /\ blocking st' = blocking st.
Proof.
  destruct lms_left as [|wl rl]; [done|].
  destruct lms_right as [|wr rr]; [done|]. intros _ _.
  do 2 eexists. rewrite !two_hands_state.
  do 2 (split; [reflexivity|]). simpl.
  do 2 (split; [reflexivity|]).
  rewrite (Rplus_comm (lm0 wr) (lm0 wl)), (Rabs_minus_sym (lm0 wr) (lm0 wl)).
  split; [reflexivity|].
  by destruct (bool_decide (lm1 wl < _)), (bool_decide (lm1 wr < _)).
Qed.

(** The two wrists of the counterexample, exchanged. *)
Lemma swap_keeps_state_witness :
  exists st st',
    _compute_hand_state (two_hands [(0.1, 0.3, 0)] [(0.2, 0.3, 0)]) = Ok st
    /\ _compute_hand_state (two_hands [(0.2, 0.3, 0)] [(0.1, 0.3, 0)]) = Ok st'
    /\ left_wrist st' = right_wrist st
    /\ right_wrist st' = left_wrist st
    /\ dodging st' = dodging st
    /\ blocking st' = blocking st.
Proof.
  apply (swap_keeps_state [(0.1, 0.3, 0)] [(0.2, 0.3, 0)]); discriminate.
Defined.

(** The direction is mirrored when the scene is: each wrist x reflected to
    [1 - x] along with the exchange of the labels. *)
Lemma reflect_mirrors_dodge (xl yl zl xr yr zr : R) (rl rr : list landmark) :
  exists st st',
    _compute_hand_state (two_hands ((xl, yl, zl) :: rl) ((xr, yr, zr) :: rr))
      = Ok st
    /\ _compute_hand_state
         (two_hands ((1 - xr, yr, zr) :: rr) ((1 - xl, yl, zl) :: rl))
       = Ok st'
    /\ dodging st' = mirror (dodging st)
    /\ blocking st' = blocking st.
Proof.
  do 2 eexists. rewrite !two_hands_state.
  do 2 (split; [reflexivity|]). unfold lm0, lm1. simpl.
  replace (1 - xr - (1 - xl)) with (xl - xr) by lra.
  split.
  - cases_R.
  - by destruct (bool_decide (yl < _)), (bool_decide (yr < _)).
Qed.

(** Both wrists at y = 0.3 and 0.05 apart around the middle: blocking, no
    dodge. *)
Example guard_pose_demo :
  _compute_hand_state (two_hands [(0.45, 0.3, 0)] [(0.5, 0.3, 0)]) =
    Ok (mk_pose (Some (0.45, 0.3)) (Some (0.5, 0.3)) true None).
Proof.
  rewrite two_hands_state.
  unfold lm0, lm1, BLOCK_Y_THRESHOLD, BLOCK_MAX_WRIST_DISTANCE. simpl.
  rewrite !bool_decide_eq_true_2 by (try rewrite Rabs_left; lra).
  rewrite !decide_False by lra. reflexivity.
Qed.

(** ** Fist predicate *)

Lemma getitem_nth {A : Type} (l : list A) (i : nat) (d : A) :
  (i < length l)%nat -> getitem l i = Ok (nth i l d).
Proof.
  intros Hi. unfold getitem.
  destruct (lookup_lt_is_Some_2 l i Hi) as [a Ha]. rewrite Ha.
  by rewrite (nth_lookup_Some _ _ d _ Ha).
Qed.

Lemma getitem_short {A : Type} (l : list A) (i : nat) :
  (length l <= i)%nat -> getitem l i = Raise IndexError.
Proof.
  intros Hi. unfold getitem. by rewrite (lookup_ge_None_2 l i Hi).
Qed.

Lemma getitem_cases {A : Type} (l : list A) (i : nat) :
  getitem l i = Raise IndexError \/ exists a, getitem l i = Ok a.
Proof. unfold getitem. destruct (l !! i); eauto. Qed.

Lemma tip_closer_than_pip_true (wrist tip pip : landmark) :
  tip_closer_than_pip wrist tip pip = true <->
  dist2 tip wrist <= 1.3 * dist2 pip wrist.
Proof.
  unfold tip_closer_than_pip, dist2. rewrite bool_decide_eq_true.
  split; intros; lra.
Qed.

(** With fewer than 21 landmarks some index of the [try] block is out of
    range. *)
Lemma is_fist_try_short (landmarks : list landmark) :
  (length landmarks < 21)%nat -> is_fist_try landmarks = Raise IndexError.
Proof.
  intros Hlen. unfold is_fist_try.
  repeat match goal with
  | |- context [getitem landmarks PINKY_TIP] =>
      rewrite (getitem_short landmarks PINKY_TIP)
        by (unfold PINKY_TIP; lia)
  | |- (getitem landmarks ?i ≫= _) = _ =>
      destruct (getitem_cases landmarks i) as [-> | [? ->]];
      [reflexivity | cbn [mbind result_bind]]
  end.
  reflexivity.
Qed.

Lemma is_fist_try_long (landmarks : list landmark) :
  (21 <= length landmarks)%nat ->
  is_fist_try landmarks =
    Ok (if decide (sqrt (dist2 (at_index landmarks THUMB_TIP)
                               (at_index landmarks PINKY_TIP)) < 0.05)
        then false
        else tip_closer_than_pip (at_index landmarks WRIST)
               (at_index landmarks INDEX_TIP) (at_index landmarks INDEX_PIP)
             && tip_closer_than_pip (at_index landmarks WRIST)
                  (at_index landmarks MIDDLE_TIP)
                  (at_index landmarks MIDDLE_PIP)
             && tip_closer_than_pip (at_index landmarks WRIST)
                  (at_index landmarks RING_TIP) (at_index landmarks RING_PIP)
             && tip_closer_than_pip (at_index landmarks WRIST)
                  (at_index landmarks PINKY_TIP)
                  (at_index landmarks PINKY_PIP)).
Proof.
  intros Hlen. unfold is_fist_try.
  rewrite !(getitem_nth landmarks _ (0, 0, 0))
    by (unfold THUMB_TIP, THUMB_MCP, INDEX_TIP, INDEX_PIP, MIDDLE_TIP,
          MIDDLE_PIP, RING_TIP, RING_PIP, PINKY_TIP, PINKY_PIP, WRIST; lia).
  cbn [mbind result_bind]. fold (at_index landmarks).
  unfold dist2. by destruct (decide _).
Qed.

(** C3: [_is_fist] always returns.  On fewer than 21 landmarks (an index of
    the predicate is missing) it returns false.  On at least 21 landmarks it
    returns false when the planar distance between thumb tip (4) and pinky
    tip (20) is below 0.05, and otherwise returns true iff each of the index,
    middle, ring and pinky fingers is curled. *)
Theorem is_fist_spec (landmarks : list landmark) :
  exists b,
    _is_fist landmarks = Ok b
    /\ ((length landmarks < 21)%nat -> b = false)
    /\ ((21 <= length landmarks)%nat ->
        let hand_span :=
          sqrt (dist2 (at_index landmarks THUMB_TIP)
                      (at_index landmarks PINKY_TIP)) in
        (hand_span < 0.05 -> b = false)
        /\ (~ hand_span < 0.05 ->
            (b = true <->
               curled landmarks INDEX_TIP INDEX_PIP
               /\ curled landmarks MIDDLE_TIP MIDDLE_PIP
               /\ curled landmarks RING_TIP RING_PIP
               /\ curled landmarks PINKY_TIP PINKY_PIP))).
Proof.
  unfold _is_fist.
  destruct (decide (length landmarks < 21)%nat) as [Hs|Hl].
  - rewrite (is_fist_try_short _ Hs). exists false.
    split; [done|]. split; [done|]. intros Hge. lia.
  - rewrite (is_fist_try_long landmarks) by lia.
    eexists. split; [reflexivity|]. split; [lia|]. intros _. cbv zeta.
    split; intros Hspan.
    + by rewrite decide_True.
    + rewrite decide_False by done.
      rewrite !andb_true_iff, !tip_closer_than_pip_true.
      unfold curled. tauto.
Qed.

(** ** Landmark smoother *)

Lemma smooth_fold (prev_smoothed : gmap string (list landmark))
    (hands_data : list hand) (acc : smooth_acc) :
  let acc' := fold_left (smooth_hand prev_smoothed) hands_data acc in
  acc_result acc' = acc_result acc ++ map (smooth_one prev_smoothed) hands_data
  /\ acc_seen acc' = acc_seen acc ∪ labels hands_data
  /\ dom (acc_new_prev acc') = dom (acc_new_prev acc) ∪ labels hands_data.
Proof.
  revert acc. unfold labels.
  induction hands_data as [|hd rest IH]; intros acc; simpl.
  - rewrite app_nil_r. set_solver.
  - destruct (IH (smooth_hand prev_smoothed acc hd)) as (IH1 & IH2 & IH3).
    simpl in IH1, IH2, IH3. rewrite IH1, IH2, IH3. simpl.
    rewrite <- app_assoc, dom_insert_L. simpl.
    split; [reflexivity|]. set_solver.
Qed.

Lemma smooth_fold_lookup (prev_smoothed : gmap string (list landmark))
    (hands_data : list hand) (hd : hand) (acc : smooth_acc) :
  acc_new_prev
    (fold_left (smooth_hand prev_smoothed) (hands_data ++ [hd]) acc)
    !! lower (handedness hd)
  = Some (landmarks (smooth_one prev_smoothed hd)).
Proof.
  rewrite fold_left_app. simpl. apply lookup_insert_eq.
Qed.

(** [_smooth_landmarks] in closed form: the output list is the input list
    mapped, and the filter at the end keeps every entry of [new_prev]. *)
Lemma smooth_landmarks_eq (hands_data : list hand)
    (prev_smoothed : gmap string (list landmark)) :
  _smooth_landmarks hands_data prev_smoothed =
    (map (smooth_one prev_smoothed) hands_data,
     acc_new_prev
       (fold_left (smooth_hand prev_smoothed) hands_data (mk_acc [] ∅ ∅))).
Proof.
  unfold _smooth_landmarks.
  destruct (smooth_fold prev_smoothed hands_data (mk_acc [] ∅ ∅))
    as (H1 & H2 & H3).
  simpl in H1, H2, H3. rewrite H1. f_equal.
  apply map_filter_id. intros k v Hk. simpl.
  rewrite H2. rewrite dom_empty_L in H3. rewrite <- H3.
  apply elem_of_dom. eauto.
Qed.

Lemma imap_raw {A : Type} (f : nat -> A -> A) (l : list A) :
  (forall i x, f i x = x) -> imap f l = l.
Proof.
  revert f. induction l as [|x l IH]; intros f Hf; simpl; [done|].
  rewrite Hf. f_equal. apply IH. intros i y. apply Hf.
Qed.

Lemma smooth_point_None (i : nat) (lm : landmark) :
  smooth_point None i lm = lm.
Proof. by destruct lm as [[x y] z]. Qed.

Lemma smooth_point_out_of_range (p : list landmark) (i : nat)
    (lm : landmark) :
  p !! i = None -> smooth_point (Some p) i lm = lm.
Proof.
  intros Hp. unfold smooth_point, landmark in *. cbv zeta. rewrite Hp.
  by destruct lm as [[x y] z].
Qed.

Lemma smooth_point_Some (p : list landmark) (i : nat) (lm q : landmark) :
  p !! i = Some q ->
  smooth_point (Some p) i lm =
    (0.35 * lm0 lm + 0.65 * lm0 q,
     0.35 * lm1 lm + 0.65 * lm1 q,
     0.35 * lm2 lm + 0.65 * lm2 q).
Proof.
  intros Hp. unfold smooth_point, LANDMARK_SMOOTH_ALPHA, landmark in *.
  cbv zeta. rewrite Hp. destruct q as [[px py] pz]. unfold lm0, lm1, lm2. simpl.
  repeat f_equal; lra.
Qed.

(** C4: [_smooth_landmarks] returns a list of the same length as the
    input; the output at position [k] carries the input's handedness
    unchanged and as many landmarks as the input; landmark [i] is, on each
    axis, 0.35 * raw + 0.65 * previous when the previous state has an entry
    for the lower-cased label and that entry has an index [i], and is the
    raw landmark otherwise. *)
Theorem smooth_landmarks_spec (hands_data : list hand)
    (prev_smoothed : gmap string (list landmark)) :
  let out := (_smooth_landmarks hands_data prev_smoothed).1 in
  length out = length hands_data
  /\ forall (k : nat) (hd : hand),
       hands_data !! k = Some hd ->
       exists o,
         out !! k = Some o
         /\ handedness o = handedness hd
         /\ length (landmarks o) = length (landmarks hd)
         /\ forall (i : nat) (lm : landmark),
              landmarks hd !! i = Some lm ->
              exists s,
                landmarks o !! i = Some s
                /\ match prev_smoothed !! lower (handedness hd)
                           ≫= (fun p => p !! i) with
                   | Some q =>
                       lm0 s = 0.35 * lm0 lm + 0.65 * lm0 q
                       /\ lm1 s = 0.35 * lm1 lm + 0.65 * lm1 q
                       /\ lm2 s = 0.35 * lm2 lm + 0.65 * lm2 q
                   | None => s = lm
                   end.
Proof.
  rewrite smooth_landmarks_eq. simpl. split; [by rewrite length_map|].
  intros k hd Hk. exists (smooth_one prev_smoothed hd).
  split; [by rewrite list_lookup_fmap, Hk|].
  split; [done|]. simpl. split; [by rewrite length_imap|].
  intros i lm Hi. rewrite list_lookup_imap, Hi. simpl.
  eexists. split; [reflexivity|].
  destruct (prev_smoothed !! lower (handedness hd)) as [p|] eqn:Hp; simpl.
  - destruct (p !! i) as [q|] eqn:Hq.
    + rewrite (smooth_point_Some _ _ _ _ Hq). done.
    + by apply smooth_point_out_of_range.
  - apply smooth_point_None.
Qed.

(** C5: the state [_smooth_landmarks] returns has an entry for exactly the
    lower-cased labels of the frame, whatever the previous state held; so
    on the next frame an observation whose label was absent from this frame
    comes out with its raw landmarks. *)
Theorem smooth_landmarks_purges (hands_data : list hand)
    (prev_smoothed : gmap string (list landmark)) :
  let state := (_smooth_landmarks hands_data prev_smoothed).2 in
  dom state = labels hands_data
  /\ forall (next : list hand) (k : nat) (hd : hand),
       next !! k = Some hd ->
       lower (handedness hd) ∉ labels hands_data ->
       (_smooth_landmarks next state).1 !! k = Some hd.
Proof.
  cbv zeta. rewrite smooth_landmarks_eq. cbn [snd].
  destruct (smooth_fold prev_smoothed hands_data (mk_acc [] ∅ ∅))
    as (_ & _ & H3).
  simpl in H3. rewrite dom_empty_L, (left_id_L ∅ (∪)) in H3.
  split; [done|]. intros next k hd Hk Hnot.
  rewrite smooth_landmarks_eq. cbn [fst].
  rewrite list_lookup_fmap, Hk. simpl.
  f_equal. unfold smooth_one.
  rewrite <- H3 in Hnot. apply not_elem_of_dom in Hnot. rewrite Hnot.
  destruct hd as [lms lab]. simpl. f_equal.
  apply imap_raw. intros. apply smooth_point_None.
Qed.

(** *** The same frame fed again and again *)

Lemma smooth_single (hd : hand) (prev_smoothed : gmap string (list landmark)) :
  _smooth_landmarks [hd] prev_smoothed =
    ([smooth_one prev_smoothed hd],
     {[lower (handedness hd) := landmarks (smooth_one prev_smoothed hd)]}).
Proof. rewrite smooth_landmarks_eq. simpl. by rewrite insert_empty. Qed.

(** With distinct labels the entry of a label is the output of its one
    observation. *)
Lemma smooth_fold_distinct (prev_smoothed : gmap string (list landmark))
    (hands_data : list hand) (acc : smooth_acc) (k : nat) (hd : hand) :
  distinct_labels hands_data ->
  hands_data !! k = Some hd ->
  acc_new_prev (fold_left (smooth_hand prev_smoothed) hands_data acc)
    !! lower (handedness hd)
  = Some (landmarks (smooth_one prev_smoothed hd)).
Proof.
  unfold distinct_labels. revert k.
  induction hands_data as [|h rest IH] using rev_ind; intros k Hnd Hk;
    [done|].
  rewrite map_app in Hnd. apply NoDup_app in Hnd as (Hrest & Hsep & _).
  rewrite fold_left_app. cbn [fold_left smooth_hand acc_new_prev].
  apply lookup_snoc_Some in Hk as [[_ Hk] | [_ <-]].
  - rewrite lookup_insert_ne; [by apply (IH k)|].
    intros Heq.
    apply (Hsep (lower (handedness hd))).
    + apply (list_elem_of_fmap_2 (fun hd => lower (handedness hd))).
      by eapply list_elem_of_lookup_2.
    + rewrite <- Heq. simpl. apply list_elem_of_singleton. reflexivity.
  - apply lookup_insert_eq.
Qed.

Lemma state_after_distinct (n : nat) (hands_data : list hand)
    (prev_smoothed : gmap string (list landmark)) (k : nat) (hd : hand) :
  distinct_labels hands_data ->
  hands_data !! k = Some hd ->
  state_after (S n) hands_data prev_smoothed !! lower (handedness hd)
  = Some (smoothed_seq n hd prev_smoothed).
Proof.
  intros Hnd Hk. induction n as [|n IH].
  - cbn [state_after]. rewrite smooth_landmarks_eq. cbn [snd].
    by rewrite (smooth_fold_distinct _ _ _ k hd Hnd Hk).
  - change (state_after (S (S n)) hands_data prev_smoothed)
      with (_smooth_landmarks hands_data
              (state_after (S n) hands_data prev_smoothed)).2.
    rewrite smooth_landmarks_eq. cbn [snd].
    rewrite (smooth_fold_distinct _ _ _ k hd Hnd Hk).
    unfold smooth_one. cbn [landmarks]. by rewrite IH.
Qed.

Lemma output_at_distinct (n : nat) (hands_data : list hand)
    (prev_smoothed : gmap string (list landmark)) (k : nat) (hd : hand) :
  distinct_labels hands_data ->
  hands_data !! k = Some hd ->
  output_at n hands_data prev_smoothed !! k
  = Some (mk_hand (smoothed_seq n hd prev_smoothed) (handedness hd)).
Proof.
  intros Hnd Hk. unfold output_at. rewrite smooth_landmarks_eq. cbn [fst].
  rewrite list_lookup_fmap, Hk. cbn [fmap option_fmap option_map].
  unfold smooth_one. destruct n as [|n]; [done|].
  by rewrite (state_after_distinct n hands_data prev_smoothed k hd Hnd Hk).
Qed.

Lemma smoothed_in_seq (n : nat) (hands_data : list hand)
    (prev_smoothed : gmap string (list landmark)) (k i : nat) (hd : hand) :
  distinct_labels hands_data ->
  hands_data !! k = Some hd ->
  smoothed_in n hands_data prev_smoothed k i
  = smoothed_seq n hd prev_smoothed !! i.
Proof.
  intros Hnd Hk. unfold smoothed_in.
  by rewrite (output_at_distinct n hands_data prev_smoothed k hd Hnd Hk).
Qed.

Lemma smoothed_seq_length (n : nat) (hd : hand)
    (prev_smoothed : gmap string (list landmark)) :
  length (smoothed_seq n hd prev_smoothed) = length (landmarks hd).
Proof. destruct n; simpl; apply length_imap. Qed.

(** One more identical frame: each coordinate is 0.35 times the raw one
    plus 0.65 times the one smoothed last. *)
Lemma smoothed_seq_next (n : nat) (hd : hand)
    (prev_smoothed : gmap string (list landmark)) (i : nat) (lm : landmark) :
  landmarks hd !! i = Some lm ->
  exists s s',
    smoothed_seq n hd prev_smoothed !! i = Some s
    /\ smoothed_seq (S n) hd prev_smoothed !! i = Some s'
    /\ lm0 s' = 0.35 * lm0 lm + 0.65 * lm0 s
    /\ lm1 s' = 0.35 * lm1 lm + 0.65 * lm1 s
    /\ lm2 s' = 0.35 * lm2 lm + 0.65 * lm2 s.
Proof.
  intros Hi.
  destruct (lookup_lt_is_Some_2 (smoothed_seq n hd prev_smoothed) i)
    as [s Hs].
  { rewrite smoothed_seq_length. by eapply lookup_lt_Some. }
  exists s. eexists. split; [done|]. split.
  - simpl. rewrite list_lookup_imap, Hi. simpl.
    by rewrite (smooth_point_Some _ _ _ _ Hs).
  - done.
Qed.

(** In exact arithmetic the gap to the raw landmark after [n] more frames
    is [0.65 ^ n] times the first gap, on every axis. *)
Lemma smoothed_seq_gap (n : nat) (hd : hand)
    (prev_smoothed : gmap string (list landmark)) (i : nat)
    (lm s0 : landmark) :
  landmarks hd !! i = Some lm ->
  smoothed_seq 0 hd prev_smoothed !! i = Some s0 ->
  exists s,
    smoothed_seq n hd prev_smoothed !! i = Some s
    /\ lm0 s - lm0 lm = 0.65 ^ n * (lm0 s0 - lm0 lm)
    /\ lm1 s - lm1 lm = 0.65 ^ n * (lm1 s0 - lm1 lm)
    /\ lm2 s - lm2 lm = 0.65 ^ n * (lm2 s0 - lm2 lm).
Proof.
  intros Hi H0. induction n as [|n (s & Hs & Hx & Hy & Hz)].
  - exists s0. split; [done|]. simpl. repeat split; lra.
  - destruct (smoothed_seq_next n hd prev_smoothed i lm Hi)
      as (s1 & s' & Hs1 & Hs' & Gx & Gy & Gz).
    rewrite Hs in Hs1. injection Hs1 as <-.
    exists s'. split; [done|]. simpl. repeat split; lra.
Qed.

Lemma gap_shrunk_exact (n : nat) (raw s0 s : R) :
  s - raw = 0.65 ^ n * (s0 - raw) -> gap_shrunk n raw s0 s.
Proof.
  intros Hgap. unfold gap_shrunk, rounding_tolerance. rewrite Hgap, Rabs_mult.
  assert (Hpow : 0 <= 0.65 ^ n) by (apply pow_le; lra).
  rewrite (Rabs_pos_eq _ Hpow).
  assert (0 <= Rmax 1 (Rmax (Rabs raw) (Rabs s0))).
  { pose proof (Rmax_l 1 (Rmax (Rabs raw) (Rabs s0))). lra. }
  assert (0 < 1 / 10 ^ 12) by (apply Rdiv_lt_0_compat; [lra|apply pow_lt; lra]).
  nra.
Qed.

(** With no prior state every observation comes out as it went in. *)
Lemma smooth_no_prior (hands_data : list hand) :
  (_smooth_landmarks hands_data ∅).1 = hands_data.
Proof.
  rewrite smooth_landmarks_eq. cbn [fst].
  induction hands_data as [|hd rest IH]; [done|].
  cbn [map]. rewrite IH. f_equal.
  unfold smooth_one. rewrite lookup_empty.
  destruct hd as [lms label]. cbn [landmarks handedness]. f_equal.
  apply imap_raw. intros. apply smooth_point_None.
Qed.

(** C9, as amended: one frame [hands_data], whose observations have
    pairwise distinct lower-cased labels, fed on consecutive frames.  With
    no prior state the first output is the input exactly.  From any prior
    state, for every landmark of every observation: on each axis the
    smoothed value of a frame is 0.35 times the raw value plus 0.65 times
    the smoothed value of the frame before, and the smoothed value
    converges to the raw one within the rounding tolerance: after [n]
    more frames the gap to the raw value is at most [0.65 ^ n] times the
    gap of the first output, plus the tolerance times the largest of 1 and
    the magnitudes of the two. *)
Theorem smoothing_converges (hands_data : list hand) :
  distinct_labels hands_data ->
  (_smooth_landmarks hands_data ∅).1 = hands_data
  /\ forall (prev_smoothed : gmap string (list landmark)) (k : nat)
       (hd : hand) (i : nat) (lm : landmark),
       hands_data !! k = Some hd ->
       landmarks hd !! i = Some lm ->
       (forall n : nat, exists s s',
          smoothed_in n hands_data prev_smoothed k i = Some s
          /\ smoothed_in (S n) hands_data prev_smoothed k i = Some s'
          /\ lm0 s' = 0.35 * lm0 lm + 0.65 * lm0 s
          /\ lm1 s' = 0.35 * lm1 lm + 0.65 * lm1 s
          /\ lm2 s' = 0.35 * lm2 lm + 0.65 * lm2 s)
       /\ (forall n : nat, exists s0 s,
             smoothed_in 0 hands_data prev_smoothed k i = Some s0
             /\ smoothed_in n hands_data prev_smoothed k i = Some s
             /\ gap_shrunk n (lm0 lm) (lm0 s0) (lm0 s)
             /\ gap_shrunk n (lm1 lm) (lm1 s0) (lm1 s)
             /\ gap_shrunk n (lm2 lm) (lm2 s0) (lm2 s)).
Proof.
  intros Hnd. split; [apply smooth_no_prior|].
  intros prev_smoothed k hd i lm Hk Hi. split.
  - intros n. rewrite !(smoothed_in_seq _ _ _ _ _ hd Hnd Hk).
    by apply smoothed_seq_next.
  - intros n.
    destruct (lookup_lt_is_Some_2 (smoothed_seq 0 hd prev_smoothed) i)
      as [s0 Hs0].
    { rewrite smoothed_seq_length. by eapply lookup_lt_Some. }
    destruct (smoothed_seq_gap n hd prev_smoothed i lm s0 Hi Hs0)
      as (s & Hs & Hx & Hy & Hz).
    exists s0, s. rewrite !(smoothed_in_seq _ _ _ _ _ hd Hnd Hk).
    split; [done|]. split; [done|].
    repeat split; by apply gap_shrunk_exact.
Qed.

(** A left and a right hand fed again and again. *)
Lemma smoothing_converges_witness :
  (_smooth_landmarks (two_hands [(0.1, 0.3, 0)] [(0.2, 0.3, 0)]) ∅).1
  = two_hands [(0.1, 0.3, 0)] [(0.2, 0.3, 0)]
  /\ forall (prev_smoothed : gmap string (list landmark)) (k : nat)
       (hd : hand) (i : nat) (lm : landmark),
       two_hands [(0.1, 0.3, 0)] [(0.2, 0.3, 0)] !! k = Some hd ->
       landmarks hd !! i = Some lm ->
       (forall n : nat, exists s s',
          smoothed_in n (two_hands [(0.1, 0.3, 0)] [(0.2, 0.3, 0)])
            prev_smoothed k i = Some s
          /\ smoothed_in (S n) (two_hands [(0.1, 0.3, 0)] [(0.2, 0.3, 0)])
               prev_smoothed k i = Some s'
          /\ lm0 s' = 0.35 * lm0 lm + 0.65 * lm0 s
          /\ lm1 s' = 0.35 * lm1 lm + 0.65 * lm1 s
          /\ lm2 s' = 0.35 * lm2 lm + 0.65 * lm2 s)
       /\ (forall n : nat, exists s0 s,
             smoothed_in 0 (two_hands [(0.1, 0.3, 0)] [(0.2, 0.3, 0)])
               prev_smoothed k i = Some s0
             /\ smoothed_in n (two_hands [(0.1, 0.3, 0)] [(0.2, 0.3, 0)])
                  prev_smoothed k i = Some s
             /\ gap_shrunk n (lm0 lm) (lm0 s0) (lm0 s)
             /\ gap_shrunk n (lm1 lm) (lm1 s0) (lm1 s)
             /\ gap_shrunk n (lm2 lm) (lm2 s0) (lm2 s)).
Proof.
  apply (smoothing_converges (two_hands [(0.1, 0.3, 0)] [(0.2, 0.3, 0)])).
  unfold distinct_labels, two_hands. cbn [map handedness].
  change (lower "Left") with "left". change (lower "Right") with "right".
  apply NoDup_cons. split; [|apply NoDup_singleton].
  rewrite list_elem_of_singleton. discriminate.
Defined.

(** One pass over [twice_left] when the entry of the label holds a hand at
    [(1, 1, 1)]: the first observation comes out at 0.65 on each axis, and
    the entry holds a hand at [(1, 1, 1)] again, the output of the second
    observation. *)
Lemma twice_left_pass (state : gmap string (list landmark)) (b : landmark) :
  state !! "left" = Some [b] ->
  lm0 b = 1 -> lm1 b = 1 -> lm2 b = 1 ->
  (exists s,
     (_smooth_landmarks twice_left state).1 !! 0%nat
       ≫= (fun o => landmarks o !! 0%nat) = Some s
     /\ lm0 s = 0.65 /\ lm1 s = 0.65 /\ lm2 s = 0.65)
  /\ exists b',
       (_smooth_landmarks twice_left state).2 !! "left" = Some [b']
       /\ lm0 b' = 1 /\ lm1 b' = 1 /\ lm2 b' = 1.
Proof.
  intros Hstate H0 H1 H2. rewrite smooth_landmarks_eq. cbn [fst snd].
  split.
  - unfold twice_left, smooth_one. cbn [map lookup list_lookup handedness
                                        landmarks mbind option_bind].
    change (lower "Left") with "left". rewrite Hstate.
    cbn [imap lookup list_lookup].
    rewrite (smooth_point_Some [b] 0 _ b eq_refl).
    eexists. split; [reflexivity|]. unfold lm0, lm1, lm2 in *. simpl.
    rewrite H0, H1, H2. repeat split; lra.
  - change twice_left
      with ([mk_hand [(0, 0, 0)] "Left"] ++ [mk_hand [(1, 1, 1)] "Left"]).
    pose proof (smooth_fold_lookup state [mk_hand [(0, 0, 0)] "Left"]
                  (mk_hand [(1, 1, 1)] "Left") (mk_acc [] ∅ ∅)) as Hlast.
    cbn [handedness] in Hlast. change (lower "Left") with "left" in Hlast.
    rewrite Hlast. unfold smooth_one. cbn [handedness landmarks].
    change (lower "Left") with "left". rewrite Hstate.
    cbn [imap]. rewrite (smooth_point_Some [b] 0 _ b eq_refl).
    eexists. split; [reflexivity|]. unfold lm0, lm1, lm2 in *. simpl.
    rewrite H0, H1, H2. repeat split; lra.
Qed.

Lemma twice_left_state (n : nat) :
  exists b,
    state_after (S n) twice_left ∅ !! "left" = Some [b]
    /\ lm0 b = 1 /\ lm1 b = 1 /\ lm2 b = 1.
Proof.
  induction n as [|n (b & Hb & H0 & H1 & H2)].
  - exists (1, 1, 1). split; [|done].
    cbn [state_after]. rewrite smooth_landmarks_eq. cbn [snd].
    change twice_left
      with ([mk_hand [(0, 0, 0)] "Left"] ++ [mk_hand [(1, 1, 1)] "Left"]).
    pose proof (smooth_fold_lookup ∅ [mk_hand [(0, 0, 0)] "Left"]
                  (mk_hand [(1, 1, 1)] "Left") (mk_acc [] ∅ ∅)) as Hlast.
    cbn [handedness] in Hlast. change (lower "Left") with "left" in Hlast.
    rewrite Hlast. unfold smooth_one. cbn [handedness landmarks].
    by rewrite lookup_empty.
  - change (state_after (S (S n)) twice_left ∅)
      with (_smooth_landmarks twice_left (state_after (S n) twice_left ∅)).2.
    by destruct (twice_left_pass _ b Hb H0 H1 H2) as [_ Hnext].
Qed.

Lemma twice_left_output (n : nat) :
  exists s,
    smoothed_in (S n) twice_left ∅ 0 0 = Some s
    /\ lm0 s = 0.65 /\ lm1 s = 0.65 /\ lm2 s = 0.65.
Proof.
  destruct (twice_left_state n) as (b & Hb & H0 & H1 & H2).
  unfold smoothed_in, output_at.
  by destruct (twice_left_pass _ b Hb H0 H1 H2) as [Hout _].
Qed.

(** C9, counterexample: the frame [twice_left] has two observations with
    the label ["Left"].  Fed again and again with no prior state, its
    first output is the input; from the second frame on the first
    observation, raw at 0, comes out at 0.65 on each axis (it is smoothed
    against the second observation's last output): the gap, 0 at the first
    output, is 0.65 ever after, it does not shrink and the output does not
    converge to the input, with or without the rounding tolerance. *)
Lemma duplicate_label_stays_apart :
  (_smooth_landmarks twice_left ∅).1 = twice_left
  /\ (forall n : nat, exists s,
        smoothed_in (S n) twice_left ∅ 0 0 = Some s
        /\ lm0 s = 0.65 /\ lm1 s = 0.65 /\ lm2 s = 0.65
        /\ ~ gap_shrunk (S n) 0 0 (lm0 s))
  /\ ~ (forall eps : R, 0 < eps ->
        exists N : nat, forall n : nat, (N <= n)%nat ->
        exists s,
          smoothed_in n twice_left ∅ 0 0 = Some s
          /\ Rabs (lm0 s - 0) < eps).
Proof.
  split; [apply smooth_no_prior|]. split.
  - intros n. destruct (twice_left_output n) as (s & Hs & H0 & H1 & H2).
    exists s. do 4 (split; [done|]).
    unfold gap_shrunk, rounding_tolerance.
    rewrite H0, !Rminus_0_r, !Rabs_R0, (Rmax_left 0 0), (Rmax_left 1 0)
      by lra.
    rewrite Rabs_pos_eq by lra. lra.
  - intros Hconv. destruct (Hconv 0.5 ltac:(lra)) as [N HN].
    destruct (HN (S N) ltac:(lia)) as (s & Hs & Hgap).
    destruct (twice_left_output N) as (s' & Hs' & H0 & _).
    rewrite Hs in Hs'. injection Hs' as <-.
    rewrite H0, Rminus_0_r, Rabs_pos_eq in Hgap; lra.
Qed.

(** ** Punch detector *)

(** [_update_and_detect] after the sample was computed: what follows the
    two helper calls, as one expression. *)
Lemma update_and_detect_sample (self : config) (handedness : string)
    (landmarks : list landmark) (t : R) (st : detector) (size z : R)
    (fist : bool) :
  _hand_size landmarks = Ok size ->
  _avg_z landmarks = Ok z ->
  _is_fist landmarks = Ok fist ->
  let hid := lower handedness in
  let h := deque_append (history_frames self) (window_of st hid)
             (t, size, z) in
  _update_and_detect self handedness landmarks t st =
    if negb fist then (Ok tt, with_window st hid h, [])
    else if decide (t - last_punch_of st hid < cooldown_sec self)
    then (Ok tt, with_window st hid h, [])
    else if decide (length h < 2)%nat then (Ok tt, with_window st hid h, [])
    else
      match head h, last h with
      | Some (t0, s0, z0), Some (t1, s1, z1) =>
          if decide (t1 - t0 <= 0) then (Ok tt, with_window st hid h, [])
          else if bool_decide ((s1 - s0) / (t1 - t0) > velocity_threshold self)
                  || bool_decide ((z1 - z0) / (t1 - t0) < -0.35)
          then
            if decide (velocity_threshold self * 2 = 0)
            then (Raise ZeroDivisionError, with_window st hid h, [])
            else
              (Ok tt, with_punch st hid h t,
               [punch hid
                  (py_min2 1.0
                     (Rabs ((s1 - s0) / (t1 - t0))
                      / (velocity_threshold self * 2)))])
          else (Ok tt, with_window st hid h, [])
      | _, _ => (Raise IndexError, with_window st hid h, [])
      end.
Proof.
  intros Hsize Hz Hfist hid h. subst hid h.
  unfold_M. unfold window_of, last_punch_of, with_window, with_punch.
  rewrite Hsize, Hz, Hfist.
  set (hid := lower handedness).
  destruct (decide (is_Some (_history st !! hid))) as [Hs|Hn]; simpl;
    [|rewrite insert_insert_eq, lookup_insert_eq; simpl;
      apply eq_None_not_Some in Hn; rewrite Hn; simpl].
  all: destruct fist; simpl; [|done].
  all: destruct (decide (_ < cooldown_sec self)); simpl; [done|].
  all: destruct (decide (length _ < 2)%nat); simpl; [done|].
  all: unfold getitem, getitem_last; rewrite <- head_lookup.
  all: destruct (head _) as [[[t0 s0] z0]|]; simpl; [|done].
  all: destruct (last _) as [[[t1 s1] z1]|]; simpl; [|done].
  all: destruct (decide (t1 - t0 <= 0)); simpl; [done|].
  all: destruct (_ || _); simpl; [|done].
  all: unfold py_div; destruct (decide (_ = 0)); simpl; done.
Qed.

Lemma update_and_detect_raise_size (self : config) (handedness : string)
    (landmarks : list landmark) (t : R) (st : detector) (e : exn) :
  _hand_size landmarks = Raise e ->
  _update_and_detect self handedness landmarks t st =
    (Raise e, with_new_hand st (lower handedness), []).
Proof.
  intros Hsize. unfold_M. unfold with_new_hand. rewrite Hsize.
  by destruct (decide (is_Some _)).
Qed.

Lemma update_and_detect_raise_z (self : config) (handedness : string)
    (landmarks : list landmark) (t : R) (st : detector) (size : R)
    (e : exn) :
  _hand_size landmarks = Ok size ->
  _avg_z landmarks = Raise e ->
  _update_and_detect self handedness landmarks t st =
    (Raise e, with_new_hand st (lower handedness), []).
Proof.
  intros Hsize Hz. unfold_M. unfold with_new_hand. rewrite Hsize, Hz.
  by destruct (decide (is_Some _)).
Qed.

Lemma hand_size_empty : _hand_size [] = Raise ValueError.
Proof. reflexivity. Qed.

Lemma hand_size_nonempty (landmarks : list landmark) :
  landmarks <> [] -> exists size, _hand_size landmarks = Ok size.
Proof.
  destruct landmarks as [|lm rest]; [done|]. intros _.
  unfold _hand_size. simpl. by eexists.
Qed.

Lemma avg_z_empty : _avg_z [] = Raise ZeroDivisionError.
Proof. unfold _avg_z, py_div. simpl. by rewrite decide_True. Qed.

Lemma avg_z_nonempty (landmarks : list landmark) :
  landmarks <> [] ->
  _avg_z landmarks =
    Ok (py_sum (map lm2 landmarks) / INR (length landmarks)).
Proof.
  intros Hne. unfold _avg_z, py_div. rewrite decide_False; [done|].
  apply not_0_INR. by destruct landmarks.
Qed.

Lemma is_fist_short (landmarks : list landmark) :
  (length landmarks < 21)%nat -> _is_fist landmarks = Ok false.
Proof. intros Hshort. unfold _is_fist. by rewrite is_fist_try_short. Qed.

Lemma is_fist_total (landmarks : list landmark) :
  exists b, _is_fist landmarks = Ok b.
Proof.
  destruct (decide (length landmarks < 21)%nat) as [Hs|Hl].
  - exists false. by apply is_fist_short.
  - unfold _is_fist. rewrite is_fist_try_long by lia. eauto.
Qed.

Lemma is_fist_true_length (landmarks : list landmark) :
  _is_fist landmarks = Ok true -> (21 <= length landmarks)%nat.
Proof.
  intros Hfist.
  destruct (decide (length landmarks < 21)%nat) as [Hlt|]; [|lia].
  rewrite (is_fist_short _ Hlt) in Hfist. discriminate.
Qed.

(** What one call of [_update_and_detect] can do to the queue and to
    [_last_punch]: nothing, or one punch for the hand at the frame's time,
    and that only when the cooldown test let it through. *)
Lemma update_and_detect_effect (self : config) (handedness : string)
    (landmarks : list landmark) (t : R) (st : detector) :
  exists r st' evs,
    _update_and_detect self handedness landmarks t st = (r, st', evs)
    /\ ((evs = [] /\ _last_punch st' = _last_punch st)
        \/ (exists strength,
              evs = [punch (lower handedness) strength]
              /\ r = Ok tt
              /\ _last_punch st' =
                   <[lower handedness := t]> (_last_punch st)
              /\ ~ t - last_punch_of st (lower handedness)
                     < cooldown_sec self)).
Proof.
  destruct (_hand_size landmarks) as [size|e] eqn:Hsize.
  2: { rewrite (update_and_detect_raise_size _ _ _ _ _ _ Hsize).
       do 3 eexists. split; [reflexivity|]. left. unfold with_new_hand.
       by destruct (decide _). }
  destruct (_avg_z landmarks) as [z|e] eqn:Hz.
  2: { rewrite (update_and_detect_raise_z _ _ _ _ _ _ _ Hsize Hz).
       do 3 eexists. split; [reflexivity|]. left. unfold with_new_hand.
       by destruct (decide _). }
  destruct (is_fist_total landmarks) as [fist Hfist].
  rewrite (update_and_detect_sample _ _ _ _ _ _ _ _ Hsize Hz Hfist).
  cbv zeta.
  repeat match goal with
  | |- context [if ?c then _ else _] => destruct c; simpl
  | |- context [match ?c with Some _ => _ | None => _ end] =>
      destruct c as [[[? ?] ?]|]; simpl
  end.
  all: do 3 eexists; (split; [reflexivity|]); simpl; eauto 10.
Qed.

(** *** Cooldown *)

Lemma trace_inv_later (cd now now' : R) (st : detector)
    (tr : list (R * event)) :
  now <= now' -> trace_inv cd now st tr -> trace_inv cd now' st tr.
Proof.
  intros Hle [H1 H2 H3]. split; [done| |done].
  intros h L HL. specialize (H2 h L HL). lra.
Qed.

Lemma trace_inv_same_punches (cd now : R) (st st' : detector)
    (tr : list (R * event)) :
  _last_punch st' = _last_punch st ->
  trace_inv cd now st tr -> trace_inv cd now st' tr.
Proof. intros Heq [H1 H2 H3]. split; rewrite ?Heq; done. Qed.

Lemma trace_inv_punch (cd now strength : R) (st st' : detector)
    (tr : list (R * event)) (hid : string) :
  _last_punch st' = <[hid := now]> (_last_punch st) ->
  ~ now - last_punch_of st hid < cd ->
  trace_inv cd now st tr ->
  trace_inv cd now st' (tr ++ [(now, punch hid strength)]).
Proof.
  intros Heq Hcool [H1 H2 H3]. split.
  - intros ti h s Hin. rewrite Heq.
    destruct (decide (hid = h)) as [<-|Hne].
    + rewrite lookup_insert_eq. eexists. split; [done|].
      apply elem_of_app in Hin as [Hin|Hin].
      * destruct (H1 _ _ _ Hin) as (L & HL & Hle).
        specialize (H2 _ _ HL). lra.
      * apply list_elem_of_singleton in Hin. injection Hin as -> _. lra.
    + rewrite lookup_insert_ne by done.
      apply elem_of_app in Hin as [Hin|Hin]; [by eapply H1|].
      apply list_elem_of_singleton in Hin. by injection Hin as _ ->.
  - intros h L. rewrite Heq.
    destruct (decide (hid = h)) as [<-|Hne].
    + rewrite lookup_insert_eq. intros [= <-]. lra.
    + rewrite lookup_insert_ne by done. apply H2.
  - intros i j ti tj h si sj Hij Hi Hj.
    assert (Hjlen : (j < length (tr ++ [(now, punch hid strength)]))%nat)
      by (by eapply lookup_lt_Some).
    rewrite length_app in Hjlen. simpl in Hjlen.
    rewrite lookup_app_l in Hi by lia.
    destruct (decide (j < length tr)%nat) as [Hj'|Hj'].
    + rewrite lookup_app_l in Hj by done.
      exact (H3 _ _ _ _ _ _ _ Hij Hi Hj).
    + rewrite lookup_app_r in Hj by lia.
      replace (j - length tr)%nat with 0%nat in Hj by lia.
      simpl in Hj. injection Hj as <- <- <-.
      destruct (H1 ti hid si) as (L & HL & Hle).
      { by eapply list_elem_of_lookup_2. }
      unfold last_punch_of in Hcool. rewrite HL in Hcool. simpl in Hcool.
      lra.
Qed.

(** The detector of one configuration over its frames. *)
Section detector_run.

Variable self : config.

Lemma update_and_detect_inv (handedness : string)
    (landmarks : list landmark) (now : R) (st st' : detector)
    (r : result unit) (evs : list event) (tr : list (R * event)) :
  _update_and_detect self handedness landmarks now st = (r, st', evs) ->
  trace_inv (cooldown_sec self) now st tr ->
  trace_inv (cooldown_sec self) now st' (tr ++ map (pair now) evs).
Proof.
  intros Hrun Hinv.
  destruct (update_and_detect_effect self handedness landmarks now st)
    as (r0 & st0 & evs0 & Hrun0 & Hcases).
  rewrite Hrun in Hrun0. injection Hrun0 as <- <- <-.
  destruct Hcases as [[-> Hlp] | (s & -> & _ & Hlp & Hcool)]; simpl.
  - rewrite app_nil_r. by eapply trace_inv_same_punches.
  - by eapply trace_inv_punch.
Qed.

Lemma process_hands_inv (hands_data : list hand) (now : R)
    (st st' : detector) (r : result unit) (evs : list event)
    (tr : list (R * event)) :
  process_hands self hands_data now st = (r, st', evs) ->
  trace_inv (cooldown_sec self) now st tr ->
  trace_inv (cooldown_sec self) now st' (tr ++ map (pair now) evs).
Proof.
  revert st st' r evs tr.
  induction hands_data as [|h rest IH]; intros st st' r evs tr; simpl.
  - intros [= <- <- <-]. by rewrite app_nil_r.
  - unfold mbind, M_bind.
    destruct (_update_and_detect self (handedness h) (landmarks h) now st)
      as [[r1 st1] ev1] eqn:Hstep.
    intros Hrun Hinv.
    pose proof (update_and_detect_inv _ _ _ _ _ _ _ _ Hstep Hinv) as Hinv1.
    destruct r1 as [[]|e].
    + destruct (process_hands self rest now st1) as [[r2 st2] ev2] eqn:Hrest.
      injection Hrun as <- <- <-.
      rewrite map_app, app_assoc. by eapply IH.
    + by injection Hrun as <- <- <-.
Qed.

Lemma run_frames_separated (frames : list (list hand * R))
    (st : detector) (tr : list (R * event)) (now : R) :
  StronglySorted Rle (now :: map snd frames) ->
  trace_inv (cooldown_sec self) now st tr ->
  separated (cooldown_sec self) (tr ++ run_frames self frames st).
Proof.
  revert st tr now.
  induction frames as [|[hands_data t] rest IH]; intros st tr now Hsorted Hinv.
  - simpl. rewrite app_nil_r. apply Hinv.
  - simpl in Hsorted. apply StronglySorted_inv in Hsorted as [Hrest Hnow].
    apply Forall_cons in Hnow as [Hnow _]. simpl.
    destruct (process_hands self hands_data t st) as [[r st'] evs] eqn:Hrun.
    pose proof (process_hands_inv _ _ _ _ _ _ _ Hrun
                  (trace_inv_later _ _ _ _ _ Hnow Hinv)) as Hinv'.
    destruct r as [[]|e].
    + rewrite app_assoc. by eapply IH.
    + apply Hinv'.
Qed.

(** C2: over a sequence of frames with non-decreasing timestamps, processed
    from a fresh detector, two different punch events of the same hand
    label never have frame timestamps less than [cooldown_sec] apart. *)
Theorem cooldown_invariant (frames : list (list hand * R)) :
  Sorted Rle (map snd frames) ->
  forall (i j : nat) (ti tj : R) (h : string) (si sj : R),
    i <> j ->
    run_frames self frames detector_init !! i = Some (ti, punch h si) ->
    run_frames self frames detector_init !! j = Some (tj, punch h sj) ->
    ~ Rabs (tj - ti) < cooldown_sec self.
Proof.
  intros Hsorted.
  assert (Hsep :
    separated (cooldown_sec self) (run_frames self frames detector_init)).
  { destruct frames as [|[hands_data t] rest] eqn:Hframes.
    - intros i j ti tj h si sj _ Hi. simpl in Hi. by rewrite lookup_nil in Hi.
    - rewrite <- Hframes in *.
      apply (run_frames_separated frames detector_init [] t).
      + apply Sorted_StronglySorted; [intros x y z; apply Rle_trans|].
        rewrite Hframes in *. simpl in *. constructor; [done|].
        constructor. apply Rle_refl.
      + split.
        * intros ti h s Hin. by apply elem_of_nil in Hin.
        * intros h L HL. simpl in HL. by rewrite lookup_empty in HL.
        * intros i j ti tj h si sj _ Hi. by rewrite lookup_nil in Hi. }
  intros i j ti tj h si sj Hij Hi Hj Habs.
  destruct (decide (i < j)%nat) as [Hlt|Hge].
  - pose proof (Hsep _ _ _ _ _ _ _ Hlt Hi Hj) as Hcd.
    pose proof (Rle_abs (tj - ti)). lra.
  - assert (Hlt : (j < i)%nat) by lia.
    pose proof (Hsep _ _ _ _ _ _ _ Hlt Hj Hi) as Hcd.
    pose proof (Rle_abs (ti - tj)). rewrite Rabs_minus_sym in Habs. lra.
Qed.

End detector_run.

(** *** The punch decision *)

Lemma py_min2_Rmin (a b : R) : py_min2 a b = Rmin a b.
Proof.
  unfold py_min2, Rmin.
  destruct (decide (b < a)), (Rle_dec a b); try reflexivity; lra.
Qed.

(** The decision of [_update_and_detect] once the guards are passed. *)
Lemma update_and_detect_decision (self : config) (st : detector)
    (handedness : string) (landmarks : list landmark) (t size z : R)
    (t0 s0 z0 t1 s1 z1 : R) :
  let hid := lower handedness in
  let window :=
    deque_append (history_frames self) (window_of st hid) (t, size, z) in
  let size_velocity := (s1 - s0) / (t1 - t0) in
  let z_velocity := (z1 - z0) / (t1 - t0) in
  _hand_size landmarks = Ok size ->
  _avg_z landmarks = Ok z ->
  _is_fist landmarks = Ok true ->
  ~ t - last_punch_of st hid < cooldown_sec self ->
  velocity_threshold self <> 0 ->
  (2 <= length window)%nat ->
  head window = Some (t0, s0, z0) ->
  last window = Some (t1, s1, z1) ->
  0 < t1 - t0 ->
  _update_and_detect self handedness landmarks t st =
    if bool_decide (size_velocity > velocity_threshold self)
       || bool_decide (z_velocity < -0.35)
    then (Ok tt, with_punch st hid window t,
          [punch hid
             (Rmin 1 (Rabs size_velocity / (2 * velocity_threshold self)))])
    else (Ok tt, with_window st hid window, []).
Proof.
  intros hid window sv zv Hsize Hz Hfist Hcool Hthr Hlen Hhead Hlast Hdt.
  rewrite (update_and_detect_sample _ _ _ _ _ _ _ _ Hsize Hz Hfist).
  cbv zeta. fold hid. fold window. simpl negb. cbv iota.
  rewrite decide_False by done.
  rewrite decide_False by lia.
  rewrite Hhead, Hlast.
  rewrite decide_False by lra.
  fold sv. fold zv.
  destruct (_ || _); [|done].
  rewrite decide_False by lra.
  rewrite py_min2_Rmin.
  replace (velocity_threshold self * 2) with (2 * velocity_threshold self)
    by lra.
  replace 1.0 with 1 by lra. done.
Qed.

(** A closed fist inside the cooldown only extends the window. *)
Lemma update_and_detect_cooldown (self : config) (st : detector)
    (handedness : string) (landmarks : list landmark) (t size z : R) :
  let hid := lower handedness in
  _hand_size landmarks = Ok size ->
  _avg_z landmarks = Ok z ->
  _is_fist landmarks = Ok true ->
  t - last_punch_of st hid < cooldown_sec self ->
  _update_and_detect self handedness landmarks t st =
    (Ok tt,
     with_window st hid
       (deque_append (history_frames self) (window_of st hid) (t, size, z)),
     []).
Proof.
  intros hid Hsize Hz Hfist Hcool.
  rewrite (update_and_detect_sample _ _ _ _ _ _ _ _ Hsize Hz Hfist).
  cbv zeta. fold hid. simpl negb. cbv iota. by rewrite decide_True.
Qed.

(** C1, as amended: one observation processed at time [t], with the fist
    predicate true, the cooldown elapsed and a non-zero velocity threshold
    (the strength formula divides by it).  The sample [(t, size, z)] of the
    observation exists; with [window] the hand's history after the sample
    was appended, holding at least 2 samples, first [(t0, s0, z0)] and last
    [(t1, s1, z1)], and [t1 - t0] positive: if the size velocity is above
    the threshold or the z velocity is below -0.35, exactly one punch is put,
    for the lower-cased label, with strength
    min(1, |size velocity| / (2 * threshold)), and the last-punch time of
    the hand becomes [t]; otherwise nothing is put and the last-punch table
    is unchanged; in particular a size velocity equal to the threshold, with
    the z velocity not below -0.35, puts nothing. *)
Theorem punch_decision (self : config) (st : detector) (handedness : string)
    (landmarks : list landmark) (t : R) :
  let hid := lower handedness in
  _is_fist landmarks = Ok true ->
  ~ t - last_punch_of st hid < cooldown_sec self ->
  velocity_threshold self <> 0 ->
  exists size z,
    _hand_size landmarks = Ok size
    /\ _avg_z landmarks = Ok z
    /\ let window :=
         deque_append (history_frames self) (window_of st hid) (t, size, z) in
       forall t0 s0 z0 t1 s1 z1 : R,
         (2 <= length window)%nat ->
         head window = Some (t0, s0, z0) ->
         last window = Some (t1, s1, z1) ->
         0 < t1 - t0 ->
         let size_velocity := (s1 - s0) / (t1 - t0) in
         let z_velocity := (z1 - z0) / (t1 - t0) in
         let strength :=
           Rmin 1 (Rabs size_velocity / (2 * velocity_threshold self)) in
         (size_velocity > velocity_threshold self \/ z_velocity < -0.35 ->
          _update_and_detect self handedness landmarks t st =
            (Ok tt, with_punch st hid window t, [punch hid strength]))
         /\ (~ (size_velocity > velocity_threshold self
                \/ z_velocity < -0.35) ->
             _update_and_detect self handedness landmarks t st =
               (Ok tt, with_window st hid window, []))
         /\ (size_velocity = velocity_threshold self ->
             ~ z_velocity < -0.35 ->
             _update_and_detect self handedness landmarks t st =
               (Ok tt, with_window st hid window, [])).
Proof.
  intros hid Hfist Hcool Hthr.
  assert (Hne : landmarks <> []).
  { apply is_fist_true_length in Hfist. destruct landmarks; simpl in *;
      [lia|done]. }
  destruct (hand_size_nonempty landmarks Hne) as [size Hsize].
  pose proof (avg_z_nonempty landmarks Hne) as Hz.
  exists size. eexists. split; [done|]. split; [done|].
  intros window t0 s0 z0 t1 s1 z1 Hlen Hhead Hlast Hdt sv zv strength.
  rewrite (update_and_detect_decision self st handedness landmarks t size _
             t0 s0 z0 t1 s1 z1 Hsize Hz Hfist Hcool Hthr Hlen Hhead Hlast
             Hdt).
  fold hid. fold window. fold sv. fold zv. fold strength.
  split; [|split].
  - intros Htoward.
    replace (_ || _) with true; [done|]. symmetry.
    apply orb_true_iff. rewrite !bool_decide_eq_true. done.
  - intros Hnot.
    replace (_ || _) with false; [done|]. symmetry.
    apply orb_false_iff. rewrite !bool_decide_eq_false. tauto.
  - intros Heq Hz'.
    replace (_ || _) with false; [done|]. symmetry.
    apply orb_false_iff. rewrite !bool_decide_eq_false. split; [lra|done].
Qed.

(** With a zero threshold the strength cannot be computed: a fist moving
    toward the camera makes [_update_and_detect] raise, and nothing is
    put. *)
Lemma zero_threshold_raises (self : config) (st : detector)
    (handedness : string) (landmarks : list landmark) (t size z : R)
    (t0 s0 z0 t1 s1 z1 : R) :
  let hid := lower handedness in
  let window :=
    deque_append (history_frames self) (window_of st hid) (t, size, z) in
  velocity_threshold self = 0 ->
  _hand_size landmarks = Ok size ->
  _avg_z landmarks = Ok z ->
  _is_fist landmarks = Ok true ->
  ~ t - last_punch_of st hid < cooldown_sec self ->
  (2 <= length window)%nat ->
  head window = Some (t0, s0, z0) ->
  last window = Some (t1, s1, z1) ->
  0 < t1 - t0 ->
  (s1 - s0) / (t1 - t0) > 0 ->
  _update_and_detect self handedness landmarks t st =
    (Raise ZeroDivisionError, with_window st hid window, []).
Proof.
  intros hid window Hthr Hsize Hz Hfist Hcool Hlen Hhead Hlast Hdt Hsv.
  rewrite (update_and_detect_sample _ _ _ _ _ _ _ _ Hsize Hz Hfist).
  cbv zeta. fold hid. fold window. simpl negb. cbv iota.
  rewrite decide_False by done.
  rewrite decide_False by lia.
  rewrite Hhead, Hlast.
  rewrite decide_False by lra.
  rewrite Hthr. rewrite (bool_decide_eq_true_2 _ Hsv). simpl.
  rewrite decide_True by lra. done.
Qed.

(** *** A closed fist to compute with *)

Lemma sqrt_span (k : R) :
  0 <= k -> sqrt ((k - 0) * ((k - 0) * 1) + (0 - 0) * ((0 - 0) * 1)) = k.
Proof.
  intros Hk.
  replace ((k - 0) * ((k - 0) * 1) + (0 - 0) * ((0 - 0) * 1)) with (k * k)
    by ring.
  by apply sqrt_square.
Qed.

Lemma fist_pose_is_fist (k : R) :
  0.05 <= k -> _is_fist (fist_pose k) = Ok true.
Proof.
  intros Hk. unfold _is_fist, is_fist_try, fist_pose. simpl.
  unfold lm0, lm1. simpl fst. simpl snd.
  rewrite sqrt_span by lra. rewrite decide_False by lra.
  unfold tip_closer_than_pip, lm0, lm1. simpl.
  rewrite bool_decide_eq_true_2 by lra. done.
Qed.

Lemma fist_pose_size (k : R) : 0 <= k -> _hand_size (fist_pose k) = Ok k.
Proof.
  intros Hk. unfold _hand_size, fist_pose. simpl.
  unfold lm0, lm1. simpl fst. simpl snd.
  rewrite !(Rmax_left 0 0), (Rmax_right 0 k), !(Rmax_left k 0) by lra.
  rewrite !(Rmin_left 0 0), (Rmin_left 0 k), !(Rmin_left 0 0) by lra.
  by rewrite sqrt_span.
Qed.

Lemma fist_pose_avg_z (k : R) : _avg_z (fist_pose k) = Ok 0.
Proof.
  rewrite avg_z_nonempty by done. f_equal.
  unfold fist_pose, py_sum, lm2. simpl. lra.
Qed.

Lemma deque_append_room {A : Type} (maxlen : nat) (d : list A) (x : A) :
  (length d < maxlen)%nat -> deque_append maxlen d x = d ++ [x].
Proof.
  intros Hlen. unfold deque_append. rewrite decide_False; [done|].
  rewrite length_app. simpl. lia.
Qed.

Lemma deque_append_full {A : Type} (maxlen : nat) (d : list A) (x : A) :
  (maxlen <= length d)%nat -> deque_append maxlen d x = tail (d ++ [x]).
Proof.
  intros Hlen. unfold deque_append. rewrite decide_True; [done|].
  rewrite length_app. simpl. lia.
Qed.

(** The first frame of a hand has a single sample: no punch. *)
Lemma first_frame_no_punch :
  _update_and_detect game_detector "Left" (fist_pose 0.10) 1.0 detector_init
  = (Ok tt, seen_once, []).
Proof.
  rewrite (update_and_detect_sample _ _ _ _ _ 0.10 0 true)
    by first [ apply fist_pose_size; lra | apply fist_pose_avg_z
             | apply fist_pose_is_fist; lra ].
  cbv zeta. simpl negb. cbv iota. change (lower "Left") with "left".
  rewrite decide_False.
  2: { change (~ 1.0 - -10 < 200 / 1000.0). lra. }
  change (window_of detector_init "left") with (@nil sample).
  rewrite deque_append_room by (simpl; lia).
  rewrite decide_True by (simpl; lia).
  unfold with_window, seen_once. simpl. by rewrite insert_empty.
Qed.

(** The second frame of a left fist growing from 0.10 to 0.25 in 0.1 s:
    a punch of strength 1. *)
Lemma punch_decision_witness :
  _update_and_detect game_detector "Left" (fist_pose 0.25) 1.1 seen_once
  = (Ok tt,
     with_punch seen_once "left" [(1.0, 0.10, 0); (1.1, 0.25, 0)] 1.1,
     [punch "left" 1]).
Proof.
  destruct (punch_decision game_detector seen_once "Left" (fist_pose 0.25)
              1.1)
    as (size & z & Hsize & Hz & Hrun).
  - apply fist_pose_is_fist. lra.
  - change (~ 1.1 - -10 < 200 / 1000.0). lra.
  - change (0.07 <> 0). lra.
  - change (lower "Left") with "left" in Hrun.
    change (window_of seen_once "left") with [(1.0, 0.10, 0)] in Hrun.
    rewrite fist_pose_size in Hsize by lra. injection Hsize as <-.
    rewrite fist_pose_avg_z in Hz. injection Hz as <-.
    rewrite deque_append_room in Hrun by (simpl; lia).
    destruct (Hrun 1.0 0.10 0 1.1 0.25 0) as (Hpunch & _).
    + simpl. lia.
    + reflexivity.
    + reflexivity.
    + lra.
    + rewrite Hpunch by (left; simpl; lra).
      simpl. do 3 f_equal.
      apply Rmin_left. unfold Rdiv. rewrite Rabs_pos_eq; lra.
Defined.

(** C1, counterexample: a detector built with a zero velocity threshold
    sees the left fist of the witness grow from 0.10 to 0.25 in 0.1 s.  The
    fist predicate holds, the cooldown has elapsed, the window holds two
    samples over a positive time and the size velocity 1.5 is above the
    threshold 0, yet no punch is put and the last-punch table is unchanged:
    the strength's division by [velocity_threshold * 2] raises
    [ZeroDivisionError]. *)
Lemma zero_threshold_no_punch :
  _is_fist (fist_pose 0.25) = Ok true
  /\ ~ 1.1 - last_punch_of seen_once "left"
       < cooldown_sec zero_threshold_detector
  /\ deque_append (history_frames zero_threshold_detector)
       (window_of seen_once "left") (1.1, 0.25, 0)
     = [(1.0, 0.10, 0); (1.1, 0.25, 0)]
  /\ 0 < 1.1 - 1.0
  /\ (0.25 - 0.10) / (1.1 - 1.0) > velocity_threshold zero_threshold_detector
  /\ _update_and_detect zero_threshold_detector "Left" (fist_pose 0.25) 1.1
       seen_once
     = (Raise ZeroDivisionError,
        with_window seen_once "left" [(1.0, 0.10, 0); (1.1, 0.25, 0)], []).
Proof.
  assert (Hsv : (0.25 - 0.10) / (1.1 - 1.0) > 0).
  { apply Rlt_gt, Rdiv_lt_0_compat; lra. }
  split; [apply fist_pose_is_fist; lra|].
  split; [change (~ 1.1 - -10 < 200 / 1000.0); lra|].
  split; [reflexivity|]. split; [lra|]. split; [exact Hsv|].
  rewrite (zero_threshold_raises zero_threshold_detector seen_once "Left"
             (fist_pose 0.25) 1.1 0.25 0 1.0 0.10 0 1.1 0.25 0).
  - reflexivity.
  - reflexivity.
  - apply fist_pose_size. lra.
  - apply fist_pose_avg_z.
  - apply fist_pose_is_fist. lra.
  - change (~ 1.1 - -10 < 200 / 1000.0). lra.
  - change (lower "Left") with "left".
    change (window_of seen_once "left") with [(1.0, 0.10, 0)].
    change (history_frames zero_threshold_detector) with 5%nat.
    rewrite deque_append_room by (simpl; lia). simpl. lia.
  - reflexivity.
  - reflexivity.
  - lra.
  - exact Hsv.
Qed.

(** *** A left fist coming closer over four frames *)

Lemma full_strength (s0 s1 t0 t1 : R) :
  0 < t1 - t0 -> 0.14 * (t1 - t0) <= s1 - s0 ->
  Rmin 1 (Rabs ((s1 - s0) / (t1 - t0)) / (2 * 0.07)) = 1.
Proof.
  intros Hdt Hgrow. apply Rmin_left.
  assert (Hsv : 0.14 <= (s1 - s0) / (t1 - t0)).
  { apply Rmult_le_reg_r with (t1 - t0); [done|].
    unfold Rdiv. rewrite Rmult_assoc, Rinv_l by lra. lra. }
  rewrite Rabs_pos_eq by lra.
  apply Rmult_le_reg_r with (2 * 0.07); [lra|].
  unfold Rdiv. rewrite Rmult_assoc, Rinv_l by lra. lra.
Qed.

Lemma fast_growth (s0 s1 t0 t1 : R) :
  0 < t1 - t0 -> 0.14 * (t1 - t0) <= s1 - s0 ->
  (s1 - s0) / (t1 - t0) > 0.07.
Proof.
  intros Hdt Hgrow.
  apply Rlt_gt, Rmult_lt_reg_r with (t1 - t0); [done|].
  unfold Rdiv. rewrite Rmult_assoc, Rinv_l by lra. lra.
Qed.

Lemma second_frame_punch :
  _update_and_detect game_detector "Left" (fist_pose 0.25) 1.1 seen_once
  = (Ok tt, punched_once, [punch "left" 1]).
Proof.
  rewrite (update_and_detect_decision game_detector seen_once "Left"
             (fist_pose 0.25) 1.1 0.25 0 1.0 0.10 0 1.1 0.25 0).
  all: game_constants.
  all: change (window_of seen_once "left") with [sample_A].
  all: rewrite ?deque_append_room by (simpl; lia).
  - rewrite bool_decide_eq_true_2 by (apply fast_growth; lra).
    rewrite full_strength by lra. reflexivity.
  - apply fist_pose_size. lra.
  - apply fist_pose_avg_z.
  - apply fist_pose_is_fist. lra.
  - change (~ 1.1 - -10 < 200 / 1000.0). lra.
  - lra.
  - simpl. lia.
  - reflexivity.
  - reflexivity.
  - lra.
Qed.

Lemma third_frame_suppressed :
  _update_and_detect game_detector "Left" (fist_pose 0.40) 1.15 punched_once
  = (Ok tt, cooling, []).
Proof.
  rewrite (update_and_detect_cooldown game_detector punched_once "Left"
             (fist_pose 0.40) 1.15 0.40 0).
  all: game_constants.
  - change (window_of punched_once "left") with [sample_A; sample_B].
    rewrite deque_append_room by (simpl; lia). reflexivity.
  - apply fist_pose_size. lra.
  - apply fist_pose_avg_z.
  - apply fist_pose_is_fist. lra.
  - change (1.15 - 1.1 < 200 / 1000.0). lra.
Qed.

Lemma fourth_frame_punch :
  _update_and_detect game_detector "Left" (fist_pose 0.55) 1.35 cooling
  = (Ok tt, punched_twice, [punch "left" 1]).
Proof.
  rewrite (update_and_detect_decision game_detector cooling "Left"
             (fist_pose 0.55) 1.35 0.55 0 1.0 0.10 0 1.35 0.55 0).
  all: game_constants.
  all: change (window_of cooling "left")
         with [sample_A; sample_B; sample_C].
  all: rewrite ?deque_append_room by (simpl; lia).
  - rewrite bool_decide_eq_true_2 by (apply fast_growth; lra).
    rewrite full_strength by lra. reflexivity.
  - apply fist_pose_size. lra.
  - apply fist_pose_avg_z.
  - apply fist_pose_is_fist. lra.
  - change (~ 1.35 - 1.1 < 200 / 1000.0). lra.
  - lra.
  - simpl. lia.
  - reflexivity.
  - reflexivity.
  - lra.
Qed.

Lemma process_single_hand (self : config) (h : hand) (t : R)
    (st st' : detector) (evs : list event) :
  _update_and_detect self (handedness h) (landmarks h) t st
    = (Ok tt, st', evs) ->
  process_hands self [h] t st = (Ok tt, st', evs).
Proof.
  intros Hstep. simpl. unfold mbind, M_bind. rewrite Hstep. simpl.
  by rewrite app_nil_r.
Qed.

(** The punch of the second frame is put; the third frame, 50 ms later, is
    inside the 200 ms cooldown; the fourth frame, 250 ms after the punch,
    punches again. *)
Example run_frames_demo :
  run_frames game_detector demo_frames detector_init =
    [(1.1, punch "left" 1); (1.35, punch "left" 1)].
Proof.
  unfold demo_frames. cbn [run_frames].
  rewrite (process_single_hand game_detector
             (mk_hand (fist_pose 0.10) "Left") 1.0 _ _ _
             first_frame_no_punch).
  rewrite (process_single_hand game_detector
             (mk_hand (fist_pose 0.25) "Left") 1.1 _ _ _
             second_frame_punch).
  rewrite (process_single_hand game_detector
             (mk_hand (fist_pose 0.40) "Left") 1.15 _ _ _
             third_frame_suppressed).
  rewrite (process_single_hand game_detector
             (mk_hand (fist_pose 0.55) "Left") 1.35 _ _ _
             fourth_frame_punch).
  reflexivity.
Qed.

(** The two punches of the four-frame run are 250 ms apart, the cooldown
    is 200 ms. *)
Lemma cooldown_invariant_witness :
  Sorted Rle (map snd demo_frames)
  /\ run_frames game_detector demo_frames detector_init !! 0%nat
       = Some (1.1, punch "left" 1)
  /\ run_frames game_detector demo_frames detector_init !! 1%nat
       = Some (1.35, punch "left" 1)
  /\ ~ Rabs (1.35 - 1.1) < cooldown_sec game_detector.
Proof.
  assert (Hsorted : Sorted Rle (map snd demo_frames)).
  { unfold demo_frames. cbn [map snd]. repeat constructor; lra. }
  assert (H0 : run_frames game_detector demo_frames detector_init !! 0%nat
               = Some (1.1, punch "left" 1))
    by (rewrite run_frames_demo; reflexivity).
  assert (H1 : run_frames game_detector demo_frames detector_init !! 1%nat
               = Some (1.35, punch "left" 1))
    by (rewrite run_frames_demo; reflexivity).
  split; [exact Hsorted|]. split; [exact H0|]. split; [exact H1|].
  exact (cooldown_invariant game_detector demo_frames Hsorted
           0%nat 1%nat 1.1 1.35 "left" 1 1 (O_S 0) H0 H1).
Defined.

(** *** Malformed landmark lists *)

(** An open or malformed hand only extends the window. *)
Lemma update_and_detect_no_fist (self : config) (st : detector)
    (handedness : string) (landmarks : list landmark) (t size z : R) :
  let hid := lower handedness in
  _hand_size landmarks = Ok size ->
  _avg_z landmarks = Ok z ->
  _is_fist landmarks = Ok false ->
  _update_and_detect self handedness landmarks t st =
    (Ok tt,
     with_window st hid
       (deque_append (history_frames self) (window_of st hid) (t, size, z)),
     []).
Proof.
  intros hid Hsize Hz Hfist.
  by rewrite (update_and_detect_sample _ _ _ _ _ _ _ _ Hsize Hz Hfist).
Qed.

(** A landmark list that is too short but not empty is a miss: the fist
    predicate is false, the sample is recorded, nothing is put and nothing
    is raised. *)
Lemma short_landmarks_no_punch (self : config) (st : detector)
    (handedness : string) (landmarks : list landmark) (t : R) :
  landmarks <> [] ->
  (length landmarks < 21)%nat ->
  _is_fist landmarks = Ok false
  /\ exists size z,
       _hand_size landmarks = Ok size
       /\ _avg_z landmarks = Ok z
       /\ _update_and_detect self handedness landmarks t st =
            (Ok tt,
             with_window st (lower handedness)
               (deque_append (history_frames self)
                  (window_of st (lower handedness)) (t, size, z)),
             []).
Proof.
  intros Hne Hshort.
  pose proof (is_fist_short landmarks Hshort) as Hfist.
  split; [done|].
  destruct (hand_size_nonempty landmarks Hne) as [size Hsize].
  pose proof (avg_z_nonempty landmarks Hne) as Hz.
  exists size. eexists. split; [done|]. split; [done|].
  by apply update_and_detect_no_fist.
Qed.

(** C8, the failing input: an observation with an empty landmark list.
    The fist predicate alone returns false on it, but [_update_and_detect]
    calls [_hand_size] first, and [max] of an empty sequence raises
    [ValueError]: the exception leaves [process_hands] before the other
    hands of the frame are processed, it ends the frame loop, and the whole
    frame step raises as well; [_compute_hand_state] raises [IndexError] on
    the same observation. *)
Theorem empty_landmarks_raise (self : config) (st : detector)
    (handedness : string) (t : R) (rest : list hand)
    (more : list (list hand * R))
    (prev_smoothed : gmap string (list landmark)) :
  _is_fist [] = Ok false
  /\ _update_and_detect self handedness [] t st =
       (Raise ValueError, with_new_hand st (lower handedness), [])
  /\ process_hands self (mk_hand [] handedness :: rest) t st =
       (Raise ValueError, with_new_hand st (lower handedness), [])
  /\ run_frames self ((mk_hand [] handedness :: rest, t) :: more) st = []
  /\ process_frame self [mk_hand [] handedness] t prev_smoothed st =
       (Raise ValueError, with_new_hand st (lower handedness), [])
  /\ _compute_hand_state (mk_hand [] handedness :: rest) = Raise IndexError.
Proof.
  assert (Hstep :
    _update_and_detect self handedness [] t st =
      (Raise ValueError, with_new_hand st (lower handedness), []))
    by (by apply update_and_detect_raise_size).
  assert (Hhands : forall rest',
    process_hands self (mk_hand [] handedness :: rest') t st =
      (Raise ValueError, with_new_hand st (lower handedness), [])).
  { intros rest'. simpl. unfold mbind, M_bind. by rewrite Hstep. }
  split; [reflexivity|]. split; [done|]. split; [done|]. split.
  - cbn [run_frames]. by rewrite Hhands.
  - split; [|reflexivity].
    unfold process_frame. rewrite smooth_single. cbn [fst snd].
    change (smooth_one prev_smoothed (mk_hand [] handedness))
      with (mk_hand [] handedness).
    unfold mbind at 1. unfold M_bind at 1. by rewrite Hhands.
Qed.

(** ** Hand size and average depth *)

Lemma fold_max_init (xs : list R) (x : R) : x <= fold_left Rmax xs x.
Proof.
  revert x. induction xs as [|y xs IH]; intros x; simpl; [lra|].
  pose proof (IH (Rmax x y)). pose proof (Rmax_l x y). lra.
Qed.

Lemma fold_max_elem (xs : list R) (x y : R) :
  y ∈ xs -> y <= fold_left Rmax xs x.
Proof.
  revert x. induction xs as [|z xs IH]; intros x Hy; simpl.
  - by apply elem_of_nil in Hy.
  - apply elem_of_cons in Hy as [->|Hy]; [|by apply IH].
    pose proof (fold_max_init xs (Rmax x z)). pose proof (Rmax_r x z). lra.
Qed.

Lemma fold_min_init (xs : list R) (x : R) : fold_left Rmin xs x <= x.
Proof.
  revert x. induction xs as [|y xs IH]; intros x; simpl; [lra|].
  pose proof (IH (Rmin x y)). pose proof (Rmin_l x y). lra.
Qed.

Lemma fold_min_elem (xs : list R) (x y : R) :
  y ∈ xs -> fold_left Rmin xs x <= y.
Proof.
  revert x. induction xs as [|z xs IH]; intros x Hy; simpl.
  - by apply elem_of_nil in Hy.
  - apply elem_of_cons in Hy as [->|Hy]; [|by apply IH].
    pose proof (fold_min_init xs (Rmin x z)). pose proof (Rmin_r x z). lra.
Qed.

Lemma py_max_upper (xs : list R) (m y : R) :
  py_max xs = Ok m -> y ∈ xs -> y <= m.
Proof.
  destruct xs as [|x rest]; simpl; [done|]. intros [= <-] Hy.
  apply elem_of_cons in Hy as [->|Hy];
    [apply fold_max_init | by apply fold_max_elem].
Qed.

Lemma py_min_lower (xs : list R) (m y : R) :
  py_min xs = Ok m -> y ∈ xs -> m <= y.
Proof.
  destruct xs as [|x rest]; simpl; [done|]. intros [= <-] Hy.
  apply elem_of_cons in Hy as [->|Hy];
    [apply fold_min_init | by apply fold_min_elem].
Qed.

Lemma hand_size_eq (lm : landmark) (rest : list landmark) :
  _hand_size (lm :: rest) =
    Ok (sqrt ((fold_left Rmax (map lm0 rest) (lm0 lm)
               - fold_left Rmin (map lm0 rest) (lm0 lm)) ^ 2
              + (fold_left Rmax (map lm1 rest) (lm1 lm)
                 - fold_left Rmin (map lm1 rest) (lm1 lm)) ^ 2)).
Proof. reflexivity. Qed.

Lemma square_le (d w : R) : - w <= d <= w -> d ^ 2 <= w ^ 2.
Proof. intros [H1 H2]. simpl. nra. Qed.

(** X1: on a non-empty landmark list [_hand_size] returns a non-negative
    size, and no two landmarks of the list are farther apart in the plane
    than that size (the size is the diagonal of their bounding box). *)
Theorem hand_size_bounds_spread (landmarks : list landmark) :
  landmarks <> [] ->
  exists size,
    _hand_size landmarks = Ok size
    /\ 0 <= size
    /\ forall a b : landmark,
         a ∈ landmarks -> b ∈ landmarks -> sqrt (dist2 a b) <= size.
Proof.
  destruct landmarks as [|lm rest]; [done|]. intros _.
  rewrite hand_size_eq. eexists. split; [reflexivity|].
  split; [apply sqrt_pos|].
  intros a b Ha Hb. apply sqrt_le_1_alt. unfold dist2.
  set (xs := map lm0 rest). set (ys := map lm1 rest).
  assert (Hx : forall c : landmark, c ∈ lm :: rest ->
    fold_left Rmin xs (lm0 lm) <= lm0 c <= fold_left Rmax xs (lm0 lm)).
  { intros c Hc. apply elem_of_cons in Hc as [->|Hc].
    - split; [apply fold_min_init | apply fold_max_init].
    - assert (lm0 c ∈ xs) by (by apply list_elem_of_fmap_2).
      split; [by apply fold_min_elem | by apply fold_max_elem]. }
  assert (Hy : forall c : landmark, c ∈ lm :: rest ->
    fold_left Rmin ys (lm1 lm) <= lm1 c <= fold_left Rmax ys (lm1 lm)).
  { intros c Hc. apply elem_of_cons in Hc as [->|Hc].
    - split; [apply fold_min_init | apply fold_max_init].
    - assert (lm1 c ∈ ys) by (by apply list_elem_of_fmap_2).
      split; [by apply fold_min_elem | by apply fold_max_elem]. }
  pose proof (Hx a Ha). pose proof (Hx b Hb).
  pose proof (Hy a Ha). pose proof (Hy b Hb).
  apply Rplus_le_compat; apply square_le; lra.
Qed.

(** The spread of the first frame of the demo fist. *)
Lemma hand_size_bounds_spread_witness :
  exists size,
    _hand_size (fist_pose 0.25) = Ok size
    /\ 0 <= size
    /\ forall a b : landmark,
         a ∈ fist_pose 0.25 -> b ∈ fist_pose 0.25 ->
         sqrt (dist2 a b) <= size.
Proof. apply (hand_size_bounds_spread (fist_pose 0.25)). discriminate. Defined.

Lemma Rmax_shift (x y a : R) : Rmax (x + a) (y + a) = Rmax x y + a.
Proof. unfold Rmax. destruct (Rle_dec _ _), (Rle_dec _ _); lra. Qed.

Lemma Rmin_shift (x y a : R) : Rmin (x + a) (y + a) = Rmin x y + a.
Proof. unfold Rmin. destruct (Rle_dec _ _), (Rle_dec _ _); lra. Qed.

Lemma fold_max_shift (xs : list R) (x a : R) :
  fold_left Rmax (map (fun y => y + a) xs) (x + a)
  = fold_left Rmax xs x + a.
Proof.
  revert x. induction xs as [|y xs IH]; intros x; simpl; [done|].
  by rewrite Rmax_shift, IH.
Qed.

Lemma fold_min_shift (xs : list R) (x a : R) :
  fold_left Rmin (map (fun y => y + a) xs) (x + a)
  = fold_left Rmin xs x + a.
Proof.
  revert x. induction xs as [|y xs IH]; intros x; simpl; [done|].
  by rewrite Rmin_shift, IH.
Qed.

(** X2: [_hand_size] does not depend on where the hand is: moving every
    landmark by the same offset [(a, b, c)] leaves the result unchanged,
    the size of a non-empty list as well as the [ValueError] of the empty
    one. *)
Theorem hand_size_translation_invariant (landmarks : list landmark)
    (a b c : R) :
  _hand_size (map (shift a b c) landmarks) = _hand_size landmarks.
Proof.
  destruct landmarks as [|lm rest]; [reflexivity|].
  rewrite map_cons, !hand_size_eq. rewrite !map_map.
  change (map (fun x => lm0 (shift a b c x)) rest)
    with (map (fun x => lm0 x + a) rest).
  change (map (fun x => lm1 (shift a b c x)) rest)
    with (map (fun x => lm1 x + b) rest).
  change (lm0 (shift a b c lm)) with (lm0 lm + a).
  change (lm1 (shift a b c lm)) with (lm1 lm + b).
  rewrite <- !(map_map lm0 (fun y => y + a)).
  rewrite <- !(map_map lm1 (fun y => y + b)).
  rewrite !fold_max_shift, !fold_min_shift.
  do 2 f_equal. ring.
Qed.

Lemma fold_sum_init (xs : list R) (a : R) :
  fold_left Rplus xs a = a + fold_left Rplus xs 0.
Proof.
  revert a. induction xs as [|x xs IH]; intros a; simpl; [lra|].
  rewrite (IH (a + x)), (IH (0 + x)). lra.
Qed.

Lemma py_sum_cons (x : R) (xs : list R) : py_sum (x :: xs) = x + py_sum xs.
Proof. unfold py_sum. simpl. rewrite fold_sum_init. lra. Qed.

Lemma py_sum_nonneg (xs : list R) :
  (forall x, x ∈ xs -> 0 <= x) -> 0 <= py_sum xs.
Proof.
  induction xs as [|x xs IH]; intros Hall.
  - unfold py_sum. simpl. lra.
  - rewrite py_sum_cons.
    pose proof (Hall x ltac:(left)).
    assert (0 <= py_sum xs) by (apply IH; intros y Hy; apply Hall; by right).
    lra.
Qed.

Lemma py_sum_nonpos (xs : list R) :
  (forall x, x ∈ xs -> x <= 0) -> py_sum xs <= 0.
Proof.
  induction xs as [|x xs IH]; intros Hall.
  - unfold py_sum. simpl. lra.
  - rewrite py_sum_cons.
    pose proof (Hall x ltac:(left)).
    assert (py_sum xs <= 0) by (apply IH; intros y Hy; apply Hall; by right).
    lra.
Qed.

(** X3: [_avg_z] keeps the side of the hand: on a non-empty landmark list
    the result is not negative when no z is negative, and not positive
    when no z is positive. *)
Theorem avg_z_keeps_sign (landmarks : list landmark) :
  landmarks <> [] ->
  exists z,
    _avg_z landmarks = Ok z
    /\ ((forall lm, lm ∈ landmarks -> 0 <= lm2 lm) -> 0 <= z)
    /\ ((forall lm, lm ∈ landmarks -> lm2 lm <= 0) -> z <= 0).
Proof.
  intros Hne. rewrite avg_z_nonempty by done.
  eexists. split; [reflexivity|].
  assert (Hn : 0 < INR (length landmarks)).
  { apply lt_0_INR. destruct landmarks; simpl; [done|lia]. }
  pose proof (Rinv_0_lt_compat _ Hn) as Hinv.
  split; intros Hall.
  - assert (Hsum : 0 <= py_sum (map lm2 landmarks)).
    { apply py_sum_nonneg. intros x Hx.
      apply list_elem_of_fmap in Hx as (lm & -> & Hlm). by apply Hall. }
    unfold Rdiv. nra.
  - assert (Hsum : py_sum (map lm2 landmarks) <= 0).
    { apply py_sum_nonpos. intros x Hx.
      apply list_elem_of_fmap in Hx as (lm & -> & Hlm). by apply Hall. }
    unfold Rdiv. nra.
Qed.

(** Three landmarks in front of the wrist, at depths -0.1, -0.2 and
    -0.3. *)
Lemma avg_z_keeps_sign_witness :
  exists z,
    _avg_z [(0, 0, -0.1); (0, 0, -0.2); (0, 0, -0.3)] = Ok z
    /\ ((forall lm, lm ∈ [(0, 0, -0.1); (0, 0, -0.2); (0, 0, -0.3)] ->
         0 <= lm2 lm) -> 0 <= z)
    /\ ((forall lm, lm ∈ [(0, 0, -0.1); (0, 0, -0.2); (0, 0, -0.3)] ->
         lm2 lm <= 0) -> z <= 0).
Proof.
  apply (avg_z_keeps_sign [(0, 0, -0.1); (0, 0, -0.2); (0, 0, -0.3)]).
  discriminate.
Defined.

(** ** The detector's tables *)

Lemma deque_append_length {A : Type} (maxlen : nat) (d : list A) (x : A) :
  (length d <= maxlen)%nat -> (length (deque_append maxlen d x) <= maxlen)%nat.
Proof.
  intros Hd. unfold deque_append.
  destruct (decide _) as [Hlt|Hge]; [|lia].
  destruct d as [|y d]; simpl in *; [lia|].
  rewrite length_app. simpl. lia.
Qed.

Lemma deque_append_last {A : Type} (maxlen : nat) (d : list A) (x : A) :
  (0 < maxlen)%nat -> last (deque_append maxlen d x) = Some x.
Proof.
  intros Hpos. unfold deque_append.
  destruct (decide _) as [Hlt|Hge]; [|apply last_snoc].
  destruct d as [|y d]; simpl in *; [lia|]. apply last_snoc.
Qed.

Lemma long_list_ends {A : Type} (l : list A) :
  ~ (length l < 2)%nat -> exists a b, head l = Some a /\ last l = Some b.
Proof.
  intros Hlen. destruct l as [|a l]; simpl in Hlen; [lia|].
  exists a. destruct (last (a :: l)) as [b|] eqn:Hb; [eauto|].
  by apply last_None in Hb.
Qed.

(** Every way [_update_and_detect] can end on a non-empty landmark list:
    the window of the hand got the sample, and either nothing was put, or
    the division by a zero threshold raised, or one punch was put. *)
Lemma update_and_detect_outcome (self : config) (st : detector)
    (handedness : string) (landmarks : list landmark) (t : R) :
  landmarks <> [] ->
  let hid := lower handedness in
  exists size z,
    _hand_size landmarks = Ok size
    /\ _avg_z landmarks = Ok z
    /\ let window :=
         deque_append (history_frames self) (window_of st hid) (t, size, z) in
       _update_and_detect self handedness landmarks t st
         = (Ok tt, with_window st hid window, [])
       \/ (velocity_threshold self = 0
           /\ _update_and_detect self handedness landmarks t st
                = (Raise ZeroDivisionError, with_window st hid window, []))
       \/ (exists size_velocity,
             velocity_threshold self <> 0
             /\ _is_fist landmarks = Ok true
             /\ ~ t - last_punch_of st hid < cooldown_sec self
             /\ (2 <= length window)%nat
             /\ _update_and_detect self handedness landmarks t st
                  = (Ok tt, with_punch st hid window t,
                     [punch hid
                        (py_min2 1.0
                           (Rabs size_velocity
                            / (velocity_threshold self * 2)))])).
Proof.
  intros Hne hid.
  destruct (hand_size_nonempty landmarks Hne) as [size Hsize].
  pose proof (avg_z_nonempty landmarks Hne) as Hz.
  destruct (is_fist_total landmarks) as [fist Hfist].
  exists size. eexists. split; [done|]. split; [done|]. intros window.
  rewrite (update_and_detect_sample _ _ _ _ _ _ _ _ Hsize Hz Hfist).
  cbv zeta. fold hid. fold window.
  destruct fist; simpl negb; cbv iota; [|by left].
  destruct (decide (_ < cooldown_sec self)) as [|Hcool]; [by left|].
  destruct (decide (length window < 2)%nat) as [|Hlen]; [by left|].
  destruct (long_list_ends window Hlen)
    as ([[t0 s0] z0] & [[t1 s1] z1] & -> & ->).
  destruct (decide (t1 - t0 <= 0)); [by left|].
  destruct (_ || _); [|by left].
  destruct (decide (velocity_threshold self * 2 = 0)) as [Hzero|Hnz].
  - right. left. split; [lra|done].
  - right. right. exists ((s1 - s0) / (t1 - t0)).
    split; [lra|]. split; [done|]. split; [done|]. split; [lia|done].
Qed.

Lemma with_new_hand_bounded (n : nat) (st : detector) (hid : string) :
  windows_bounded n st -> windows_bounded n (with_new_hand st hid).
Proof.
  intros Hb. unfold with_new_hand. destruct (decide _); [done|].
  intros k w. simpl. destruct (decide (hid = k)) as [<-|Hne].
  - rewrite lookup_insert_eq. intros [= <-]. simpl. lia.
  - rewrite lookup_insert_ne by done. apply Hb.
Qed.

Lemma window_of_bounded (n : nat) (st : detector) (hid : string) :
  windows_bounded n st -> (length (window_of st hid) <= n)%nat.
Proof.
  intros Hb. unfold window_of.
  destruct (_history st !! hid) as [w|] eqn:Hw; simpl; [by eapply Hb|lia].
Qed.

Lemma insert_window_bounded (n : nat) (st : detector) (hid : string)
    (w : list sample) (lp : gmap string R) :
  windows_bounded n st -> (length w <= n)%nat ->
  windows_bounded n (mk_detector (<[hid := w]> (_history st)) lp).
Proof.
  intros Hb Hw k v. simpl. destruct (decide (hid = k)) as [<-|Hne].
  - rewrite lookup_insert_eq. by intros [= <-].
  - rewrite lookup_insert_ne by done. apply Hb.
Qed.

Lemma update_and_detect_bounded (self : config) (st : detector)
    (handedness : string) (landmarks : list landmark) (t : R) :
  windows_bounded (history_frames self) st ->
  windows_bounded (history_frames self)
    (_update_and_detect self handedness landmarks t st).1.2.
Proof.
  intros Hb. destruct landmarks as [|lm rest].
  - rewrite (update_and_detect_raise_size _ _ _ _ _ ValueError) by done.
    by apply with_new_hand_bounded.
  - destruct (update_and_detect_outcome self st handedness (lm :: rest) t)
      as (size & z & _ & _ & Hcases); [done|].
    pose proof (deque_append_length (history_frames self)
                  (window_of st (lower handedness)) (t, size, z)
                  (window_of_bounded _ _ _ Hb)) as Hlen.
    destruct Hcases as [-> | [[_ ->] | (sv & _ & _ & _ & _ & ->)]];
      by apply insert_window_bounded.
Qed.

Lemma process_hands_bounded (self : config) (hands_data : list hand)
    (t : R) (st : detector) :
  windows_bounded (history_frames self) st ->
  windows_bounded (history_frames self)
    (process_hands self hands_data t st).1.2.
Proof.
  revert st. induction hands_data as [|h rest IH]; intros st Hb; [done|].
  simpl. unfold mbind, M_bind.
  pose proof (update_and_detect_bounded self st (handedness h) (landmarks h)
                t Hb) as Hstep.
  destruct (_update_and_detect self (handedness h) (landmarks h) t st)
    as [[[[]|e] st1] ev1]; simpl in Hstep; [|done].
  specialize (IH st1 Hstep).
  by destruct (process_hands self rest t st1) as [[r2 st2] ev2].
Qed.

(** X4: the motion history stays bounded: in every state the detector can
    reach from a fresh one, whatever frames it processed and whether or not
    a call raised, each hand's window holds at most [history_frames]
    samples. *)
Theorem history_windows_bounded (self : config) (st : detector)
    (hid : string) (w : list sample) :
  reachable self st ->
  _history st !! hid = Some w ->
  (length w <= history_frames self)%nat.
Proof.
  intros Hreach. revert hid w. change (windows_bounded (history_frames self) st).
  induction Hreach as [|st st' hands_data now r evs _ IH Hrun].
  - intros hid w Hw. simpl in Hw. by rewrite lookup_empty in Hw.
  - pose proof (process_hands_bounded self hands_data now st IH) as Hb.
    by rewrite Hrun in Hb.
Qed.

Lemma punched_twice_reachable : reachable game_detector punched_twice.
Proof.
  eapply reach_frame;
    [|exact (process_single_hand game_detector
               (mk_hand (fist_pose 0.55) "Left") 1.35 _ _ _
               fourth_frame_punch)].
  eapply reach_frame;
    [|exact (process_single_hand game_detector
               (mk_hand (fist_pose 0.40) "Left") 1.15 _ _ _
               third_frame_suppressed)].
  eapply reach_frame;
    [|exact (process_single_hand game_detector
               (mk_hand (fist_pose 0.25) "Left") 1.1 _ _ _
               second_frame_punch)].
  eapply reach_frame;
    [|exact (process_single_hand game_detector
               (mk_hand (fist_pose 0.10) "Left") 1.0 _ _ _
               first_frame_no_punch)].
  constructor.
Qed.

(** The window after the four demo frames holds 4 samples, the bound
    is 5. *)
Lemma history_windows_bounded_witness :
  (length [sample_A; sample_B; sample_C; sample_D]
   <= history_frames game_detector)%nat.
Proof.
  apply (history_windows_bounded game_detector punched_twice "left").
  - exact punched_twice_reachable.
  - reflexivity.
Defined.

(** X5: a call of [_update_and_detect] on a non-empty landmark list always
    records the sample [(t, size, z)], fist or not, punch or not, even when
    the call ends in [ZeroDivisionError]: afterwards the hand's window is the
    old window with the sample appended (the newest entry when
    [history_frames] is positive), and the windows and last-punch times of
    all other hands are untouched. *)
Theorem update_and_detect_records_sample (self : config) (st : detector)
    (handedness : string) (landmarks : list landmark) (t : R) :
  landmarks <> [] ->
  let hid := lower handedness in
  let st' := (_update_and_detect self handedness landmarks t st).1.2 in
  exists size z,
    _hand_size landmarks = Ok size
    /\ _avg_z landmarks = Ok z
    /\ _history st' !! hid =
         Some (deque_append (history_frames self) (window_of st hid)
                 (t, size, z))
    /\ ((0 < history_frames self)%nat ->
        last (window_of st' hid) = Some (t, size, z))
    /\ forall other : string,
         other <> hid ->
         _history st' !! other = _history st !! other
         /\ _last_punch st' !! other = _last_punch st !! other.
Proof.
  intros Hne hid st'.
  destruct (update_and_detect_outcome self st handedness landmarks t Hne)
    as (size & z & Hsize & Hz & Hcases).
  exists size, z. split; [done|]. split; [done|]. fold hid in Hcases.
  cbv zeta in Hcases.
  set (window := deque_append (history_frames self) (window_of st hid)
                   (t, size, z)) in *.
  assert (Hhist : _history st' = <[hid := window]> (_history st)
                  /\ forall other, other <> hid ->
                       _last_punch st' !! other = _last_punch st !! other).
  { subst st'.
    destruct Hcases as [-> | [[_ ->] | (sv & _ & _ & _ & _ & ->)]]; simpl;
      (split; [done|]); intros other Hother; try done.
    by rewrite lookup_insert_ne. }
  destruct Hhist as [Hhist Hlp].
  split; [by rewrite Hhist, lookup_insert_eq|]. split.
  - intros Hpos. unfold window_of. rewrite Hhist, lookup_insert_eq. simpl.
    by apply deque_append_last.
  - intros other Hother. split; [|by apply Hlp].
    by rewrite Hhist, lookup_insert_ne.
Qed.

(** The second demo frame: the window becomes the two samples. *)
Lemma update_and_detect_records_sample_witness :
  let st' :=
    (_update_and_detect game_detector "Left" (fist_pose 0.25) 1.1
       seen_once).1.2 in
  exists size z,
    _hand_size (fist_pose 0.25) = Ok size
    /\ _avg_z (fist_pose 0.25) = Ok z
    /\ _history st' !! lower "Left" =
         Some (deque_append (history_frames game_detector)
                 (window_of seen_once (lower "Left")) (1.1, size, z))
    /\ ((0 < history_frames game_detector)%nat ->
        last (window_of st' (lower "Left")) = Some (1.1, size, z))
    /\ forall other : string,
         other <> lower "Left" ->
         _history st' !! other = _history seen_once !! other
         /\ _last_punch st' !! other = _last_punch seen_once !! other.
Proof.
  apply (update_and_detect_records_sample game_detector seen_once "Left"
           (fist_pose 0.25) 1.1).
  discriminate.
Defined.

Lemma update_and_detect_short_history (self : config) (st : detector)
    (handedness : string) (landmarks : list landmark) (t : R) :
  (history_frames self <= 1)%nat ->
  windows_bounded (history_frames self) st ->
  (_update_and_detect self handedness landmarks t st).2 = [].
Proof.
  intros Hone Hb. destruct landmarks as [|lm rest].
  - by rewrite (update_and_detect_raise_size _ _ _ _ _ ValueError).
  - destruct (update_and_detect_outcome self st handedness (lm :: rest) t)
      as (size & z & _ & _ & Hcases); [done|].
    pose proof (deque_append_length (history_frames self)
                  (window_of st (lower handedness)) (t, size, z)
                  (window_of_bounded _ _ _ Hb)) as Hlen.
    destruct Hcases as [-> | [[_ ->] | (sv & _ & _ & _ & Hlong & _)]];
      [done|done|lia].
Qed.

Lemma process_hands_short_history (self : config) (hands_data : list hand)
    (t : R) (st : detector) :
  (history_frames self <= 1)%nat ->
  windows_bounded (history_frames self) st ->
  (process_hands self hands_data t st).2 = [].
Proof.
  intros Hone. revert st.
  induction hands_data as [|h rest IH]; intros st Hb; [done|].
  simpl. unfold mbind, M_bind.
  pose proof (update_and_detect_bounded self st (handedness h) (landmarks h)
                t Hb) as Hstep.
  pose proof (update_and_detect_short_history self st (handedness h)
                (landmarks h) t Hone Hb) as Hnone.
  destruct (_update_and_detect self (handedness h) (landmarks h) t st)
    as [[[[]|e] st1] ev1]; simpl in Hstep, Hnone; [|done].
  specialize (IH st1 Hstep).
  destruct (process_hands self rest t st1) as [[r2 st2] ev2].
  simpl in *. by rewrite Hnone, IH.
Qed.

Lemma run_frames_short_history (self : config)
    (frames : list (list hand * R)) (st : detector) :
  (history_frames self <= 1)%nat ->
  windows_bounded (history_frames self) st ->
  run_frames self frames st = [].
Proof.
  intros Hone. revert st.
  induction frames as [|[hands_data now] rest IH]; intros st Hb; [done|].
  cbn [run_frames].
  pose proof (process_hands_bounded self hands_data now st Hb) as Hstep.
  pose proof (process_hands_short_history self hands_data now st Hone Hb)
    as Hnone.
  destruct (process_hands self hands_data now st) as [[[[]|e] st1] evs];
    simpl in Hstep, Hnone; subst evs; [|done].
  simpl. by apply IH.
Qed.

(** X6: a detector built with [history_frames] 0 or 1 never puts a punch,
    whatever frames it is given: its windows never hold the two samples a
    velocity needs. *)
Theorem short_history_never_punches (self : config)
    (frames : list (list hand * R)) :
  (history_frames self <= 1)%nat ->
  run_frames self frames detector_init = [].
Proof.
  intros Hone. apply run_frames_short_history; [done|].
  intros hid w Hw. simpl in Hw. by rewrite lookup_empty in Hw.
Qed.

(** The four demo frames on a detector with a one-sample history. *)
Lemma short_history_never_punches_witness :
  run_frames (PunchDetector 0.07 200 1) demo_frames detector_init = [].
Proof.
  apply (short_history_never_punches (PunchDetector 0.07 200 1) demo_frames).
  simpl. lia.
Defined.

(** ** What is put on the queue *)

Lemma py_min2_range (q : R) : 0 <= q -> 0 <= py_min2 1.0 q <= 1.
Proof. intros Hq. unfold py_min2. destruct (decide (q < 1.0)); lra. Qed.

Lemma update_and_detect_events (self : config) (st : detector)
    (handedness : string) (landmarks : list landmark) (t : R) :
  let evs := (_update_and_detect self handedness landmarks t st).2 in
  (length evs <= 1)%nat
  /\ (0 < velocity_threshold self ->
      Forall (good_event (lower handedness)) evs)
  /\ forall h s, punch h s ∈ evs -> h = lower handedness.
Proof.
  destruct landmarks as [|lm rest].
  - rewrite (update_and_detect_raise_size _ _ _ _ _ ValueError) by done.
    simpl. split; [lia|]. split; [by constructor|].
    intros h s Hin. by apply elem_of_nil in Hin.
  - destruct (update_and_detect_outcome self st handedness (lm :: rest) t)
      as (size & z & _ & _ & Hcases); [done|].
    destruct Hcases as [-> | [[_ ->] | (sv & _ & _ & _ & _ & ->)]]; simpl.
    1, 2: split; [lia|]; split; [by constructor|];
          intros h s Hin; by apply elem_of_nil in Hin.
    split; [lia|]. split.
    + intros Hthr. constructor; [|constructor]. split; [done|].
      apply py_min2_range. apply Rmult_le_pos; [apply Rabs_pos|].
      apply Rlt_le, Rinv_0_lt_compat. lra.
    + intros h s Hin. apply list_elem_of_singleton in Hin. by injection Hin.
Qed.

Lemma process_hands_events (self : config) (hands_data : list hand) (t : R)
    (st : detector) :
  let evs := (process_hands self hands_data t st).2 in
  (length evs <= length hands_data)%nat
  /\ (0 < velocity_threshold self ->
      forall h s, punch h s ∈ evs -> 0 <= s <= 1)
  /\ forall h s, punch h s ∈ evs -> h ∈ labels hands_data.
Proof.
  revert st. induction hands_data as [|hd rest IH]; intros st.
  - simpl. split; [lia|].
    split; intros; match goal with H : _ ∈ [] |- _ =>
      by apply elem_of_nil in H end.
  - simpl. unfold mbind, M_bind.
    destruct (update_and_detect_events self st (handedness hd) (landmarks hd)
                t) as (Hlen & Hgood & Hlab).
    destruct (_update_and_detect self (handedness hd) (landmarks hd) t st)
      as [[r1 st1] ev1]. simpl in Hlen, Hgood, Hlab.
    assert (Hhead : forall h s, punch h s ∈ ev1 ->
              h ∈ labels (hd :: rest)
              /\ (0 < velocity_threshold self -> 0 <= s <= 1)).
    { intros h s Hin. split.
      - rewrite (Hlab h s Hin). unfold labels. simpl. set_solver.
      - intros Hthr. specialize (Hgood Hthr).
        rewrite Forall_forall in Hgood. by destruct (Hgood _ Hin). }
    destruct r1 as [[]|e]; simpl.
    + destruct (IH st1) as (IHlen & IHgood & IHlab).
      destruct (process_hands self rest t st1) as [[r2 st2] ev2].
      simpl in *. split; [rewrite length_app; lia|]. split.
      * intros Hthr h s Hin. apply elem_of_app in Hin as [Hin|Hin].
        -- by apply (Hhead h s Hin).
        -- by apply (IHgood Hthr h s).
      * intros h s Hin. apply elem_of_app in Hin as [Hin|Hin].
        -- by apply (Hhead h s Hin).
        -- specialize (IHlab h s Hin). unfold labels in *. simpl.
           set_solver.
    + split; [lia|]. split.
      * intros Hthr h s Hin. by apply (Hhead h s Hin).
      * intros h s Hin. by apply (Hhead h s Hin).
Qed.

(** X7: with a positive velocity threshold every punch a run puts on the
    queue has a strength between 0 and 1, from whatever detector state the
    run starts. *)
Theorem punch_strength_in_range (self : config)
    (frames : list (list hand * R)) (st : detector) (t : R) (h : string)
    (s : R) :
  0 < velocity_threshold self ->
  (t, punch h s) ∈ run_frames self frames st ->
  0 <= s <= 1.
Proof.
  intros Hthr. revert st.
  induction frames as [|[hands_data now] rest IH]; intros st Hin.
  - by apply elem_of_nil in Hin.
  - cbn [run_frames] in Hin.
    destruct (process_hands_events self hands_data now st)
      as (_ & Hgood & _).
    destruct (process_hands self hands_data now st) as [[r st1] evs].
    simpl in Hgood.
    assert (Hhere : (t, punch h s) ∈ map (pair now) evs -> 0 <= s <= 1).
    { intros Hin'. apply list_elem_of_fmap in Hin' as (e & He & Hin').
      injection He as Ht He. subst e. by apply (Hgood Hthr h s). }
    destruct r as [[]|e]; [|by apply Hhere].
    apply elem_of_app in Hin as [Hin|Hin]; [by apply Hhere|by eapply IH].
Qed.

(** The first punch of the demo run has strength 1. *)
Lemma punch_strength_in_range_witness :
  (1.1, punch "left" 1) ∈ run_frames game_detector demo_frames detector_init
  /\ 0 <= 1 <= 1.
Proof.
  assert (Hin : (1.1, punch "left" 1)
                ∈ run_frames game_detector demo_frames detector_init)
    by (rewrite run_frames_demo; left).
  split; [exact Hin|].
  apply (punch_strength_in_range game_detector demo_frames detector_init
           1.1 "left" 1); [|exact Hin].
  change (0 < 0.07). lra.
Defined.

(** X8: one [process_hands] call puts at most one punch per observation,
    and only for hand labels of that frame: the [hand] of every event is
    the lower-cased handedness of one of the observations. *)
Theorem process_hands_events_of_frame (self : config)
    (hands_data : list hand) (t : R) (st : detector) :
  let evs := (process_hands self hands_data t st).2 in
  (length evs <= length hands_data)%nat
  /\ forall h s, punch h s ∈ evs -> h ∈ labels hands_data.
Proof.
  destruct (process_hands_events self hands_data t st) as (Hlen & _ & Hlab).
  by split.
Qed.

(** X9: three guards each keep a call of [_update_and_detect] from putting
    anything, whatever the motion: the fist predicate is false, or the hand
    punched less than [cooldown_sec] ago, or the hand has no window yet
    (first sighting).  In each case the last-punch table is unchanged. *)
Theorem update_and_detect_guards (self : config) (st : detector)
    (handedness : string) (landmarks : list landmark) (t : R) :
  let hid := lower handedness in
  _is_fist landmarks = Ok false
  \/ t - last_punch_of st hid < cooldown_sec self
  \/ _history st !! hid = None ->
  (_update_and_detect self handedness landmarks t st).2 = []
  /\ _last_punch (_update_and_detect self handedness landmarks t st).1.2
     = _last_punch st.
Proof.
  intros hid Hguard. destruct landmarks as [|lm rest].
  - rewrite (update_and_detect_raise_size _ _ _ _ _ ValueError) by done.
    simpl. split; [done|]. unfold with_new_hand. by destruct (decide _).
  - destruct (update_and_detect_outcome self st handedness (lm :: rest) t)
      as (size & z & _ & _ & Hcases); [done|].
    fold hid in Hcases.
    destruct Hcases as [-> | [[_ ->] | (sv & _ & Hfist & Hcool & Hlen & _)]];
      [done|done|].
    exfalso. destruct Hguard as [Hno | [Hin | Hnew]].
    + rewrite Hfist in Hno. discriminate.
    + done.
    + unfold window_of in Hlen. rewrite Hnew in Hlen. simpl in Hlen.
      unfold deque_append in Hlen.
      destruct (decide _); simpl in Hlen; lia.
Qed.

(** The third demo frame, 50 ms after the punch. *)
Lemma update_and_detect_guards_witness :
  (_update_and_detect game_detector "Left" (fist_pose 0.40) 1.15
     punched_once).2 = []
  /\ _last_punch
       (_update_and_detect game_detector "Left" (fist_pose 0.40) 1.15
          punched_once).1.2
     = _last_punch punched_once.
Proof.
  apply (update_and_detect_guards game_detector punched_once "Left"
           (fist_pose 0.40) 1.15).
  right. left. change (1.15 - 1.1 < 200 / 1000.0). lra.
Defined.

Lemma update_and_detect_returns (self : config) (st : detector)
    (handedness : string) (landmarks : list landmark) (t : R) :
  velocity_threshold self <> 0 ->
  landmarks <> [] ->
  (_update_and_detect self handedness landmarks t st).1.1 = Ok tt.
Proof.
  intros Hthr Hne.
  destruct (update_and_detect_outcome self st handedness landmarks t Hne)
    as (size & z & _ & _ & Hcases).
  by destruct Hcases as [-> | [[Hzero ->] | (sv & _ & _ & _ & _ & ->)]].
Qed.

Lemma process_hands_result (self : config)
    (hands_data : list hand) (t : R) (st : detector) :
  velocity_threshold self <> 0 ->
  (Forall (fun h => landmarks h <> []) hands_data ->
   (process_hands self hands_data t st).1.1 = Ok tt)
  /\ (Exists (fun h => landmarks h = []) hands_data ->
      (process_hands self hands_data t st).1.1 = Raise ValueError).
Proof.
  intros Hthr. revert st.
  induction hands_data as [|h rest IH]; intros st.
  - split; [done|]. intros Hex. by apply Exists_nil in Hex.
  - simpl. unfold mbind, M_bind.
    destruct (decide (landmarks h = [])) as [Hempty|Hne].
    + rewrite Hempty.
      rewrite (update_and_detect_raise_size _ _ _ _ _ ValueError) by done.
      split; [|done]. intros Hall. by apply Forall_cons in Hall as [? _].
    + pose proof (update_and_detect_returns self st (handedness h)
                    (landmarks h) t Hthr Hne) as Hret.
      destruct (_update_and_detect self (handedness h) (landmarks h) t st)
        as [[r1 st1] ev1]. simpl in Hret. subst r1.
      destruct (IH st1) as [IHok IHraise].
      destruct (process_hands self rest t st1) as [[r2 st2] ev2].
      simpl in *. split.
      * intros Hall. apply Forall_cons in Hall as [_ Hall]. by apply IHok.
      * intros Hex. apply Exists_cons in Hex as [Hex|Hex]; [done|].
        by apply IHraise.
Qed.

(** X10: with a non-zero velocity threshold, [process_hands] returns
    normally exactly when every observation of the frame has at least one
    landmark; otherwise it raises [ValueError], at the first observation
    with an empty landmark list. *)
Theorem process_hands_raises_only_on_empty (self : config)
    (hands_data : list hand) (t : R) (st : detector) :
  velocity_threshold self <> 0 ->
  (Forall (fun h => landmarks h <> []) hands_data ->
   (process_hands self hands_data t st).1.1 = Ok tt)
  /\ (Exists (fun h => landmarks h = []) hands_data ->
      (process_hands self hands_data t st).1.1 = Raise ValueError).
Proof.
  intros Hthr. split.
  - intros Hall.
    by destruct (process_hands_result self hands_data t st Hthr) as [H _];
      apply H.
  - intros Hex.
    by destruct (process_hands_result self hands_data t st Hthr) as [_ H];
      apply H.
Qed.

(** The demo detector on a frame with one well-formed hand, and on a frame
    whose second hand has no landmarks. *)
Lemma process_hands_raises_only_on_empty_witness :
  (process_hands game_detector [mk_hand (fist_pose 0.10) "Left"] 1.0
     detector_init).1.1 = Ok tt
  /\ (process_hands game_detector
        [mk_hand (fist_pose 0.10) "Left"; mk_hand [] "Right"] 1.0
        detector_init).1.1 = Raise ValueError.
Proof.
  assert (Hthr : velocity_threshold game_detector <> 0)
    by (change (0.07 <> 0); lra).
  split.
  - apply (process_hands_raises_only_on_empty game_detector
             [mk_hand (fist_pose 0.10) "Left"] 1.0 detector_init Hthr).
    repeat constructor. discriminate.
  - apply (process_hands_raises_only_on_empty game_detector
             [mk_hand (fist_pose 0.10) "Left"; mk_hand [] "Right"] 1.0
             detector_init Hthr).
    right. by left.
Defined.

(** X11: [_compute_hand_state] returns a state exactly when every
    observation of the frame has at least one landmark; otherwise it raises
    [IndexError]. *)
Theorem compute_hand_state_raises_only_on_empty (hands_data : list hand) :
  (Forall (fun h => landmarks h <> []) hands_data <->
   exists st, _compute_hand_state hands_data = Ok st)
  /\ (Exists (fun h => landmarks h = []) hands_data <->
      _compute_hand_state hands_data = Raise IndexError).
Proof.
  assert (Hgen : forall wrists,
    (Forall (fun h => landmarks h <> []) hands_data ->
     exists w, record_wrists wrists hands_data = Ok w)
    /\ (Exists (fun h => landmarks h = []) hands_data ->
        record_wrists wrists hands_data = Raise IndexError)).
  { induction hands_data as [|h rest IH]; intros wrists.
    - split; [by eexists|]. intros Hex. by apply Exists_nil in Hex.
    - simpl. unfold record_wrist, getitem.
      destruct (landmarks h) as [|lm lms] eqn:Hl; simpl.
      + split; [|done]. intros Hall.
        apply Forall_cons in Hall as [Hh _]. congruence.
      + destruct (decide _); simpl.
        all: split;
          [ intros Hall; apply Forall_cons in Hall as [_ Hall]; by apply IH
          | intros Hex; apply Exists_cons in Hex as [Hex|Hex];
            [congruence | by apply IH] ]. }
  assert (Hdec : Forall (fun h => landmarks h <> []) hands_data
                 \/ Exists (fun h => landmarks h = []) hands_data).
  { clear Hgen. induction hands_data as [|h rest [IH|IH]].
    - left. constructor.
    - destruct (landmarks h) as [|lm lms] eqn:Hl.
      + right. by left.
      + left. constructor; [congruence|done].
    - right. by right. }
  destruct (Hgen (None, None)) as [Hok Hraise].
  unfold _compute_hand_state.
  split; split.
  - intros Hall. destruct (Hok Hall) as [w ->]. simpl.
    destruct w as [[l|] [r|]]; by eexists.
  - intros [st Hst]. destruct Hdec as [|Hex]; [done|].
    rewrite (Hraise Hex) in Hst. discriminate.
  - intros Hex. by rewrite (Hraise Hex).
  - intros Hst. destruct Hdec as [Hall|]; [|done].
    destruct (Hok Hall) as [w Hw]. rewrite Hw in Hst. simpl in Hst.
    destruct w as [[l|] [r|]]; discriminate.
Qed.

(** ** More on the smoother *)

Lemma smooth_fold_last (prev_smoothed : gmap string (list landmark))
    (hands_data : list hand) (acc : smooth_acc) (label : string) :
  acc_new_prev (fold_left (smooth_hand prev_smoothed) hands_data acc)
    !! label
  = match last (filter (fun o => lower (handedness o) = label)
                  (map (smooth_one prev_smoothed) hands_data)) with
    | Some o => Some (landmarks o)
    | None => acc_new_prev acc !! label
    end.
Proof.
  induction hands_data as [|hd rest IH] using rev_ind; [done|].
  rewrite fold_left_app, map_app, filter_app. simpl.
  rewrite filter_cons, filter_nil. cbn [handedness smooth_one].
  destruct (decide (lower (handedness hd) = label)) as [<-|Hne].
  - by rewrite last_snoc, lookup_insert_eq.
  - by rewrite app_nil_r, lookup_insert_ne.
Qed.

(** X13: the state [_smooth_landmarks] returns is what it output: for every
    label the entry holds the smoothed landmarks of the last output
    observation whose lower-cased handedness is that label, and there is no
    entry when no output has it. *)
Theorem smooth_state_is_last_output (hands_data : list hand)
    (prev_smoothed : gmap string (list landmark)) (label : string) :
  (_smooth_landmarks hands_data prev_smoothed).2 !! label
  = landmarks <$>
      last (filter (fun o => lower (handedness o) = label)
              (_smooth_landmarks hands_data prev_smoothed).1).
Proof.
  rewrite smooth_landmarks_eq. cbn [fst snd].
  rewrite smooth_fold_last. simpl. rewrite lookup_empty.
  by destruct (last _).
Qed.

Lemma smooth_point_unit (ax : landmark -> R) (prev : option (list landmark))
    (i : nat) (lm : landmark) :
  is_axis ax ->
  0 <= ax lm <= 1 ->
  (forall p q, prev = Some p -> p !! i = Some q -> 0 <= ax q <= 1) ->
  0 <= ax (smooth_point prev i lm) <= 1.
Proof.
  intros Hax Hlm Hprev. destruct prev as [p|].
  - destruct (p !! i) as [q|] eqn:Hq.
    + rewrite (smooth_point_Some _ _ _ _ Hq).
      specialize (Hprev p q eq_refl Hq).
      destruct lm as [[x y] z], q as [[qx qy] qz].
      destruct Hax as [-> | [-> | ->]];
        unfold lm0, lm1, lm2 in *; simpl in *; lra.
    + by rewrite smooth_point_out_of_range.
  - by rewrite smooth_point_None.
Qed.

Lemma smooth_one_unit (ax : landmark -> R)
    (prev_smoothed : gmap string (list landmark)) (hd : hand) :
  is_axis ax ->
  unit_on ax (landmarks hd) ->
  (forall label p, prev_smoothed !! label = Some p -> unit_on ax p) ->
  unit_on ax (landmarks (smooth_one prev_smoothed hd)).
Proof.
  intros Hax Hraw Hprev s Hs. unfold smooth_one in Hs. cbn [landmarks] in Hs.
  apply list_elem_of_lookup in Hs as [i Hi].
  rewrite list_lookup_imap in Hi.
  destruct (landmarks hd !! i) as [lm|] eqn:Hlm; [|done].
  injection Hi as <-. apply smooth_point_unit; [done| |].
  - apply Hraw. by eapply list_elem_of_lookup_2.
  - intros p q Hp Hq. apply (Hprev _ p Hp). by eapply list_elem_of_lookup_2.
Qed.

(** X12: smoothing keeps normalised coordinates normalised.  On each axis
    separately: when that coordinate of every raw landmark of the frame
    and of every landmark of the previous state lies between 0 and 1, so
    does that coordinate of every landmark that comes out and of every
    landmark of the returned state. *)
Theorem smoothing_keeps_unit_range (hands_data : list hand)
    (prev_smoothed : gmap string (list landmark)) (ax : landmark -> R) :
  is_axis ax ->
  (forall hd, hd ∈ hands_data -> unit_on ax (landmarks hd)) ->
  (forall label p, prev_smoothed !! label = Some p -> unit_on ax p) ->
  (forall o, o ∈ (_smooth_landmarks hands_data prev_smoothed).1 ->
             unit_on ax (landmarks o))
  /\ (forall label p,
        (_smooth_landmarks hands_data prev_smoothed).2 !! label = Some p ->
        unit_on ax p).
Proof.
  intros Hax Hraw Hprev. rewrite smooth_landmarks_eq. cbn [fst snd].
  assert (Hout : forall o, o ∈ map (smooth_one prev_smoothed) hands_data ->
                           unit_on ax (landmarks o)).
  { intros o Ho. apply list_elem_of_fmap in Ho as (hd & -> & Hhd).
    apply smooth_one_unit; [done | by apply Hraw | done]. }
  split; [exact Hout|].
  intros label p Hp. rewrite smooth_fold_last in Hp.
  destruct (last _) as [o|] eqn:Hlast; [|done].
  injection Hp as <-. apply Hout.
  apply last_Some_elem_of in Hlast.
  by apply list_elem_of_filter in Hlast as [_ Ho].
Qed.

(** A hand at the far corner smoothed against a hand at the origin. *)
Lemma smoothing_keeps_unit_range_witness :
  (forall o,
     o ∈ (_smooth_landmarks [mk_hand [(1, 1, 1)] "Left"]
            {["left" := [(0, 0, 0)]]}).1 ->
     unit_on lm0 (landmarks o))
  /\ (forall label p,
        (_smooth_landmarks [mk_hand [(1, 1, 1)] "Left"]
           {["left" := [(0, 0, 0)]]}).2 !! label = Some p ->
        unit_on lm0 p).
Proof.
  apply (smoothing_keeps_unit_range [mk_hand [(1, 1, 1)] "Left"]
           {["left" := [(0, 0, 0)]]} lm0).
  - by left.
  - intros hd Hhd lm Hlm. apply list_elem_of_singleton in Hhd as ->.
    apply list_elem_of_singleton in Hlm as ->. unfold lm0. simpl. lra.
  - intros label p Hp lm Hlm.
    apply lookup_singleton_Some in Hp as [_ <-].
    apply list_elem_of_singleton in Hlm as ->. unfold lm0. simpl. lra.
Defined.

(** ** More on the fist predicate *)

Lemma tip_closer_than_pip_xy (w t p w' t' p' : landmark) :
  lm0 w = lm0 w' -> lm1 w = lm1 w' ->
  lm0 t = lm0 t' -> lm1 t = lm1 t' ->
  lm0 p = lm0 p' -> lm1 p = lm1 p' ->
  tip_closer_than_pip w t p = tip_closer_than_pip w' t' p'.
Proof.
  intros Hw0 Hw1 Ht0 Ht1 Hp0 Hp1. unfold tip_closer_than_pip.
  by rewrite Hw0, Hw1, Ht0, Ht1, Hp0, Hp1.
Qed.

(** X14: on lists of at least 21 landmarks [_is_fist] depends only on the
    x and y of ten landmarks (wrist, thumb tip, and the PIP joint and tip of
    the index, middle, ring and pinky fingers): two lists that agree there
    get the same answer, whatever their z values, their other landmarks and
    their lengths. *)
Theorem is_fist_reads_ten_landmarks (l1 l2 : list landmark) :
  (21 <= length l1)%nat ->
  (21 <= length l2)%nat ->
  (forall i, i ∈ fist_indices ->
     lm0 (at_index l1 i) = lm0 (at_index l2 i)
     /\ lm1 (at_index l1 i) = lm1 (at_index l2 i)) ->
  _is_fist l1 = _is_fist l2.
Proof.
  intros H1 H2 Hsame. unfold _is_fist.
  rewrite (is_fist_try_long l1 H1), (is_fist_try_long l2 H2).
  assert (Hat : forall i, i ∈ fist_indices ->
            lm0 (at_index l1 i) = lm0 (at_index l2 i)
            /\ lm1 (at_index l1 i) = lm1 (at_index l2 i)) by exact Hsame.
  destruct (Hat WRIST) as [W0 W1]; [unfold fist_indices; set_solver|].
  destruct (Hat THUMB_TIP) as [T0 T1]; [unfold fist_indices; set_solver|].
  destruct (Hat INDEX_PIP) as [IP0 IP1]; [unfold fist_indices; set_solver|].
  destruct (Hat INDEX_TIP) as [IT0 IT1]; [unfold fist_indices; set_solver|].
  destruct (Hat MIDDLE_PIP) as [MP0 MP1]; [unfold fist_indices; set_solver|].
  destruct (Hat MIDDLE_TIP) as [MT0 MT1]; [unfold fist_indices; set_solver|].
  destruct (Hat RING_PIP) as [RP0 RP1]; [unfold fist_indices; set_solver|].
  destruct (Hat RING_TIP) as [RT0 RT1]; [unfold fist_indices; set_solver|].
  destruct (Hat PINKY_PIP) as [PP0 PP1]; [unfold fist_indices; set_solver|].
  destruct (Hat PINKY_TIP) as [PT0 PT1]; [unfold fist_indices; set_solver|].
  unfold dist2. rewrite T0, T1, PT0, PT1.
  rewrite (tip_closer_than_pip_xy _ _ _ _ _ _ W0 W1 IT0 IT1 IP0 IP1).
  rewrite (tip_closer_than_pip_xy _ _ _ _ _ _ W0 W1 MT0 MT1 MP0 MP1).
  rewrite (tip_closer_than_pip_xy _ _ _ _ _ _ W0 W1 RT0 RT1 RP0 RP1).
  rewrite (tip_closer_than_pip_xy _ _ _ _ _ _ W0 W1 PT0 PT1 PP0 PP1).
  reflexivity.
Qed.

(** The demo fist against the same fist pushed 5 deeper with a 22nd
    landmark. *)
Lemma is_fist_reads_ten_landmarks_witness :
  _is_fist (fist_pose 0.25)
  = _is_fist (map (shift 0 0 5) (fist_pose 0.25) ++ [(9, 9, 9)]).
Proof.
  apply (is_fist_reads_ten_landmarks (fist_pose 0.25)
           (map (shift 0 0 5) (fist_pose 0.25) ++ [(9, 9, 9)])).
  - simpl. lia.
  - simpl. lia.
  - intros i Hi. unfold fist_indices in Hi.
    repeat (apply elem_of_cons in Hi as [->|Hi]);
      [..|by apply elem_of_nil in Hi];
      unfold at_index, shift, lm0, lm1; simpl; split; lra.
Defined.

Lemma at_index_map (f : landmark -> landmark) (l : list landmark) (i : nat) :
  (i < length l)%nat -> at_index (map f l) i = f (at_index l i).
Proof.
  intros Hi. unfold at_index.
  rewrite (nth_indep _ (0, 0, 0) (f (0, 0, 0))) by (by rewrite length_map).
  apply map_nth.
Qed.

Lemma shift_lm0 (a b c : R) (lm : landmark) : lm0 (shift a b c lm) = lm0 lm + a.
Proof. reflexivity. Qed.

Lemma shift_lm1 (a b c : R) (lm : landmark) : lm1 (shift a b c lm) = lm1 lm + b.
Proof. reflexivity. Qed.

Lemma dist2_shift (a b c : R) (u v : landmark) :
  dist2 (shift a b c u) (shift a b c v) = dist2 u v.
Proof. unfold dist2. rewrite !shift_lm0, !shift_lm1. ring. Qed.

Lemma tip_closer_than_pip_shift (a b c : R) (w t p : landmark) :
  tip_closer_than_pip (shift a b c w) (shift a b c t) (shift a b c p)
  = tip_closer_than_pip w t p.
Proof.
  unfold tip_closer_than_pip. rewrite !shift_lm0, !shift_lm1.
  apply bool_decide_ext.
  replace (lm0 t + a - (lm0 w + a)) with (lm0 t - lm0 w) by lra.
  replace (lm1 t + b - (lm1 w + b)) with (lm1 t - lm1 w) by lra.
  replace (lm0 p + a - (lm0 w + a)) with (lm0 p - lm0 w) by lra.
  replace (lm1 p + b - (lm1 w + b)) with (lm1 p - lm1 w) by lra.
  done.
Qed.

(** X15: [_is_fist] does not depend on where the hand is: moving every
    landmark by the same offset [(a, b, c)] leaves the answer unchanged, for
    landmark lists of any length. *)
Theorem is_fist_translation_invariant (landmarks : list landmark)
    (a b c : R) :
  _is_fist (map (shift a b c) landmarks) = _is_fist landmarks.
Proof.
  destruct (decide (length landmarks < 21)%nat) as [Hshort|Hlong].
  - rewrite !is_fist_short; [done|done|by rewrite length_map].
  - unfold _is_fist.
    rewrite (is_fist_try_long landmarks) by lia.
    rewrite (is_fist_try_long (map (shift a b c) landmarks))
      by (rewrite length_map; lia).
    rewrite !at_index_map
      by (unfold THUMB_TIP, INDEX_TIP, INDEX_PIP, MIDDLE_TIP, MIDDLE_PIP,
            RING_TIP, RING_PIP, PINKY_TIP, PINKY_PIP, WRIST; lia).
    by rewrite dist2_shift, !tip_closer_than_pip_shift.
Qed.

(** X16: a fully closed hand is a fist: on at least 21 landmarks, when the
    tips of the index, middle, ring and pinky fingers have the wrist's x and
    y and the thumb tip is at least 0.05 away from the pinky tip in the
    plane, [_is_fist] returns true, wherever the PIP joints are. *)
Theorem tips_on_wrist_is_fist (landmarks : list landmark) :
  (21 <= length landmarks)%nat ->
  (forall tip, tip ∈ [INDEX_TIP; MIDDLE_TIP; RING_TIP; PINKY_TIP] ->
     lm0 (at_index landmarks tip) = lm0 (at_index landmarks WRIST)
     /\ lm1 (at_index landmarks tip) = lm1 (at_index landmarks WRIST)) ->
  0.05 <= sqrt (dist2 (at_index landmarks THUMB_TIP)
                      (at_index landmarks PINKY_TIP)) ->
  _is_fist landmarks = Ok true.
Proof.
  intros Hlen Htips Hspan. unfold _is_fist.
  rewrite (is_fist_try_long landmarks Hlen).
  rewrite decide_False by lra.
  assert (Hcurl : forall tip pip,
    tip ∈ [INDEX_TIP; MIDDLE_TIP; RING_TIP; PINKY_TIP] ->
    tip_closer_than_pip (at_index landmarks WRIST) (at_index landmarks tip)
      (at_index landmarks pip) = true).
  { intros tip pip Htip. destruct (Htips tip Htip) as [H0 H1].
    unfold tip_closer_than_pip. rewrite H0, H1.
    apply bool_decide_eq_true_2.
    pose proof (pow2_ge_0 (lm0 (at_index landmarks pip)
                           - lm0 (at_index landmarks WRIST))).
    pose proof (pow2_ge_0 (lm1 (at_index landmarks pip)
                           - lm1 (at_index landmarks WRIST))).
    replace (lm0 (at_index landmarks WRIST) - lm0 (at_index landmarks WRIST))
      with 0 by lra.
    replace (lm1 (at_index landmarks WRIST) - lm1 (at_index landmarks WRIST))
      with 0 by lra.
    replace (0 ^ 2) with 0 by (simpl; lra). lra. }
  rewrite !Hcurl by set_solver. reflexivity.
Qed.

(** The demo fist has every finger tip on the wrist and spans 0.25. *)
Lemma tips_on_wrist_is_fist_witness : _is_fist (fist_pose 0.25) = Ok true.
Proof.
  apply (tips_on_wrist_is_fist (fist_pose 0.25)).
  - simpl. lia.
  - intros tip Htip.
    repeat (apply elem_of_cons in Htip as [->|Htip]);
      [..|by apply elem_of_nil in Htip]; by split.
  - unfold at_index, dist2, lm0, lm1, fist_pose. simpl.
    rewrite sqrt_span by lra. lra.
Defined.

(** ** The frame step *)

Lemma smooth_keeps_nonempty (hands_data : list hand)
    (prev_smoothed : gmap string (list landmark)) :
  Forall (fun h => landmarks h <> []) hands_data ->
  Forall (fun h => landmarks h <> [])
    (_smooth_landmarks hands_data prev_smoothed).1.
Proof.
  intros Hall. rewrite smooth_landmarks_eq. cbn [fst].
  apply Forall_fmap. eapply Forall_impl; [exact Hall|].
  intros h Hh. simpl. intros Himap. apply Hh.
  apply (f_equal length) in Himap. rewrite length_imap in Himap.
  by destruct (landmarks h).
Qed.

(** X17: one frame step of the worker loop on well-formed input never
    raises: with a non-zero threshold and at least one landmark in every
    observation, [process_frame] returns the new smoothing state of
    [_smooth_landmarks] together with the pose state computed from the
    smoothed observations, and leaves the detector and the queue as
    [process_hands] on the smoothed observations does. *)
Theorem process_frame_returns (self : config) (hands_data : list hand)
    (now : R) (prev_smoothed : gmap string (list landmark))
    (st : detector) :
  velocity_threshold self <> 0 ->
  Forall (fun h => landmarks h <> []) hands_data ->
  let smoothed := _smooth_landmarks hands_data prev_smoothed in
  exists pose,
    _compute_hand_state smoothed.1 = Ok pose
    /\ process_frame self hands_data now prev_smoothed st =
         (Ok (smoothed.2, pose),
          (process_hands self smoothed.1 now st).1.2,
          (process_hands self smoothed.1 now st).2).
Proof.
  intros Hthr Hall smoothed.
  pose proof (smooth_keeps_nonempty hands_data prev_smoothed Hall) as Hne.
  fold smoothed in Hne.
  assert (Hpose : exists pose, _compute_hand_state smoothed.1 = Ok pose).
  { unfold _compute_hand_state.
    destruct (record_wrists_total smoothed.1 (None, None) Hne) as [w ->].
    simpl. destruct w as [[l|] [r|]]; by eexists. }
  destruct Hpose as [pose Hpose]. exists pose. split; [done|].
  destruct (process_hands_result self smoothed.1 now st Hthr) as [Hret _].
  specialize (Hret Hne).
  unfold process_frame. fold smoothed.
  unfold mbind at 1. unfold M_bind at 1.
  destruct (process_hands self smoothed.1 now st) as [[r st1] evs].
  cbn [fst snd] in Hret. subst r. cbn [fst snd].
  unfold mbind, M_bind, lift, mret, M_ret. rewrite Hpose.
  by rewrite !app_nil_r.
Qed.

(** The first frame of the demo on the demo detector. *)
Lemma process_frame_returns_witness :
  let smoothed :=
    _smooth_landmarks [mk_hand (fist_pose 0.10) "Left"] ∅ in
  exists pose,
    _compute_hand_state smoothed.1 = Ok pose
    /\ process_frame game_detector [mk_hand (fist_pose 0.10) "Left"] 1.0 ∅
         detector_init =
         (Ok (smoothed.2, pose),
          (process_hands game_detector smoothed.1 1.0 detector_init).1.2,
          (process_hands game_detector smoothed.1 1.0 detector_init).2).
Proof.
  apply (process_frame_returns game_detector
           [mk_hand (fist_pose 0.10) "Left"] 1.0 ∅ detector_init).
  - change (0.07 <> 0). lra.
  - repeat constructor. discriminate.
Defined.

(** ** The player *)

Lemma py_max2_Rmax (a b : R) : py_max2 a b = Rmax a b.
Proof.
  unfold py_max2, Rmax. destruct (decide (b > a)), (Rle_dec a b);
    try reflexivity; lra.
Qed.

Lemma py_max2_lower (a b : R) : a <= py_max2 a b.
Proof. rewrite py_max2_Rmax. apply Rmax_l. Qed.

Lemma py_max2_tick (x dt : R) :
  0 <= dt -> py_max2 0 (py_max2 0 x - dt) = py_max2 0 (x - dt).
Proof.
  intros Hdt. unfold py_max2.
  repeat destruct (decide _); lra.
Qed.

(** X18: from [Player()] on, whatever sequence of [reset], [take_damage]
    with a non-negative amount, [update] with a non-negative time and
    attribute writes of the main loop: the hit points stay between 0 and
    [max_hp] = 12, and the invincibility timer between 0 and the
    invincibility duration of 0.5 s. *)
Theorem player_invariant (p : Player.t) :
  player_reachable p ->
  0 <= Player.hp p <= Player.max_hp p
  /\ Player.max_hp p = 12
  /\ Player.invincibility_duration p = 0.5
  /\ 0 <= Player.invincibility_timer p <= 0.5.
Proof.
  unfold player_reachable. intros Hreach.
  revert p Hreach. apply rtc_ind_r.
  - simpl. unfold PLAYER_MAX_HP. repeat split; lra.
  - intros q p Hq Hstep (Hhp & Hmax & Hdur & Htimer). clear Hq.
    destruct Hstep as [q | q amount Hamount | q dt Hdt | q d b c]; simpl.
    + repeat split; lra.
    + unfold Player.take_damage. destruct (decide _); simpl.
      * repeat split; lra.
      * rewrite Hdur, Hmax. rewrite py_max2_Rmax.
        repeat split; try lra; [apply Rmax_l|].
        apply Rmax_lub; lra.
    + rewrite Hmax, Hdur. rewrite py_max2_Rmax.
      repeat split; try lra; [apply Rmax_l|]. apply Rmax_lub; lra.
    + repeat split; lra.
Qed.

(** A player hit for 3 at full health. *)
Lemma player_invariant_witness :
  0 <= Player.hp (Player.take_damage Player.init 3).2
    <= Player.max_hp (Player.take_damage Player.init 3).2
  /\ Player.max_hp (Player.take_damage Player.init 3).2 = 12
  /\ Player.invincibility_duration (Player.take_damage Player.init 3).2 = 0.5
  /\ 0 <= Player.invincibility_timer (Player.take_damage Player.init 3).2
       <= 0.5.
Proof.
  apply (player_invariant (Player.take_damage Player.init 3).2).
  apply rtc_once. apply player_damage. lra.
Defined.

Lemma sum_nonneg (dts : list R) :
  Forall (fun dt => 0 <= dt) dts -> 0 <= fold_left Rplus dts 0.
Proof.
  induction 1 as [|dt dts Hdt _ IH]; simpl; [lra|].
  rewrite fold_sum_init. lra.
Qed.

Lemma player_updates_timer (p : Player.t) (dts : list R) :
  Forall (fun dt => 0 <= dt) dts ->
  py_max2 0 (Player.invincibility_timer (player_updates p dts))
  = py_max2 0 (Player.invincibility_timer p - fold_left Rplus dts 0)
  /\ Player.hp (player_updates p dts) = Player.hp p
  /\ Player.invincibility_duration (player_updates p dts)
     = Player.invincibility_duration p.
Proof.
  intros Hdts. revert p.
  induction Hdts as [|dt dts Hdt Hrest IH]; intros p.
  - simpl. by rewrite Rminus_0_r.
  - cbn [player_updates fold_left].
    fold (player_updates (Player.update p dt) dts).
    destruct (IH (Player.update p dt)) as (-> & -> & ->). simpl.
    split; [|done].
    rewrite (fold_sum_init dts (0 + dt)).
    pose proof (sum_nonneg dts Hrest).
    unfold py_max2. repeat destruct (decide _); lra.
Qed.

Lemma player_updates_app (p : Player.t) (dts dts' : list R) :
  player_updates p (dts ++ dts') = player_updates (player_updates p dts) dts'.
Proof. apply fold_left_app. Qed.

(** Once the timer has run out it stays out. *)
Lemma player_updates_over (p : Player.t) (dts : list R) :
  Forall (fun dt => 0 <= dt) dts ->
  ~ Player.invincibility_timer p > 0 ->
  ~ Player.invincibility_timer (player_updates p dts) > 0.
Proof.
  intros Hdts Hover.
  destruct (player_updates_timer p dts Hdts) as (Htimer & _ & _).
  pose proof (sum_nonneg dts Hdts).
  unfold py_max2 in Htimer. repeat destruct (decide _); lra.
Qed.

(** X19: the player's invincibility only runs down.  After a hit was taken
    by a player with a positive invincibility duration, the next
    [take_damage] is refused, and a refused [take_damage] changes nothing;
    [update] calls with non-negative times never change the hit points;
    once [take_damage] is accepted after such calls it is accepted after
    any more of them; and one [update] of at least the invincibility
    duration always ends the invincibility. *)
Theorem player_invincibility_window (p : Player.t) (a b : R)
    (dts dts' : list R) :
  (Player.take_damage p a).1 = true ->
  0 < Player.invincibility_duration p ->
  Forall (fun dt => 0 <= dt) dts ->
  Forall (fun dt => 0 <= dt) dts' ->
  let hit := (Player.take_damage p a).2 in
  let later := player_updates hit dts in
  Player.take_damage hit b = (false, hit)
  /\ ((Player.take_damage later b).1 = false ->
      (Player.take_damage later b).2 = later)
  /\ Player.hp later = Player.hp hit
  /\ ((Player.take_damage later b).1 = true ->
      (Player.take_damage (player_updates hit (dts ++ dts')) b).1 = true)
  /\ forall dt : R,
       Player.invincibility_duration p <= dt ->
       (Player.take_damage (Player.update later dt) b).1 = true.
Proof.
  intros Hhit Hdur Hdts Hdts' hit later.
  assert (Hhit_eq :
    hit = Player.mk (py_max2 0 (Player.hp p - a)) (Player.max_hp p)
            (Player.dodging p) (Player.blocking p)
            (Player.invincibility_duration p)
            (Player.invincibility_duration p)
            (Player.block_cooldown_timer p)).
  { subst hit. unfold Player.take_damage in *.
    by destruct (decide (Player.invincibility_timer p > 0)). }
  destruct (player_updates_timer hit dts Hdts) as (Htimer & Hhp & Hduration).
  fold later in Htimer, Hhp, Hduration.
  assert (Hbound :
    Player.invincibility_timer later <= Player.invincibility_duration p).
  { pose proof (sum_nonneg dts Hdts). rewrite Hhit_eq in Htimer.
    cbn [Player.invincibility_timer] in Htimer.
    unfold py_max2 in Htimer. repeat destruct (decide _); lra. }
  split; [|split; [|split; [|split]]].
  - rewrite Hhit_eq at 1. unfold Player.take_damage.
    cbn [Player.invincibility_timer]. rewrite decide_True by lra.
    by rewrite <- Hhit_eq.
  - unfold Player.take_damage. by destruct (decide _).
  - exact Hhp.
  - intros Hover. rewrite player_updates_app. fold later.
    pose proof (player_updates_over later dts' Hdts') as Hstay.
    unfold Player.take_damage in *.
    destruct (decide (Player.invincibility_timer later > 0)); [done|].
    by rewrite decide_False by (by apply Hstay).
  - intros dt Hdt. unfold Player.take_damage.
    cbn [Player.update Player.invincibility_timer].
    rewrite decide_False; [done|].
    unfold py_max2. destruct (decide _); lra.
Qed.

(** A fresh player hit, then three frames of 0.1 s, then two more. *)
Lemma player_invincibility_window_witness :
  Player.take_damage (Player.take_damage Player.init 1).2 1
  = (false, (Player.take_damage Player.init 1).2)
  /\ ((Player.take_damage
         (player_updates (Player.take_damage Player.init 1).2
            [0.1; 0.1; 0.1]) 1).1 = false ->
      (Player.take_damage
         (player_updates (Player.take_damage Player.init 1).2
            [0.1; 0.1; 0.1]) 1).2
      = player_updates (Player.take_damage Player.init 1).2 [0.1; 0.1; 0.1])
  /\ Player.hp
       (player_updates (Player.take_damage Player.init 1).2 [0.1; 0.1; 0.1])
     = Player.hp (Player.take_damage Player.init 1).2
  /\ ((Player.take_damage
         (player_updates (Player.take_damage Player.init 1).2
            [0.1; 0.1; 0.1]) 1).1 = true ->
      (Player.take_damage
         (player_updates (Player.take_damage Player.init 1).2
            ([0.1; 0.1; 0.1] ++ [0.1; 0.1])) 1).1 = true)
  /\ forall dt : R,
       Player.invincibility_duration Player.init <= dt ->
       (Player.take_damage
          (Player.update
             (player_updates (Player.take_damage Player.init 1).2
                [0.1; 0.1; 0.1]) dt) 1).1 = true.
Proof.
  apply (player_invincibility_window Player.init 1 1 [0.1; 0.1; 0.1]
           [0.1; 0.1]).
  - unfold Player.take_damage. simpl. rewrite decide_False by lra. done.
  - simpl. lra.
  - repeat constructor; lra.
  - repeat constructor; lra.
Defined.

(** ** The opponent *)

Lemma load_hit_anim_duration_lower (gif : option (list R)) :
  0.1 <= Opponent._load_hit_anim_duration gif.
Proof.
  destruct gif as [durations|]; simpl; [apply py_max2_lower|lra].
Qed.

Lemma choose_next_attack_cases (o : Opponent.t) (d : Opponent.draws) :
  Opponent._choose_next_attack o d = "block"
  \/ Opponent._choose_next_attack o d = PUNCH_LEFT
  \/ Opponent._choose_next_attack o d = PUNCH_RIGHT.
Proof.
  unfold Opponent._choose_next_attack, Opponent.choice.
  destruct (decide _); [by left|].
  destruct (decide _), (Opponent.choice_right d); auto.
Qed.

Lemma opponent_init_inv (gif : option (list R)) :
  opponent_inv (Opponent.init gif).
Proof.
  split; simpl; unfold OPPONENT_MAX_HP; try lra; try lia; try done.
  - apply load_hit_anim_duration_lower.
  - by intros [|].
Qed.

Lemma opponent_step_inv (o o' : Opponent.t) :
  opponent_step o o' -> opponent_inv o -> opponent_inv o'.
Proof.
  intros Hstep [Hhp Hmax Hcombo Htimers Hhit Hanim Hside].
  destruct Hstep as [o dt d Hdt | o amount Hamount | o round_num gif].
  - unfold Opponent.update. cbv zeta. cbn -[Nat.modulo].
    assert (Hlow : 0 <= py_max2 0 (Opponent.hit_timer o - dt))
      by apply py_max2_lower.
    destruct (decide _) as [Hstun|Hfree]; cbn -[Nat.modulo].
    { split; simpl; try done. by rewrite Htimers. }
    destruct (Opponent.state o) eqn:Hstate; cbn -[Nat.modulo];
      destruct (decide _); cbn -[Nat.modulo];
      try (split; cbn -[Nat.modulo]; rewrite ?Htimers; try done;
           try (intros [|]; discriminate); fail).
    + destruct (decide _) as [Hblock|Hattack]; simpl.
      * split; simpl; rewrite ?Htimers; try done. intros [|]; discriminate.
      * split; simpl; rewrite ?Htimers; try done. intros _.
        destruct (choose_next_attack_cases
                    (Opponent.mk (Opponent.hp o) (Opponent.max_hp o)
                       Opponent.idle (Opponent.state_timer o - dt)
                       (Opponent.attack_side o) (Opponent.combo_index o)
                       (Opponent.round o)
                       (py_max2 0 (Opponent.hit_timer o - dt))
                       (py_max2 0 (Opponent.invuln_timer o - dt))
                       (Opponent.hit_anim_duration o)) d)
          as [Hb | [Hl | Hr]]; [done | left | right]; by f_equal.
    + split; simpl; rewrite ?Htimers; try done. intros _. apply Hside. auto.
    + split; cbn -[Nat.modulo]; rewrite ?Htimers; try done.
      * apply Nat.mod_upper_bound. lia.
      * intros [|]; discriminate.
  - unfold Opponent.take_damage.
    destruct (decide _) as [|Hok]; simpl; [done|].
    split; simpl; try done; try lra.
    rewrite Hmax, py_max2_Rmax. split; [apply Rmax_l|].
    apply Rmax_lub; lra.
  - split; simpl; try lra; try lia; try done.
    + apply load_hit_anim_duration_lower.
    + by intros [|].
Qed.

Lemma opponent_reachable_inv (o : Opponent.t) :
  opponent_reachable o -> opponent_inv o.
Proof.
  intros [gif Hreach]. revert o Hreach. apply rtc_ind_r.
  - apply opponent_init_inv.
  - intros o o' _ Hstep IH. by eapply opponent_step_inv.
Qed.

(** X20: from [Opponent()] on, whatever sequence of [update] (with
    non-negative times and any random draws), [take_damage] (with
    non-negative amounts) and [reset]: the hit points stay between 0 and
    [max_hp] = 6, [combo_index] stays below 3, the invulnerability timer
    always equals the hit timer and is not negative, the hit animation
    lasts at least 0.1 s, and while telegraphing or attacking, the attack
    side is ["left"] or ["right"]. *)
Theorem opponent_invariant (o : Opponent.t) :
  opponent_reachable o -> opponent_inv o.
Proof. intros Hreach. by apply opponent_reachable_inv. Qed.

(** The opponent after its first 0.1 s. *)
Lemma opponent_invariant_witness :
  opponent_inv
    (Opponent.update (Opponent.init None) 0.1
       (Opponent.mk_draws 0.5 true 0.7 0.3)).2.
Proof.
  apply (opponent_invariant
           (Opponent.update (Opponent.init None) 0.1
              (Opponent.mk_draws 0.5 true 0.7 0.3)).2).
  exists None. apply rtc_once. apply opponent_update. lra.
Defined.

(** The state [update] leaves, and the attack it returns, case by case. *)
Lemma opponent_update_cases (o : Opponent.t) (dt : R) (d : Opponent.draws) :
  ((Opponent.update o dt d).1 = None
   /\ (Opponent.state (Opponent.update o dt d).2 = Opponent.state o
       \/ (~ py_max2 0 (Opponent.hit_timer o - dt) > 0
           /\ may_follow (Opponent.state o)
                (Opponent.state (Opponent.update o dt d).2))))
  \/ (~ py_max2 0 (Opponent.hit_timer o - dt) > 0
      /\ Opponent.state o = Opponent.telegraph
      /\ Opponent.state (Opponent.update o dt d).2 = Opponent.attacking
      /\ (Opponent.update o dt d).1
         = Some (Opponent.mk_attack (Opponent.attack_side o) 1)).
Proof.
  unfold Opponent.update. cbv zeta. cbn -[Nat.modulo].
  destruct (decide _) as [Hstun|Hfree]; cbn -[Nat.modulo]; [by left; auto|].
  destruct (Opponent.state o) eqn:Hstate; cbn -[Nat.modulo];
    destruct (decide _); cbn -[Nat.modulo]; auto 6.
  destruct (decide _); cbn -[Nat.modulo]; auto 6.
Qed.

(** X21: the opponent never attacks without a telegraph: when [update] of
    a reachable opponent returns an attack, the opponent was telegraphing
    and is now attacking, the damage is 1 and the side is ["left"] or
    ["right"] (never [None]). *)
Theorem opponent_attacks_after_telegraph (o : Opponent.t) (dt : R)
    (d : Opponent.draws) (a : Opponent.attack) :
  opponent_reachable o ->
  (Opponent.update o dt d).1 = Some a ->
  Opponent.state o = Opponent.telegraph
  /\ Opponent.state (Opponent.update o dt d).2 = Opponent.attacking
  /\ Opponent.damage a = 1
  /\ side_ok (Opponent.side a).
Proof.
  intros Hreach Hattack.
  pose proof (opponent_reachable_inv o Hreach) as Hinv.
  destruct (opponent_update_cases o dt d)
    as [[Hnone _] | (_ & Htel & Hatt & Hsome)].
  - rewrite Hnone in Hattack. discriminate.
  - rewrite Hsome in Hattack. injection Hattack as <-. simpl.
    split; [done|]. split; [done|]. split; [done|].
    apply (inv_side o Hinv). by left.
Qed.

Lemma py_max2_zero_neg (x : R) : x <= 0 -> py_max2 0 x = 0.
Proof. intros Hx. unfold py_max2. destruct (decide _); lra. Qed.

Lemma opponent_first_move :
  Opponent.update (Opponent.init None) 0.1 right_punch_draws
  = (None, telegraphing_opponent).
Proof.
  unfold Opponent.update, Opponent.init, right_punch_draws. cbv zeta.
  cbn [Opponent.hit_timer Opponent.invuln_timer Opponent.state
       Opponent.state_timer Opponent.hp Opponent.max_hp
       Opponent.attack_side Opponent.combo_index Opponent.round
       Opponent.hit_anim_duration].
  rewrite !py_max2_zero_neg by lra.
  rewrite (decide_False (P := 0 > 0)) by lra.
  rewrite (decide_True (P := 0.0 - 0.1 <= 0)) by lra.
  unfold Opponent._choose_next_attack, Opponent.choice.
  cbn [Opponent.random Opponent.choice_right Opponent.combo_index].
  rewrite (decide_False (P := 0.5 < 0.15)) by lra.
  rewrite (decide_True (P := 0%nat = 0%nat \/ 0%nat = 1%nat)) by (by left).
  rewrite (decide_False (P := PUNCH_RIGHT = "block")) by discriminate.
  unfold telegraphing_opponent, Opponent._telegraph_duration,
    Opponent._load_hit_anim_duration, OPPONENT_MAX_HP, TELEGRAPH_DURATION,
    PUNCH_RIGHT.
  cbn [Opponent.round].
  do 2 f_equal.
  change (IZR (1 - 1)) with 0. unfold py_max2.
  rewrite decide_True by lra. lra.
Qed.

Lemma opponent_second_move :
  (Opponent.update telegraphing_opponent 0.5 right_punch_draws).1
  = Some (Opponent.mk_attack (Some "right") 1).
Proof.
  unfold Opponent.update, telegraphing_opponent. cbv zeta.
  cbn [Opponent.hit_timer Opponent.invuln_timer Opponent.state
       Opponent.state_timer Opponent.hp Opponent.max_hp
       Opponent.attack_side Opponent.combo_index Opponent.round
       Opponent.hit_anim_duration].
  rewrite !py_max2_zero_neg by lra.
  rewrite (decide_False (P := 0 > 0)) by lra.
  rewrite (decide_True (P := 0.4 - 0.5 <= 0)) by lra.
  reflexivity.
Qed.

Lemma telegraphing_opponent_reachable :
  opponent_reachable telegraphing_opponent.
Proof.
  exists None. apply rtc_once.
  change telegraphing_opponent with (None (A := Opponent.attack),
                                     telegraphing_opponent).2.
  rewrite <- opponent_first_move. apply opponent_update. lra.
Qed.

(** The right punch telegraphed in the first 0.1 s lands 0.5 s later. *)
Lemma opponent_attacks_after_telegraph_witness :
  Opponent.state telegraphing_opponent = Opponent.telegraph
  /\ Opponent.state
       (Opponent.update telegraphing_opponent 0.5 right_punch_draws).2
     = Opponent.attacking
  /\ Opponent.damage (Opponent.mk_attack (Some "right") 1) = 1
  /\ side_ok (Opponent.side (Opponent.mk_attack (Some "right") 1)).
Proof.
  apply (opponent_attacks_after_telegraph telegraphing_opponent 0.5
           right_punch_draws (Opponent.mk_attack (Some "right") 1)).
  - exact telegraphing_opponent_reachable.
  - exact opponent_second_move.
Defined.

(** X22: [update] follows the cycle of the states: it leaves the state
    unchanged or moves idle to telegraph or blocking, telegraph to
    attacking, attacking to vulnerable, vulnerable to idle and blocking to
    idle.  While the hit timer is still positive after the elapsed time was
    taken off, it returns no attack and changes nothing but the three
    timers. *)
Theorem opponent_update_follows_cycle (o : Opponent.t) (dt : R)
    (d : Opponent.draws) :
  let o' := (Opponent.update o dt d).2 in
  (Opponent.state o' = Opponent.state o
   \/ may_follow (Opponent.state o) (Opponent.state o'))
  /\ (Opponent.hit_timer o - dt > 0 ->
      (Opponent.update o dt d).1 = None
      /\ o' = Opponent.mk (Opponent.hp o) (Opponent.max_hp o)
                (Opponent.state o) (Opponent.state_timer o - dt)
                (Opponent.attack_side o) (Opponent.combo_index o)
                (Opponent.round o) (Opponent.hit_timer o - dt)
                (py_max2 0 (Opponent.invuln_timer o - dt))
                (Opponent.hit_anim_duration o)).
Proof.
  intros o'. subst o'. split.
  - destruct (opponent_update_cases o dt d)
      as [[_ [Hsame | [_ Hnext]]] | (_ & Htel & Hatt & _)]; auto.
    right. rewrite Htel, Hatt. done.
  - intros Hstun. unfold Opponent.update. cbv zeta.
    cbn [Opponent.hit_timer].
    assert (Hmax : py_max2 0 (Opponent.hit_timer o - dt)
                   = Opponent.hit_timer o - dt).
    { unfold py_max2. by rewrite decide_True. }
    rewrite decide_True by (rewrite Hmax; done).
    by rewrite Hmax.
Qed.

Lemma telegraph_duration_value (o : Opponent.t) :
  Opponent._telegraph_duration o
  = Rmax 0.2 (0.4 - IZR (Opponent.round o - 1) * 0.05).
Proof.
  unfold Opponent._telegraph_duration, TELEGRAPH_DURATION.
  apply py_max2_Rmax.
Qed.

(** X23: the telegraph gets shorter in later rounds but never shorter than
    0.2 s: [_telegraph_duration] is 0.4 in round 1, loses 0.05 per round
    up to round 5, is 0.2 from round 5 on, and a later round never has a
    longer telegraph than an earlier one. *)
Theorem telegraph_duration_by_round (o o' : Opponent.t) :
  0.2 <= Opponent._telegraph_duration o
  /\ (Opponent.round o = 1%Z -> Opponent._telegraph_duration o = 0.4)
  /\ ((1 <= Opponent.round o <= 5)%Z ->
      Opponent._telegraph_duration o
      = 0.4 - IZR (Opponent.round o - 1) * 0.05)
  /\ ((5 <= Opponent.round o)%Z -> Opponent._telegraph_duration o = 0.2)
  /\ ((Opponent.round o <= Opponent.round o')%Z ->
      Opponent._telegraph_duration o' <= Opponent._telegraph_duration o).
Proof.
  rewrite !telegraph_duration_value.
  split; [apply Rmax_l|]. split; [|split; [|split]].
  - intros ->. change (IZR (1 - 1)) with 0. rewrite Rmax_right; lra.
  - intros [H1 H5]. apply Rmax_right.
    assert (IZR (Opponent.round o - 1) <= 4)
      by (apply (IZR_le _ 4); lia).
    lra.
  - intros H5. apply Rmax_left.
    assert (4 <= IZR (Opponent.round o - 1))
      by (apply (IZR_le 4); lia).
    lra.
  - intros Hle.
    assert (IZR (Opponent.round o - 1) <= IZR (Opponent.round o' - 1))
      by (apply IZR_le; lia).
    apply Rle_max_compat_l. lra.
Qed.

(** ** The stun after a hit *)

Lemma opponent_update_stunned (o : Opponent.t) (dt : R)
    (d : Opponent.draws) :
  Opponent.hit_timer o - dt > 0 ->
  Opponent.update o dt d
  = (None,
     Opponent.mk (Opponent.hp o) (Opponent.max_hp o) (Opponent.state o)
       (Opponent.state_timer o - dt) (Opponent.attack_side o)
       (Opponent.combo_index o) (Opponent.round o)
       (Opponent.hit_timer o - dt)
       (py_max2 0 (Opponent.invuln_timer o - dt))
       (Opponent.hit_anim_duration o)).
Proof.
  intros Hstun. unfold Opponent.update. cbv zeta. cbn [Opponent.hit_timer].
  assert (Hmax : py_max2 0 (Opponent.hit_timer o - dt)
                 = Opponent.hit_timer o - dt).
  { unfold py_max2. by rewrite decide_True. }
  rewrite decide_True by (rewrite Hmax; done).
  by rewrite Hmax.
Qed.

(** ** The game loop *)

Lemma drain_cons (fighting : bool) (i : Game.queue_item)
    (items : list Game.queue_item) (cv_error : option string)
    (o : Opponent.t) :
  Game.drain fighting (i :: items) cv_error o
  = Game.drain fighting items
      (Game.on_item fighting (cv_error, o) i).1
      (Game.on_item fighting (cv_error, o) i).2.
Proof.
  unfold Game.drain. cbn [fold_left].
  by destruct (Game.on_item fighting (cv_error, o) i).
Qed.

Lemma punch_damage (strength : R) :
  Game.PUNCH_DAMAGE_BASE + strength * Game.PUNCH_DAMAGE_STRENGTH_MULT * 10
  = 1.
Proof. unfold Game.PUNCH_DAMAGE_BASE, Game.PUNCH_DAMAGE_STRENGTH_MULT. lra. Qed.

Lemma on_item_opponent (fighting : bool) (cv_error : option string)
    (o : Opponent.t) (e : event) :
  (Game.on_item fighting (cv_error, o) (Game.item_punch e)).2
  = if fighting then (Opponent.take_damage o 1).2 else o.
Proof.
  destruct e as [hand strength]. cbn [Game.on_item].
  destruct fighting; [|done]. rewrite punch_damage.
  unfold Opponent.is_vulnerable. case_bool_decide as Hvul; [done|].
  cbn [snd]. unfold Opponent.take_damage.
  rewrite decide_True; [done|by left].
Qed.

Lemma drain_invulnerable (fighting : bool) (items : list Game.queue_item)
    (cv_error : option string) (o : Opponent.t) :
  Opponent.invuln_timer o > 0 ->
  (Game.drain fighting items cv_error o).2 = o.
Proof.
  intros Hinv. revert cv_error.
  induction items as [|i items IH]; intros cv_error; [done|].
  rewrite drain_cons. destruct i as [e|message].
  - rewrite on_item_opponent.
    replace (if fighting then (Opponent.take_damage o 1).2 else o) with o.
    + apply IH.
    + destruct fighting; [|done]. unfold Opponent.take_damage.
      rewrite decide_True; [done|by right].
  - cbn [Game.on_item snd]. apply IH.
Qed.

Lemma drain_errors (fighting : bool) (items : list Game.queue_item)
    (cv_error : option string) (o : Opponent.t) :
  (Game.drain fighting items cv_error o).1
  = match last (errors items) with
    | Some message => Some message
    | None => cv_error
    end.
Proof.
  revert cv_error o.
  induction items as [|i items IH]; intros cv_error o; [done|].
  rewrite drain_cons, IH. destruct i as [[hand strength]|message].
  - change (errors (Game.item_punch (punch hand strength) :: items))
      with (errors items).
    destruct (last (errors items)); [done|].
    cbn [Game.on_item].
    destruct fighting; [destruct (Opponent.is_vulnerable o)|]; done.
  - change (errors (Game.item_error message :: items))
      with (message :: errors items).
    cbn [Game.on_item fst].
    destruct (errors items) as [|m ms] eqn:Herr; [done|].
    rewrite !last_cons. by destruct (last ms).
Qed.

Lemma drain_opponent (fighting : bool) (items : list Game.queue_item)
    (cv_error : option string) (o : Opponent.t) :
  0 < Opponent.hit_anim_duration o ->
  (Game.drain fighting items cv_error o).2
  = if fighting && has_punch items then (Opponent.take_damage o 1).2 else o.
Proof.
  intros Hanim. revert cv_error.
  induction items as [|i items IH]; intros cv_error.
  - by rewrite andb_false_r.
  - rewrite drain_cons. destruct i as [e|message].
    + rewrite on_item_opponent. cbn [has_punch existsb orb].
      rewrite andb_true_r. destruct fighting; [|by rewrite IH].
      cbn [andb].
      unfold Opponent.take_damage at 1 2.
      destruct (decide _) as [Hrefused|Haccepted]; cbn [snd].
      * rewrite IH. destruct (true && has_punch items); [|done].
        unfold Opponent.take_damage. by rewrite decide_True.
      * apply drain_invulnerable. simpl. lra.
    + cbn [Game.on_item snd has_punch existsb orb]. apply IH.
Qed.

(** X25: what draining the queue does, for an opponent of the game:
    however many punch events are on the queue and whatever their hands
    and strengths, the opponent is hit once with damage 1 when the game is
    in the fight and there is a punch event, and left alone otherwise (a
    hit the opponent refuses changes nothing); the error shown is the
    message of the last error item, or the previous one when there is
    none. *)
Theorem drain_lands_one_punch (fighting : bool)
    (items : list Game.queue_item) (cv_error : option string)
    (o : Opponent.t) :
  opponent_reachable o ->
  Game.drain fighting items cv_error o
  = (match last (errors items) with
     | Some message => Some message
     | None => cv_error
     end,
     if fighting && has_punch items then (Opponent.take_damage o 1).2
     else o).
Proof.
  intros Hreach.
  pose proof (inv_anim o (opponent_reachable_inv o Hreach)) as Hanim.
  rewrite <- (drain_errors fighting items cv_error o).
  rewrite <- (drain_opponent fighting items cv_error o) by lra.
  by destruct (Game.drain fighting items cv_error o).
Qed.

Lemma opponent_second_step :
  (Opponent.update telegraphing_opponent 0.5 right_punch_draws).2
  = attacking_opponent.
Proof.
  unfold Opponent.update, telegraphing_opponent. opponent_fields.
  rewrite !py_max2_zero_neg by lra.
  rewrite (decide_False (P := 0 > 0)) by lra.
  rewrite (decide_True (P := 0.4 - 0.5 <= 0)) by lra.
  reflexivity.
Qed.

Lemma opponent_third_step :
  (Opponent.update attacking_opponent 0.2 right_punch_draws).2
  = open_opponent.
Proof.
  unfold Opponent.update, attacking_opponent. opponent_fields.
  rewrite !py_max2_zero_neg by lra.
  rewrite (decide_False (P := 0 > 0)) by lra.
  rewrite (decide_True (P := 0.15 - 0.2 <= 0)) by lra.
  reflexivity.
Qed.

Lemma open_opponent_reachable : opponent_reachable open_opponent.
Proof.
  destruct telegraphing_opponent_reachable as [gif Hreach].
  exists gif.
  apply (rtc_r _ attacking_opponent);
    [apply (rtc_r _ telegraphing_opponent); [exact Hreach|]|].
  - rewrite <- opponent_second_step. apply opponent_update. lra.
  - rewrite <- opponent_third_step. apply opponent_update. lra.
Qed.

(** X24: the stun after a hit, for an opponent of the game.
    [take_damage] is accepted only while the opponent is vulnerable and
    the animation of the previous hit is over (the hit timer is 0).  After
    an accepted hit the hit points are down by the amount, but not below
    0, and every further [take_damage] is refused and changes nothing; an
    [update] of less than the hit animation's duration then returns no
    attack, leaves the opponent vulnerable with the same hit points and
    still refusing every [take_damage], while the state timer runs on. *)
Theorem opponent_stunned_after_hit (o : Opponent.t) (amount dt : R)
    (d : Opponent.draws) :
  opponent_reachable o ->
  (Opponent.take_damage o amount).1 = true ->
  dt < Opponent.hit_anim_duration o ->
  let hit := (Opponent.take_damage o amount).2 in
  let later := (Opponent.update hit dt d).2 in
  Opponent.state o = Opponent.vulnerable
  /\ Opponent.hit_timer o = 0
  /\ Opponent.hp hit = py_max2 0 (Opponent.hp o - amount)
  /\ (forall b, Opponent.take_damage hit b = (false, hit))
  /\ (Opponent.update hit dt d).1 = None
  /\ Opponent.state later = Opponent.vulnerable
  /\ Opponent.hp later = Opponent.hp hit
  /\ Opponent.state_timer later = Opponent.state_timer o - dt
  /\ forall b, Opponent.take_damage later b = (false, later).
Proof.
  intros Hreach Hhit Hdt hit later.
  pose proof (opponent_reachable_inv o Hreach) as Hinv.
  pose proof (inv_anim o Hinv) as Hanim.
  assert (Hopen : Opponent.state o = Opponent.vulnerable
                  /\ ~ Opponent.invuln_timer o > 0
                  /\ hit = Opponent.mk (py_max2 0 (Opponent.hp o - amount))
                             (Opponent.max_hp o) (Opponent.state o)
                             (Opponent.state_timer o) (Opponent.attack_side o)
                             (Opponent.combo_index o) (Opponent.round o)
                             (Opponent.hit_anim_duration o)
                             (Opponent.hit_anim_duration o)
                             (Opponent.hit_anim_duration o)).
  { subst hit. unfold Opponent.take_damage in *.
    destruct (decide _) as [Hno|Hyes]; [done|].
    split; [|split; [tauto|done]].
    destruct (decide (Opponent.state o = Opponent.vulnerable)); [done|].
    exfalso. apply Hyes. by left. }
  destruct Hopen as (Hvul & Hfree & Hhit_eq).
  assert (Hlater : Opponent.update hit dt d
    = (None,
       Opponent.mk (Opponent.hp hit) (Opponent.max_hp hit)
         (Opponent.state hit) (Opponent.state_timer hit - dt)
         (Opponent.attack_side hit) (Opponent.combo_index hit)
         (Opponent.round hit) (Opponent.hit_timer hit - dt)
         (py_max2 0 (Opponent.invuln_timer hit - dt))
         (Opponent.hit_anim_duration hit))).
  { apply opponent_update_stunned. rewrite Hhit_eq. simpl. lra. }
  subst later. rewrite Hlater. cbn [fst snd].
  split; [done|]. split.
  { pose proof (inv_timers o Hinv). pose proof (inv_hit_timer o Hinv). lra. }
  split; [by rewrite Hhit_eq|]. split.
  { intros b. unfold Opponent.take_damage. rewrite decide_True; [done|].
    right. rewrite Hhit_eq. simpl. lra. }
  split; [done|]. rewrite Hhit_eq. cbn -[py_max2].
  split; [done|]. split; [done|]. split; [done|].
  intros b. unfold Opponent.take_damage. rewrite decide_True; [done|].
  right. cbn -[py_max2]. unfold py_max2. rewrite decide_True by lra. lra.
Qed.

(** The open opponent hit with 1, then a frame of 0.1 s. *)
Lemma opponent_stunned_after_hit_witness :
  Opponent.state open_opponent = Opponent.vulnerable
  /\ Opponent.hit_timer open_opponent = 0
  /\ Opponent.hp (Opponent.take_damage open_opponent 1).2
     = py_max2 0 (Opponent.hp open_opponent - 1)
  /\ (forall b,
        Opponent.take_damage (Opponent.take_damage open_opponent 1).2 b
        = (false, (Opponent.take_damage open_opponent 1).2))
  /\ (Opponent.update (Opponent.take_damage open_opponent 1).2 0.1
        right_punch_draws).1 = None
  /\ Opponent.state
       (Opponent.update (Opponent.take_damage open_opponent 1).2 0.1
          right_punch_draws).2 = Opponent.vulnerable
  /\ Opponent.hp
       (Opponent.update (Opponent.take_damage open_opponent 1).2 0.1
          right_punch_draws).2
     = Opponent.hp (Opponent.take_damage open_opponent 1).2
  /\ Opponent.state_timer
       (Opponent.update (Opponent.take_damage open_opponent 1).2 0.1
          right_punch_draws).2
     = Opponent.state_timer open_opponent - 0.1
  /\ forall b,
       Opponent.take_damage
         (Opponent.update (Opponent.take_damage open_opponent 1).2 0.1
            right_punch_draws).2 b
       = (false,
          (Opponent.update (Opponent.take_damage open_opponent 1).2 0.1
             right_punch_draws).2).
Proof.
  apply (opponent_stunned_after_hit open_opponent 1 0.1 right_punch_draws).
  - exact open_opponent_reachable.
  - unfold Opponent.take_damage, open_opponent. simpl.
    rewrite decide_False; [done|]. intros [Hne | Hgt]; [done|lra].
  - unfold open_opponent. simpl. lra.
Defined.

(** Two punches of different strengths and a camera error on the queue
    while the opponent is open: one hit. *)
Lemma drain_lands_one_punch_witness :
  Game.drain true
    [Game.item_punch (punch "left" 0.3); Game.item_error "CV error";
     Game.item_punch (punch "right" 1)] None open_opponent
  = (match last (errors
                   [Game.item_punch (punch "left" 0.3);
                    Game.item_error "CV error";
                    Game.item_punch (punch "right" 1)]) with
     | Some message => Some message
     | None => None
     end,
     if true && has_punch
                  [Game.item_punch (punch "left" 0.3);
                   Game.item_error "CV error";
                   Game.item_punch (punch "right" 1)]
     then (Opponent.take_damage open_opponent 1).2
     else open_opponent).
Proof.
  apply (drain_lands_one_punch true
           [Game.item_punch (punch "left" 0.3); Game.item_error "CV error";
            Game.item_punch (punch "right" 1)] None open_opponent).
  exact open_opponent_reachable.
Defined.

Lemma fight_step_eq (p : Player.t) (o : Opponent.t) (dt : R)
    (d : Opponent.draws) :
  Game.fight_step p o dt d
  = (Game.resolve_attack (Player.update p dt) (Opponent.update o dt d).1,
     (Opponent.update o dt d).2).
Proof.
  unfold Game.fight_step. by destruct (Opponent.update o dt d).
Qed.

(** X26: what an attack does to the player in a pass of the fight.  The
    player's hit points change only when the opponent was telegraphing,
    the player is not blocking, does not lean away from the punch's side
    and is not invincible after the elapsed time; then they go down by 1,
    but not below 0.  An attack that is blocked leaves the hit points and
    starts the block cooldown of 0.7 s; an attack that is dodged and not
    blocked does nothing to the player. *)
Theorem fight_step_damage (p : Player.t) (o : Opponent.t) (dt : R)
    (d : Opponent.draws) :
  let p' := (Game.fight_step p o dt d).1 in
  let attack := (Opponent.update o dt d).1 in
  (Player.hp p' <> Player.hp p ->
   Opponent.state o = Opponent.telegraph
   /\ Player.blocking p = false
   /\ Game.dodged (Opponent.attack_side o) (Player.dodging p) = false
   /\ Player.invincibility_timer p - dt <= 0
   /\ Player.hp p' = py_max2 0 (Player.hp p - 1))
  /\ (attack <> None -> Player.blocking p = true ->
      Player.hp p' = Player.hp p
      /\ Player.block_cooldown_timer p' = BLOCK_COOLDOWN_AFTER_HIT)
  /\ (attack <> None -> Player.blocking p = false ->
      Game.dodged (Opponent.attack_side o) (Player.dodging p) = true ->
      p' = Player.update p dt).
Proof.
  intros p' attack. subst p' attack. rewrite fight_step_eq. cbn [fst].
  destruct (opponent_update_cases o dt d)
    as [[Hnone _] | (_ & Htel & _ & Hsome)].
  - rewrite Hnone. cbn [Game.resolve_attack Player.update Player.hp].
    done.
  - rewrite Hsome.
    cbn [Game.resolve_attack Opponent.side Opponent.damage Player.update
         Player.dodging Player.blocking].
    destruct (Game.dodged (Opponent.attack_side o) (Player.dodging p));
      destruct (Player.blocking p); cbn [negb andb Player.hp
                                          Player.block_cooldown_timer];
      try done.
    unfold Player.take_damage. cbn [Player.invincibility_timer].
    destruct (decide _) as [Hinv|Hfree];
      cbn [snd Player.hp Player.update]; [done|].
    split; [|done]. intros _.
    split; [done|]. split; [done|]. split; [done|]. split; [|done].
    destruct (Rle_dec (Player.invincibility_timer p - dt) 0) as [|Hpos];
      [done|].
    exfalso. apply Hfree. cbn [Player.update Player.invincibility_timer].
    unfold py_max2. rewrite decide_True by lra. lra.
Qed.






